(** * TilePuzzler: grid slicing and composition

    A shallow embedding of [tilepuzzler.go]: the Slicer
    ([uploadPuzzleHandler]) that cuts a resized image into 512-pixel tiles
    and writes a manifest, and the Composer ([exportPuzzleHandler]) that
    paints a placement map back onto one canvas.

    Go values are modelled as follows.
    - [int] is a 64-bit signed integer: a [Z] with the wrap-around of every
      operation written out ([Int.add], [Int.mul], ...).
    - [float64] is an IEEE binary64 number: [spec_float] with precision 53
      and maximal exponent 1024.
    - [string] is a sequence of bytes: [string].
    - [map[string]string] is a [gmap string string]; a [range] over it
      visits its entries in an order the language leaves open, so a loop
      over a map takes the visiting order as an argument, constrained to be
      a permutation of the entries.
    - an [image.Image] is its interface: a bounds rectangle and a pixel
      function, pixels being read through their 8-bit premultiplied RGBA
      view.
    - the file system, the resampling library and the JPEG codec are an
      environment: a record that tells, for each path, whether [os.Create]
      and the writes succeed, and what the libraries return.

    The standard library functions the handlers call ([fmt.Sscanf],
    [fmt.Sprintf], [strconv.Atoi], [image.Rect], [draw.Draw],
    [image.NewRGBA], [png.Encode], [jpeg.Encode]) are modelled as far as the
    handlers use them. The HTTP transport, the exhaustion of memory and the
    cleaning of paths by [filepath.Join] are left out. *)

From Stdlib Require Import ZArith Lia List Bool Ascii String.
From Stdlib Require Import Floats.SpecFloat.
From stdpp Require Import gmap strings list fin_maps sorting.

Local Open Scope Z_scope.

(** ** Go's [int] *)

Module Int.

Definition min_int : Z := - 2 ^ 63.
Definition max_int : Z := 2 ^ 63 - 1.

(** Two's complement reduction to 64 bits. *)
Definition wrap (z : Z) : Z := (z + 2 ^ 63) mod 2 ^ 64 - 2 ^ 63.

Definition add (x y : Z) : Z := wrap (x + y).
Definition sub (x y : Z) : Z := wrap (x - y).
Definition mul (x y : Z) : Z := wrap (x * y).
(** Go's [/] truncates toward zero. *)
Definition quo (x y : Z) : Z := wrap (Z.quot x y).

Definition in_range (z : Z) : Prop := min_int <= z <= max_int.

End Int.

(** ** Package [image]: points and rectangles *)

Record Point := Pt { X : Z; Y : Z }.

Record Rectangle := MkRectangle { Min : Point; Max : Point }.

(** [image.Rect]: the corners are put in order. *)
Definition Rect (x0 y0 x1 y1 : Z) : Rectangle :=
  let '(x0, x1) := if x0 >? x1 then (x1, x0) else (x0, x1) in
  let '(y0, y1) := if y0 >? y1 then (y1, y0) else (y0, y1) in
  MkRectangle (Pt x0 y0) (Pt x1 y1).

Definition ZR : Rectangle := MkRectangle (Pt 0 0) (Pt 0 0).

Definition Dx (r : Rectangle) : Z := Int.sub (X (Max r)) (X (Min r)).
Definition Dy (r : Rectangle) : Z := Int.sub (Y (Max r)) (Y (Min r)).
Definition Size (r : Rectangle) : Point := Pt (Dx r) (Dy r).

Definition PtAdd (p q : Point) : Point :=
  Pt (Int.add (X p) (X q)) (Int.add (Y p) (Y q)).
Definition PtSub (p q : Point) : Point :=
  Pt (Int.sub (X p) (X q)) (Int.sub (Y p) (Y q)).

Definition RectAdd (r : Rectangle) (p : Point) : Rectangle :=
  MkRectangle (PtAdd (Min r) p) (PtAdd (Max r) p).

Definition Empty (r : Rectangle) : bool :=
  (X (Min r) >=? X (Max r)) || (Y (Min r) >=? Y (Max r)).

(** [Point.In]: the rectangle holds its upper-left edge, not its
    lower-right one. *)
Definition PtIn (x y : Z) (r : Rectangle) : bool :=
  (X (Min r) <=? x) && (x <? X (Max r)) &&
  (Y (Min r) <=? y) && (y <? Y (Max r)).

(** [Rectangle.Intersect]: an empty intersection is the zero rectangle. *)
Definition Intersect (r s : Rectangle) : Rectangle :=
  let r' :=
    MkRectangle
      (Pt (Z.max (X (Min r)) (X (Min s))) (Z.max (Y (Min r)) (Y (Min s))))
      (Pt (Z.min (X (Max r)) (X (Max s))) (Z.min (Y (Max r)) (Y (Max s)))) in
  if Empty r' then ZR else r'.

(** ** Grid geometry of the Slicer *)

Definition tileSize : Z := 512.

(** [cols := (bounds.Max.X + tileSize - 1) / tileSize] *)
Definition gridCols (bounds : Rectangle) : Z :=
  Int.quo (Int.sub (Int.add (X (Max bounds)) tileSize) 1) tileSize.

(** [rows := (bounds.Max.Y + tileSize - 1) / tileSize] *)
Definition gridRows (bounds : Rectangle) : Z :=
  Int.quo (Int.sub (Int.add (Y (Max bounds)) tileSize) 1) tileSize.

(** The rectangle cut for cell [(r, c)]: the body of the slicing loop up to
    [tileRect := image.Rect(x0, y0, x1, y1)]. *)
Definition tileRect (bounds : Rectangle) (r c : Z) : Rectangle :=
  let x0 := Int.mul c tileSize in
  let y0 := Int.mul r tileSize in
  let x1 := Int.add x0 tileSize in
  let y1 := Int.add y0 tileSize in
  let x1 := if x1 >? X (Max bounds) then X (Max bounds) else x1 in
  let y1 := if y1 >? Y (Max bounds) then Y (Max bounds) else y1 in
  Rect x0 y0 x1 y1.

(** ** Go's [float64] *)

Module Float64.

Definition prec : Z := 53.
Definition emax : Z := 1024.

(** [float64(n)] for an [int]: rounded to nearest, ties to even. *)
Definition of_int (n : Z) : spec_float := binary_normalize prec emax n 0 false.

Definition div (x y : spec_float) : spec_float := SFdiv prec emax x y.

(** The integer part of a finite number, the fraction dropped. *)
Definition trunc (s : bool) (m : positive) (e : Z) : Z :=
  let a := if 0 <=? e then Z.pos m * 2 ^ e else Z.pos m / 2 ^ (- e) in
  if s then - a else a.

(** [int(f)]: truncation toward zero. What a value outside the range of
    [int] (or an infinity or a NaN) converts to is left to the platform;
    this is the amd64 result. *)
Definition to_int (f : spec_float) : Z :=
  match f with
  | S754_zero _ => 0
  | S754_finite s m e =>
      let v := trunc s m e in
      if (Int.min_int <=? v) && (v <=? Int.max_int) then v else Int.min_int
  | S754_infinity _ | S754_nan => Int.min_int
  end.

End Float64.

(** [targetWidth := tileSize * columns] *)
Definition targetWidth (columns : Z) : Z := Int.mul tileSize columns.

(** [aspectRatio := float64(originalWidth) / float64(originalHeight)]
    [targetHeight := int(float64(targetWidth) / aspectRatio)] *)
Definition targetHeight (columns originalWidth originalHeight : Z) : Z :=
  let aspectRatio :=
    Float64.div (Float64.of_int originalWidth) (Float64.of_int originalHeight) in
  Float64.to_int (Float64.div (Float64.of_int (targetWidth columns)) aspectRatio).

(** ** Package [strconv] *)

Module Strconv.

Definition byte_of (a : ascii) : Z := Z.of_N (N_of_ascii a).
Definition digit (d : Z) : ascii := ascii_of_N (Z.to_N (48 + d)).
Definition is_digit (b : Z) : bool := (48 <=? b) && (b <=? 57).

(** Decimal digits of [u >= 0], most significant first, pushed in front
    of [acc]. A 64-bit number has at most 20 digits. *)
Fixpoint formatBits (fuel : nat) (u : Z) (acc : list ascii) : list ascii :=
  match fuel with
  | O => acc
  | S fuel' =>
      if u <? 10 then digit u :: acc
      else formatBits fuel' (u / 10) (digit (u mod 10) :: acc)
  end.

Definition digits (u : Z) : list ascii := formatBits 20 u [].

(** [strconv.Itoa] *)
Definition Itoa (n : Z) : list ascii :=
  if n <? 0 then "-"%char :: digits (- n) else digits n.

(** The value of a run of decimal digits, [acc] being the value read so
    far; [None] at a byte that is no digit. *)
Fixpoint parseDigits (acc : Z) (s : list Z) : option Z :=
  match s with
  | [] => Some acc
  | b :: s' =>
      if is_digit b then parseDigits (acc * 10 + (b - 48)) s' else None
  end.

(** [strconv.ParseInt(s, 10, 64)]: an optional sign, then one digit or
    more and nothing else; [None] is a syntax or a range error. *)
Definition ParseInt (s : list Z) : option Z :=
  let '(neg, body) :=
    match s with
    | 43 :: t => (false, t)
    | 45 :: t => (true, t)
    | _ => (false, s)
    end in
  match body with
  | [] => None
  | _ =>
      match parseDigits 0 body with
      | None => None
      | Some u =>
          let v := if neg then - u else u in
          if (Int.min_int <=? v) && (v <=? Int.max_int) then Some v else None
      end
  end.

Definition bytes (s : string) : list Z := byte_of <$> list_ascii_of_string s.

(** [strconv.Atoi] *)
Definition Atoi (s : string) : option Z := ParseInt (bytes s).

End Strconv.

(** ** Package [unicode/utf8] *)

Module Utf8.

Definition RuneError : Z := 65533.

Definition cont (b : Z) : bool := (128 <=? b) && (b <=? 191).

(** The range the second byte of a sequence must lie in, by first byte,
    and the length of the sequence; [None] for a byte that starts none. *)
Definition first (b0 : Z) : option (Z * Z * Z) :=
  if (194 <=? b0) && (b0 <=? 223) then Some (2, 128, 191)
  else if b0 =? 224 then Some (3, 160, 191)
  else if (225 <=? b0) && (b0 <=? 236) then Some (3, 128, 191)
  else if b0 =? 237 then Some (3, 128, 159)
  else if (238 <=? b0) && (b0 <=? 239) then Some (3, 128, 191)
  else if b0 =? 240 then Some (4, 144, 191)
  else if (241 <=? b0) && (b0 <=? 243) then Some (4, 128, 191)
  else if b0 =? 244 then Some (4, 128, 143)
  else None.

(** [utf8.DecodeRune] run over a whole byte string: a malformed or cut
    sequence yields [RuneError] and consumes one byte. *)
Fixpoint decode (s : list Z) : list Z :=
  match s with
  | [] => []
  | b0 :: t =>
      if b0 <? 128 then b0 :: decode t
      else
        match first b0, t with
        | Some (sz, lo, hi), b1 :: t1 =>
            if (lo <=? b1) && (b1 <=? hi) then
              if sz =? 2 then
                (Z.land b0 31 * 64 + Z.land b1 63) :: decode t1
              else
                match t1 with
                | b2 :: t2 =>
                    if cont b2 then
                      if sz =? 3 then
                        (Z.land b0 15 * 4096 + Z.land b1 63 * 64
                         + Z.land b2 63) :: decode t2
                      else
                        match t2 with
                        | b3 :: t3 =>
                            if cont b3 then
                              (Z.land b0 7 * 262144 + Z.land b1 63 * 4096
                               + Z.land b2 63 * 64 + Z.land b3 63)
                                :: decode t3
                            else RuneError :: decode t
                        | [] => RuneError :: decode t
                        end
                    else RuneError :: decode t
                | [] => RuneError :: decode t
                end
            else RuneError :: decode t
        | _, _ => RuneError :: decode t
        end
  end.

End Utf8.

(** ** Package [fmt] *)

Module Fmt.

(** [fmt.isSpace] *)
Definition isSpace (r : Z) : bool :=
  ((9 <=? r) && (r <=? 13)) || (r =? 32) || (r =? 133) || (r =? 160)
  || (r =? 5760) || ((8192 <=? r) && (r <=? 8202))
  || ((8232 <=? r) && (r <=? 8233)) || (r =? 8239) || (r =? 8287)
  || (r =? 12288).

(** [ss.SkipSpace] under [Sscanf]: spaces are skipped, a newline in the
    input is an error ([None]). *)
Fixpoint SkipSpace (s : list Z) : option (list Z) :=
  match s with
  | [] => Some []
  | r :: s' =>
      if r =? 10 then None
      else if isSpace r then SkipSpace s'
      else Some s
  end.

(** The longest run of decimal digits in front of [s], and what follows. *)
Fixpoint acceptDigits (s : list Z) : list Z * list Z :=
  match s with
  | r :: s' =>
      if Strconv.is_digit r then
        let '(ds, rest) := acceptDigits s' in (r :: ds, rest)
      else ([], s)
  | [] => ([], [])
  end.

(** [ss.scanInt] for the verb [%d] and a 64-bit [int]: leading spaces, an
    optional sign, at least one digit; the token must be in range. The
    result is the number and the input left, [None] on an error. *)
Definition scanInt (s : list Z) : option (Z * list Z) :=
  match SkipSpace s with
  | None => None
  | Some [] => None
  | Some (r :: s1) =>
      let '(sign, s2) :=
        if (r =? 43) || (r =? 45) then ([r], s1) else ([], r :: s1) in
      match acceptDigits s2 with
      | ([], _) => None
      | (ds, rest) =>
          match Strconv.ParseInt (sign ++ ds) with
          | Some v => Some (v, rest)
          | None => None
          end
      end
  end.

Definition runes (s : string) : list Z := Utf8.decode (Strconv.bytes s).

(** [var r, c int; fmt.Sscanf(pos, "%d,%d", &r, &c)], the error dropped
    as the caller drops it: scanning stops at the first error and a
    variable not reached keeps its zero. *)
Definition Sscanf_d_d (pos : string) : Z * Z :=
  match scanInt (runes pos) with
  | None => (0, 0)
  | Some (r, rest) =>
      match rest with
      | 44 :: rest' =>
          match scanInt rest' with
          | None => (r, 0)
          | Some (c, _) => (r, c)
          end
      | _ => (r, 0)
      end
  end.


(** [fmt.Sprintf("%d,%d", r, c)] *)
Definition Sprintf_d_d (r c : Z) : string :=
  string_of_list_ascii (Strconv.Itoa r ++ ","%char :: Strconv.Itoa c).

(** The verb [%04d]: zeros are put in front of the digits until the
    number, its sign counted, is four wide. *)
Definition pad04 (n : Z) : list ascii :=
  let ds := Strconv.digits (Z.abs n) in
  let width := if n <? 0 then 3%nat else 4%nat in
  let zeros := repeat "0"%char (width - length ds) in
  if n <? 0 then "-"%char :: zeros ++ ds else zeros ++ ds.

(** [fmt.Sprintf("image_%04d.png", n)] *)
Definition Sprintf_image (n : Z) : string :=
  string_of_list_ascii
    (list_ascii_of_string "image_" ++ pad04 n ++ list_ascii_of_string ".png").

End Fmt.

(** ** Package [image]: colours and images *)

Module Color.

(** [color.RGBA]: four 8-bit channels, the colour channels already
    multiplied by alpha. *)
Record RGBA := MkRGBA { R : Z; G : Z; B : Z; A : Z }.

(** The zero value, [color.RGBA{}]: fully transparent. *)
Definition transparent : RGBA := MkRGBA 0 0 0 0.

Definition valid (p : RGBA) : Prop :=
  0 <= R p <= 255 /\ 0 <= G p <= 255 /\ 0 <= B p <= 255 /\ 0 <= A p <= 255.

End Color.

(** An image as the [image.Image] interface shows it: [Bounds()] and, for
    each point, [At(x, y)] converted to [color.RGBA]. *)
Record Image := MkImage { Bounds : Rectangle; At : Z -> Z -> Color.RGBA }.

(** [image.mul3NonNeg]: the product, or [-1] when a factor is negative or
    the product does not fit an [int]. *)
Definition mul3NonNeg (x y z : Z) : Z :=
  if (x <? 0) || (y <? 0) || (z <? 0) then -1
  else if 2 ^ 64 <=? x * y then -1
  else if 2 ^ 64 <=? x * y * z then -1
  else if 2 ^ 63 <=? x * y * z then -1
  else x * y * z.

(** [image.NewRGBA]: a transparent image over [r]; [None] is the panic
    "Rectangle has huge or negative dimensions". Running out of memory for
    a rectangle that passes this test is not modelled. *)
Definition NewRGBA (r : Rectangle) : option Image :=
  if mul3NonNeg 4 (Dx r) (Dy r) <? 0 then None
  else Some (MkImage r (fun _ _ => Color.transparent)).

(** ** Package [image/draw] *)

Inductive Op := Over | Src.

(** One channel of source-over on 8-bit premultiplied pixels, in the
    integer arithmetic of [draw.Draw] on an [*image.RGBA] destination:
    [uint8((d*a/m + s*0x101) >> 8)] with [m = 0xffff] and
    [a = (m - sa*0x101) * 0x101]. *)
Definition overChannel (d s sa : Z) : Z :=
  let m := 65535 in
  let a := (m - sa * 257) * 257 in
  ((d * a / m + s * 257) / 256) mod 256.

Definition over (s d : Color.RGBA) : Color.RGBA :=
  let sa := Color.A s in
  Color.MkRGBA (overChannel (Color.R d) (Color.R s) sa)
               (overChannel (Color.G d) (Color.G s) sa)
               (overChannel (Color.B d) (Color.B s) sa)
               (overChannel (Color.A d) (Color.A s) sa).

(** [draw.clip]: [r] is cut down to the destination and to the source
    moved onto it, and the source point follows the upper-left corner. *)
Definition clip (dst r src : Rectangle) (sp : Point) : Rectangle * Point :=
  let orig := Min r in
  let r := Intersect r dst in
  let r := Intersect r (RectAdd src (PtSub orig sp)) in
  let dx := Int.sub (X (Min r)) (X orig) in
  let dy := Int.sub (Y (Min r)) (Y orig) in
  (r, Pt (Int.add (X sp) dx) (Int.add (Y sp) dy)).

(** [draw.Draw(dst, r, src, sp, op)] *)
Definition Draw (dst : Image) (r : Rectangle) (src : Image) (sp : Point)
    (op : Op) : Image :=
  let '(r', sp') := clip (Bounds dst) r (Bounds src) sp in
  if Empty r' then dst
  else
    MkImage (Bounds dst) (fun x y =>
      if PtIn x y r' then
        let s := At src (X sp' + (x - X (Min r'))) (Y sp' + (y - Y (Min r'))) in
        match op with
        | Src => s
        | Over => over s (At dst x y)
        end
      else At dst x y).

(** ** Package [image/png] *)

(** [png.Encode] refuses an image with an empty side or a side of 2^32
    pixels or more. *)
Definition pngEncodable (m : Image) : bool :=
  (0 <? Dx (Bounds m)) && (Dx (Bounds m) <? 2 ^ 32) &&
  (0 <? Dy (Bounds m)) && (Dy (Bounds m) <? 2 ^ 32).

(** What [image.Decode] reads back from the stream [png.Encode] wrote for
    [m]: the same pixels, the upper-left corner moved to the origin. The
    stream is taken as lossless. This is exact for opaque and for fully
    transparent pixels; for a pixel in between, PNG stores the colour
    without the alpha multiplied in, and the way through [color.NRGBA] may
    change its low bits, which is not modelled. *)
Definition pngDecoded (m : Image) : Image :=
  let b := Rect 0 0 (Dx (Bounds m)) (Dy (Bounds m)) in
  MkImage b (fun x y =>
    if PtIn x y b then At m (X (Min (Bounds m)) + x) (Y (Min (Bounds m)) + y)
    else Color.transparent).

(** ** The puzzle directory *)

Inductive File :=
| FileImage (img : Image)
    (** a raster file, as [image.Decode] reads it *)
| FileManifest (pieces : list string) (solution : gmap string string)
    (** [manifest.json] *)
| FileCut.
    (** a file that was created and whose content is missing or cut short *)

(** The files of one puzzle, [images/<folder>], by their path below it. *)
Abbreviation Disk := (gmap string File).

(** [os.Open(filepath.Join(basePath, "pieces", filename))] followed by
    [image.Decode]; [None] when either fails. The file name is taken as it
    is: the cleaning of [".."] and ["."] by [filepath.Join] is not modelled. *)
Definition loadTile (d : Disk) (filename : string) : option Image :=
  match d !! ("pieces/" +:+ filename) with
  | Some (FileImage img) => Some img
  | _ => None
  end.

(** ** The Composer: [exportPuzzleHandler] *)

Record ExportPayload := {
  Folder : string;
  Placements : gmap string string
}.

Record ExportRequest := {
  exportMethod : string;
  exportBody : option ExportPayload   (** [None]: the body is not valid JSON *)
}.

Inductive ExportResponse :=
| ExportMethodNotAllowed
| ExportBadRequest
| ExportPanic
| ExportEncodeError
| ExportPng (dst : Image).

(** The first loop: the largest row and column over all keys, from zero. *)
Definition scanKey (acc : Z * Z) (entry : string * string) : Z * Z :=
  let '(maxRow, maxCol) := acc in
  let '(r, c) := Fmt.Sscanf_d_d entry.1 in
  (if r >? maxRow then r else maxRow, if c >? maxCol then c else maxCol).

Definition maxRowCol (order : list (string * string)) : Z * Z :=
  fold_left scanKey order (0, 0).

Definition canvasRect (order : list (string * string)) : Rectangle :=
  let '(maxRow, maxCol) := maxRowCol order in
  let canvasW := Int.mul (Int.add maxCol 1) tileSize in
  let canvasH := Int.mul (Int.add maxRow 1) tileSize in
  Rect 0 0 canvasW canvasH.

(** Where the tile of a key is painted: [image.Pt(c*tileSize, r*tileSize)]. *)
Definition tilePoint (pos : string) : Point :=
  let '(r, c) := Fmt.Sscanf_d_d pos in
  Pt (Int.mul c tileSize) (Int.mul r tileSize).

(** The destination rectangle of a tile:
    [image.Rectangle{Min: pt, Max: pt.Add(img.Bounds().Size())}]. *)
Definition tileTarget (pos : string) (img : Image) : Rectangle :=
  let pt := tilePoint pos in
  MkRectangle pt (PtAdd pt (Size (Bounds img))).

(** The body of the second loop; a tile that does not load is passed over. *)
Definition paintTile (d : Disk) (dst : Image) (entry : string * string) : Image :=
  let '(pos, filename) := entry in
  match loadTile d filename with
  | None => dst
  | Some img => Draw dst (tileTarget pos img) img (Pt 0 0) Over
  end.

(** The canvas after both loops. [order1] and [order2] are the orders in
    which the two [range] loops visit the placements. *)
Definition compose (d : Disk) (order1 order2 : list (string * string))
    : option Image :=
  match NewRGBA (canvasRect order1) with
  | None => None
  | Some dst => Some (fold_left (paintTile d) order2 dst)
  end.

(** An order in which [range m] may visit the map [m]. *)
Definition rangeOrder (m : gmap string string) (order : list (string * string))
    : Prop :=
  order ≡ₚ map_to_list m.

Definition exportPuzzleHandler (d : Disk) (req : ExportRequest)
    (order1 order2 : list (string * string)) : ExportResponse :=
  if negb (String.eqb (exportMethod req) "POST") then ExportMethodNotAllowed
  else
    match exportBody req with
    | None => ExportBadRequest
    | Some payload =>
        match compose d order1 order2 with
        | None => ExportPanic
        | Some dst =>
            if pngEncodable dst then ExportPng dst else ExportEncodeError
        end
    end.

(** A run of the Composer on the request [req]: the handler under some
    pair of visiting orders of the placement map. *)
Definition exportRun (d : Disk) (req : ExportRequest) (resp : ExportResponse)
    : Prop :=
  match exportBody req with
  | None => resp = exportPuzzleHandler d req [] []
  | Some payload =>
      exists order1 order2,
        rangeOrder (Placements payload) order1 /\
        rangeOrder (Placements payload) order2 /\
        resp = exportPuzzleHandler d req order1 order2
  end.

(** ** The Slicer: [uploadPuzzleHandler] *)

(** [imageIndex.json] as [os.ReadFile] and [json.Unmarshal] find it. *)
Record CatalogEntry := {
  entryName : string;
  entryFolder : string;
  entryRows : Z;
  entryCols : Z;
  entryTl : string
}.

Inductive Catalog :=
| CatalogAbsent
| CatalogUnreadable
| CatalogMalformed
| CatalogDoc (images : list CatalogEntry).

(** What the handler does not decide: the resampling library, the JPEG
    codec, the Unicode tables and the outcome of each file operation. *)
Record Env := {
  Resize : Z -> Z -> Image -> Image;
    (** [resize.Resize(width, height, img, resize.Lanczos3)] *)
  JpegDecoded : Image -> Image;
    (** what reading back the output of [jpeg.Encode] gives *)
  IsUpper : Z -> bool;
  ToLower : Z -> Z;
  MkdirAllOK : bool;
  CreateOK : string -> bool;
    (** [os.Create] succeeds on this path of the puzzle directory *)
  WriteOK : string -> bool;
    (** the encoder's writes to this file all succeed *)
  CatalogWriteOK : bool
}.

Module Utf8Enc.

(** [utf8.AppendRune] *)
Definition encode (r : Z) : list Z :=
  if (0 <=? r) && (r <=? 127) then [r]
  else if (0 <=? r) && (r <=? 2047) then
    [192 + r / 64; 128 + r mod 64]
  else if (r <? 0) || (1114111 <? r) || ((55296 <=? r) && (r <=? 57343)) then
    [239; 191; 189]
  else if r <=? 65535 then
    [224 + r / 4096; 128 + (r / 64) mod 64; 128 + r mod 64]
  else
    [240 + r / 262144; 128 + (r / 4096) mod 64; 128 + (r / 64) mod 64;
     128 + r mod 64].

Definition to_string (rs : list Z) : string :=
  string_of_list_ascii
    ((fun b => ascii_of_N (Z.to_N b)) <$> (rs ≫= encode)).

End Utf8Enc.

(** [toSnakeCase]; [first] tells the rune at byte index 0. *)
Fixpoint snakeRunes (env : Env) (first : bool) (rs : list Z) : list Z :=
  match rs with
  | [] => []
  | r :: rs' =>
      (if IsUpper env r then
         (if first then [] else [95]) ++ [ToLower env r]
       else if (r =? 32) || (r =? 45) then [95]
       else [r]) ++ snakeRunes env false rs'
  end.

Definition toSnakeCase (env : Env) (s : string) : string :=
  Utf8Enc.to_string (snakeRunes env true (Fmt.runes s)).

Record UploadRequest := {
  uploadMethod : string;
  formOK : bool;                       (** [r.ParseMultipartForm] succeeds *)
  formName : string;                   (** [r.FormValue("name")] *)
  formColumns : string;                (** [r.FormValue("columns")] *)
  formImage : option (option Image)
    (** [r.FormFile("image")], then [image.Decode] on it *)
}.

Inductive UploadResponse :=
| UploadOK                       (** [{"status": "ok"}] *)
| UploadError (code : Z) (msg : string)
| UploadPanic.

(** The state the slicing loop carries. *)
Record Slicing := {
  pieces : list string;
  solution : gmap string string;
  disk : Disk
}.

(** The state before the first tile. *)
Definition emptySlicing (d : Disk) : Slicing :=
  {| pieces := []; solution := ∅; disk := d |}.

(** Whether a loop ran to its end. *)
Definition succeeded {S E : Type} (r : S + E) : bool :=
  match r with inl _ => true | inr _ => false end.

(** A loop whose body may leave the function. *)
Fixpoint forEach {T S E : Type} (body : T -> S -> S + E) (l : list T) (s : S)
    : S + E :=
  match l with
  | [] => inl s
  | t :: l' =>
      match body t s with
      | inl s' => forEach body l' s'
      | inr e => inr e
      end
  end.

(** The pixels of one tile:
    [tileImg := image.NewRGBA(tileRect)] and
    [draw.Draw(tileImg, tileRect, resizedImg, image.Point{x0, y0}, draw.Src)]. *)
Definition tileImage (resizedImg : Image) (r c : Z) : option Image :=
  let rect := tileRect (Bounds resizedImg) r c in
  match NewRGBA rect with
  | None => None
  | Some tileImg =>
      Some (Draw tileImg rect resizedImg
              (Pt (Int.mul c tileSize) (Int.mul r tileSize)) Src)
  end.

(** The body of the inner loop. The result of [png.Encode] is dropped, as
    in the source: when the encoder fails the file stays cut and the loop
    goes on. *)
Definition sliceCell (env : Env) (resizedImg : Image) (r c : Z) (st : Slicing)
    : Slicing + (UploadResponse * Disk) :=
  match tileImage resizedImg r c with
  | None => inr (UploadPanic, disk st)
  | Some tileImg =>
      let tileName := Fmt.Sprintf_image (Z.of_nat (length (pieces st))) in
      let tilePath := "pieces/" +:+ tileName in
      if negb (CreateOK env tilePath) then
        inr (UploadError 500 "Error creating tile file", disk st)
      else
        let content :=
          if pngEncodable tileImg && WriteOK env tilePath
          then FileImage (pngDecoded tileImg) else FileCut in
        inl {| pieces := pieces st ++ [tileName];
               solution := <[Fmt.Sprintf_d_d r c := tileName]> (solution st);
               disk := <[tilePath := content]> (disk st) |}
  end.

(** [for r := 0; r < rows; r++ { for c := 0; c < cols; c++ { ... } }] *)
Definition sliceLoop (env : Env) (resizedImg : Image) (st : Slicing)
    : Slicing + (UploadResponse * Disk) :=
  let cols := gridCols (Bounds resizedImg) in
  let rows := gridRows (Bounds resizedImg) in
  forEach (fun r st =>
    forEach (fun c st => sliceCell env resizedImg r c st) (seqZ 0 cols) st)
    (seqZ 0 rows) st.

(** The update of [imageIndex.json], under [imageIndexMutex]. *)
Definition updateCatalog (env : Env) (cat : Catalog) (e : CatalogEntry)
    : UploadResponse * Catalog :=
  match cat with
  | CatalogUnreadable => (UploadError 500 "Error reading imageIndex.json", cat)
  | CatalogMalformed => (UploadError 500 "Error parsing imageIndex.json", cat)
  | CatalogAbsent | CatalogDoc _ =>
      let images := match cat with CatalogDoc l => l | _ => [] end in
      if CatalogWriteOK env then (UploadOK, CatalogDoc (images ++ [e]))
      else (UploadError 500 "Error writing imageIndex.json", cat)
  end.

Definition uint (z : Z) : Z := z mod 2 ^ 64.

(** [jpeg.Encode] refuses a side of 2^16 pixels or more. *)
Definition jpegEncodable (m : Image) : bool :=
  (Dx (Bounds m) <? 2 ^ 16) && (Dy (Bounds m) <? 2 ^ 16).

Definition uploadPuzzleHandler (env : Env) (d : Disk) (cat : Catalog)
    (req : UploadRequest) : UploadResponse * Disk * Catalog :=
  if negb (String.eqb (uploadMethod req) "POST") then
    (UploadError 405 "POST required", d, cat)
  else if negb (formOK req) then
    (UploadError 400 "Error parsing multipart form", d, cat)
  else if String.eqb (formName req) "" then
    (UploadError 400 "Puzzle name is required", d, cat)
  else
    match Strconv.Atoi (formColumns req) with
    | None => (UploadError 400 "Invalid number of columns", d, cat)
    | Some columns =>
        if columns <=? 0 then
          (UploadError 400 "Invalid number of columns", d, cat)
        else
          match formImage req with
          | None => (UploadError 400 "Error retrieving the file", d, cat)
          | Some None => (UploadError 400 "Error decoding image", d, cat)
          | Some (Some img) =>
              let originalWidth := Dx (Bounds img) in
              let originalHeight := Dy (Bounds img) in
              let resizedImg :=
                Resize env (uint (targetWidth columns))
                  (uint (targetHeight columns originalWidth originalHeight))
                  img in
              if negb (MkdirAllOK env) then
                (UploadError 500 "Error creating puzzle directory", d, cat)
              else if negb (CreateOK env "index.jpg") then
                (UploadError 500 "Error creating index.jpg", d, cat)
              else if negb (jpegEncodable resizedImg && WriteOK env "index.jpg")
              then
                (UploadError 500 "Error saving index.jpg",
                 <["index.jpg" := FileCut]> d, cat)
              else
                let d1 :=
                  <["index.jpg" := FileImage (JpegDecoded env resizedImg)]> d in
                match sliceLoop env resizedImg (emptySlicing d1) with
                | inr (resp, d2) => (resp, d2, cat)
                | inl st =>
                    if negb (CreateOK env "manifest.json") then
                      (UploadError 500 "Error creating manifest.json",
                       disk st, cat)
                    else
                      let manifest :=
                        if WriteOK env "manifest.json"
                        then FileManifest (pieces st) (solution st)
                        else FileCut in
                      let d3 := <["manifest.json" := manifest]> (disk st) in
                      let newImage :=
                        {| entryName := formName req;
                           entryFolder := toSnakeCase env (formName req);
                           entryRows := gridRows (Bounds resizedImg);
                           entryCols := gridCols (Bounds resizedImg);
                           entryTl := "image_0000.png" |} in
                      let '(resp, cat') := updateCatalog env cat newImage in
                      (resp, d3, cat')
                end
          end
    end.

(** The cells in the order the two nested loops visit them, and the
    rectangles the Slicer cuts, in that order. *)
Definition gridCells (bounds : Rectangle) : list (Z * Z) :=
  r ← seqZ 0 (gridRows bounds); c ← seqZ 0 (gridCols bounds); [(r, c)].

Definition tileRects (bounds : Rectangle) : list Rectangle :=
  (fun rc => tileRect bounds rc.1 rc.2) <$> gridCells bounds.

(** The target height in the words of the specification, for comparison:
    [round(targetWidth / aspectRatio)] over the reals, with
    [aspectRatio = sourceWidth / sourceHeight]; that is the quotient
    [tileSize * columns * sourceHeight / sourceWidth] rounded to the
    nearest integer. *)
Definition roundedHeight (columns sourceWidth sourceHeight : Z) : Z :=
  (2 * (tileSize * columns) * sourceHeight + sourceWidth) / (2 * sourceWidth).

(** The slicing loop as one loop over a list of cells. *)
Definition sliceCells (env : Env) (resizedImg : Image) (cells : list (Z * Z))
    (st : Slicing) : Slicing + (UploadResponse * Disk) :=
  forEach (fun rc st => sliceCell env resizedImg rc.1 rc.2 st) cells st.

(** ** What the Composer paints, pixel by pixel *)

Definition keyRow (pos : string) : Z := (Fmt.Sscanf_d_d pos).1.
Definition keyCol (pos : string) : Z := (Fmt.Sscanf_d_d pos).2.

(** The largest of the numbers of a list and zero. *)
Definition maxOf (l : list Z) : Z := foldr Z.max 0 l.

Definition maxRowOf (m : gmap string string) : Z :=
  maxOf ((fun e => keyRow e.1) <$> map_to_list m).
Definition maxColOf (m : gmap string string) : Z :=
  maxOf ((fun e => keyCol e.1) <$> map_to_list m).

(** The part of a canvas with bounds [canvas] that the entry [e] paints:
    what [draw.Draw] keeps of the destination rectangle; nothing when the
    tile does not load. *)
Definition paintRect (canvas : Rectangle) (d : Disk) (e : string * string)
    : Rectangle :=
  match loadTile d e.2 with
  | None => ZR
  | Some img => (clip canvas (tileTarget e.1 img) (Bounds img) (Pt 0 0)).1
  end.

(** The pixel of its tile that the entry [e] puts on the point [(x, y)]. *)
Definition paintSource (canvas : Rectangle) (d : Disk) (e : string * string)
    (x y : Z) : Color.RGBA :=
  match loadTile d e.2 with
  | None => Color.transparent
  | Some img =>
      let '(r', sp') := clip canvas (tileTarget e.1 img) (Bounds img) (Pt 0 0) in
      At img (X sp' + (x - X (Min r'))) (Y sp' + (y - Y (Min r')))
  end.

(** One step of the painting loop seen from the point [(x, y)]. *)
Definition paintPixel (canvas : Rectangle) (d : Disk) (x y : Z)
    (px : Color.RGBA) (e : string * string) : Color.RGBA :=
  if PtIn x y (paintRect canvas d e)
  then over (paintSource canvas d e x y) px else px.

(** Two images with the same bounds and the same pixels: what
    [png.Encode] writes for them is the same. *)
Definition sameImage (a b : Image) : Prop :=
  Bounds a = Bounds b /\ forall x y, At a x y = At b x y.

Definition sameResult (a b : option Image) : Prop :=
  match a, b with
  | Some a, Some b => sameImage a b
  | None, None => True
  | _, _ => False
  end.

(** No point of the canvas is painted by two entries of the map. *)
Definition noOverlap (canvas : Rectangle) (d : Disk)
    (m : gmap string string) : Prop :=
  forall x y,
    (length (filter (fun e => PtIn x y (paintRect canvas d e) = true)
               (map_to_list m)) <= 1)%nat.

(** ** A sample environment and image

    An environment in which every file operation succeeds, used to run the
    handlers on concrete inputs. Resampling is modelled by reading the
    source at the same coordinates: the properties below do not depend on
    the pixels resampling produces. *)
Definition sampleEnv : Env :=
  {| Resize := fun w h img => MkImage (Rect 0 0 w h) (At img);
     JpegDecoded := fun img => img;
     IsUpper := fun r => (65 <=? r) && (r <=? 90);
     ToLower := fun r => if (65 <=? r) && (r <=? 90) then r + 32 else r;
     MkdirAllOK := true;
     CreateOK := fun _ => true;
     WriteOK := fun _ => true;
     CatalogWriteOK := true |}.

(** An opaque image of 1024 by 700 pixels, as a resize to two columns
    gives: two columns and two rows of tiles, the lower row 188 high. *)
Definition sampleImage : Image :=
  MkImage (Rect 0 0 1024 700)
    (fun x y => Color.MkRGBA (x mod 256) (y mod 256) 7 255).

(** ** Notions used in the statements *)

(** A resized image has its corner at the origin; the slicing loop divides
    [side + tileSize - 1], which must fit an [int]. *)
Definition sliceable (w h : Z) : Prop :=
  0 < w /\ 0 < h /\ w + tileSize <= Int.max_int /\ h + tileSize <= Int.max_int.

(** What [formatBits] pushes in front of [acc] is a run of digits that
    reads back as [u]. *)
Definition digitsOf (u : Z) (ds : list ascii) : Prop :=
  ds <> [] /\
  Forall (fun d => Strconv.is_digit (Strconv.byte_of d) = true) ds /\
  forall a, Strconv.parseDigits a (Strconv.byte_of <$> ds)
            = Some (a * 10 ^ Z.of_nat (length ds) + u).

(** A canvas whose pixel buffer fits an [int]. *)
Definition allocatable (w h : Z) : Prop := 0 < w /\ 0 < h /\ 4 * w * h <= Int.max_int.

(** A decoded tile: its bounds start at the origin and it is not larger
    than a cell. *)
Definition tileSized (img : Image) (w h : Z) : Prop :=
  Bounds img = Rect 0 0 w h /\ 0 < w <= tileSize /\ 0 < h <= tileSize.

(** The keys of the map scan to cells that are pairwise distinct. *)
Definition cellsDistinct (m : gmap string string) : Prop :=
  forall pos pos' f f', m !! pos = Some f -> m !! pos' = Some f' ->
    keyRow pos = keyRow pos' -> keyCol pos = keyCol pos' -> pos = pos'.

(** Every tile the map names is, if it loads, no larger than a cell. *)
Definition tilesFit (d : Disk) (m : gmap string string) : Prop :=
  forall pos f img, m !! pos = Some f -> loadTile d f = Some img ->
    exists w h, tileSized img w h.

Definition keysNonNegative (m : gmap string string) : Prop :=
  forall pos f, m !! pos = Some f -> 0 <= keyRow pos /\ 0 <= keyCol pos.

(** Two responses with the same status and, for a PNG, the same image. *)
Definition sameResponse (a b : ExportResponse) : Prop :=
  match a, b with
  | ExportPng x, ExportPng y => sameImage x y
  | ExportPng _, _ | _, ExportPng _ => False
  | _, _ => a = b
  end.

(** A tile of one colour, 512 by 512. *)
Definition solidTile (c : Color.RGBA) : Image :=
  MkImage (Rect 0 0 512 512)
    (fun x y => if PtIn x y (Rect 0 0 512 512) then c else Color.transparent).

Definition red : Color.RGBA := Color.MkRGBA 255 0 0 255.
Definition blue : Color.RGBA := Color.MkRGBA 0 0 255 255.

(** A puzzle directory with two tiles. *)
Definition sampleTiles : Disk :=
  {[ "pieces/a.png" := FileImage (solidTile red);
     "pieces/b.png" := FileImage (solidTile blue) ]}.

Definition exportOf (m : gmap string string) : ExportRequest :=
  {| exportMethod := "POST";
     exportBody := Some {| Folder := "sample"; Placements := m |} |}.

(** The canvas before the first tile is painted. *)
Definition blankCanvas (m : gmap string string) : Image :=
  MkImage (MkRectangle (Pt 0 0)
             (Pt ((maxColOf m + 1) * tileSize) ((maxRowOf m + 1) * tileSize)))
    (fun _ _ => Color.transparent).

(** The file the loop leaves for the tile it cuts at step [i]. *)
Definition tileFile (env : Env) (img : Image) (i : nat) (rc : Z * Z) : File :=
  match tileImage img rc.1 rc.2 with
  | Some tile =>
      if pngEncodable tile
         && WriteOK env ("pieces/" +:+ Fmt.Sprintf_image (Z.of_nat i))
      then FileImage (pngDecoded tile) else FileCut
  | None => FileCut
  end.

(** A source of 1800 by 1200 pixels, uploaded for two columns. *)
Definition sourceImage : Image :=
  MkImage (Rect 0 0 1800 1200)
    (fun x y => Color.MkRGBA (x mod 256) (y mod 256) 7 255).

Definition sampleUpload : UploadRequest :=
  {| uploadMethod := "POST";
     formOK := true;
     formName := "My Puzzle";
     formColumns := "2";
     formImage := Some (Some sourceImage) |}.

(** The environment [sampleEnv] with a device that fails every write to
    the file [path] (a full disk, say), and with a directory in which the
    file [path] cannot be created. *)
Definition failingWrite (path : string) : Env :=
  {| Resize := Resize sampleEnv; JpegDecoded := JpegDecoded sampleEnv;
     IsUpper := IsUpper sampleEnv; ToLower := ToLower sampleEnv;
     MkdirAllOK := true; CreateOK := fun _ => true;
     WriteOK := fun p => negb (String.eqb p path);
     CatalogWriteOK := true |}.

Definition failingCreate (path : string) : Env :=
  {| Resize := Resize sampleEnv; JpegDecoded := JpegDecoded sampleEnv;
     IsUpper := IsUpper sampleEnv; ToLower := ToLower sampleEnv;
     MkdirAllOK := true; CreateOK := fun p => negb (String.eqb p path);
     WriteOK := fun _ => true;
     CatalogWriteOK := true |}.

Definition responseOf (r : UploadResponse * Disk * Catalog) : UploadResponse := r.1.1.
Definition diskOf (r : UploadResponse * Disk * Catalog) : Disk := r.1.2.

(** Whether a file of the puzzle directory was left cut short. *)
Definition isCut (d : Disk) (path : string) : bool :=
  match d !! path with Some FileCut => true | _ => false end.

(** The resized image of a request, when the request gets as far. *)
Definition resizedOf (env : Env) (req : UploadRequest) : option Image :=
  match Strconv.Atoi (formColumns req), formImage req with
  | Some columns, Some (Some img) =>
      Some (Resize env (uint (targetWidth columns))
              (uint (targetHeight columns (Dx (Bounds img)) (Dy (Bounds img)))) img)
  | _, _ => None
  end.

(** An image with its corner at the origin and sides that the ceiling
    division of the loop does not wrap. *)
Definition resizedBounds (img : Image) : Prop :=
  exists w h, Bounds img = Rect 0 0 w h /\ 0 <= w /\ 0 <= h /\
              w + tileSize <= Int.max_int /\ h + tileSize <= Int.max_int.

(** Go's [unicode.IsUpper] and [unicode.ToLower] on ASCII: the capitals
    are [A] to [Z], and each is 32 below its small letter. *)
Definition asciiCase (env : Env) : Prop :=
  forall r, 0 <= r < 128 ->
    IsUpper env r = (65 <=? r) && (r <=? 90) /\
    (IsUpper env r = true -> ToLower env r = r + 32).

(** A byte of a name in snake case: ASCII, no capital, no space and no
    hyphen. *)
Definition snakeByte (b : Z) : Prop :=
  0 <= b < 128 /\ ~ (65 <= b <= 90) /\ b <> 32 /\ b <> 45.

(** * Properties *)

(** ** The models of the library functions on examples *)

Example Sscanf_ex1 : Fmt.Sscanf_d_d "1,2" = (1, 2). Proof. reflexivity. Qed.
Example Sscanf_ex2 : Fmt.Sscanf_d_d "foo" = (0, 0). Proof. reflexivity. Qed.
Example Sscanf_ex3 : Fmt.Sscanf_d_d " -3, +07xyz" = (-3, 7). Proof. reflexivity. Qed.
Example Sscanf_ex4 : Fmt.Sscanf_d_d "3 ,4" = (3, 0). Proof. reflexivity. Qed.
Example Sscanf_ex5 : Fmt.Sscanf_d_d "9223372036854775808,4" = (0, 0). Proof. reflexivity. Qed.
Example Sprintf_ex1 : Fmt.Sprintf_image 7 = "image_0007.png". Proof. reflexivity. Qed.
Example Sprintf_ex2 : Fmt.Sprintf_image 12345 = "image_12345.png". Proof. reflexivity. Qed.
Example Sprintf_ex3 : Fmt.Sprintf_d_d 10 0 = "10,0". Proof. reflexivity. Qed.
Example targetHeight_ex : targetHeight 4 1800 1200 = 1365. Proof. vm_compute. reflexivity. Qed.

(** ** Arithmetic of [int] within its range *)

Lemma wrap_id (z : Z) : Int.in_range z -> Int.wrap z = z.
Proof.
  unfold Int.in_range, Int.wrap, Int.min_int, Int.max_int. intros Hz.
  rewrite Z.mod_small by lia. lia.
Qed.

Lemma wrap_range (z : Z) : Int.in_range (Int.wrap z).
Proof.
  unfold Int.in_range, Int.wrap, Int.min_int, Int.max_int.
  pose proof (Z.mod_pos_bound (z + 2 ^ 63) (2 ^ 64) ltac:(lia)). lia.
Qed.

Lemma add_id (x y : Z) : Int.in_range (x + y) -> Int.add x y = x + y.
Proof. apply wrap_id. Qed.

Lemma sub_id (x y : Z) : Int.in_range (x - y) -> Int.sub x y = x - y.
Proof. apply wrap_id. Qed.

Lemma mul_id (x y : Z) : Int.in_range (x * y) -> Int.mul x y = x * y.
Proof. apply wrap_id. Qed.

Lemma quo_id (x y : Z) : 0 <= x -> 0 < y -> Int.in_range x -> Int.quo x y = x / y.
Proof.
  intros Hx Hy Hr. unfold Int.quo. rewrite Z.quot_div_nonneg by lia.
  apply wrap_id. unfold Int.in_range, Int.min_int, Int.max_int in *.
  pose proof (Z.div_pos x y Hx Hy).
  assert (x / y <= x) by (apply Z.div_le_upper_bound; nia). lia.
Qed.

Ltac int_range := unfold Int.in_range, Int.min_int, Int.max_int, tileSize in *; lia.

(** ** Grid geometry *)

Lemma Rect_origin (w h : Z) :
  0 <= w -> 0 <= h -> Rect 0 0 w h = MkRectangle (Pt 0 0) (Pt w h).
Proof.
  intros Hw Hh. unfold Rect.
  destruct (Z.gtb_spec 0 w); [lia |]. destruct (Z.gtb_spec 0 h); [lia |].
  reflexivity.
Qed.

Lemma ceil_quo (n : Z) :
  0 < n -> n + tileSize <= Int.max_int ->
  Int.quo (Int.sub (Int.add n tileSize) 1) tileSize = (n + 511) / 512.
Proof.
  intros Hn Hmax.
  rewrite add_id by int_range. rewrite sub_id by int_range.
  rewrite quo_id by int_range. unfold tileSize. f_equal. lia.
Qed.

Lemma gridCols_eq (w h : Z) :
  sliceable w h -> gridCols (Rect 0 0 w h) = (w + 511) / 512.
Proof.
  intros (Hw & Hh & Hwm & Hhm). rewrite Rect_origin by lia.
  unfold gridCols. simpl. by apply ceil_quo.
Qed.

Lemma gridRows_eq (w h : Z) :
  sliceable w h -> gridRows (Rect 0 0 w h) = (h + 511) / 512.
Proof.
  intros (Hw & Hh & Hwm & Hhm). rewrite Rect_origin by lia.
  unfold gridRows. simpl. by apply ceil_quo.
Qed.

(** A cell index below the ceiling quotient starts inside the side. *)
Lemma cell_start (n k : Z) : 0 < n -> 0 <= k < (n + 511) / 512 -> k * 512 < n.
Proof.
  intros Hn [Hk0 Hk].
  pose proof (Z.div_mod (n + 511) 512 ltac:(lia)).
  pose proof (Z.mod_pos_bound (n + 511) 512 ltac:(lia)). nia.
Qed.

Lemma tileRect_eq (w h r c : Z) :
  sliceable w h ->
  0 <= r < gridRows (Rect 0 0 w h) -> 0 <= c < gridCols (Rect 0 0 w h) ->
  tileRect (Rect 0 0 w h) r c =
  MkRectangle (Pt (c * 512) (r * 512))
              (Pt (Z.min (c * 512 + 512) w) (Z.min (r * 512 + 512) h)).
Proof.
  intros Hs Hr Hc. rewrite gridRows_eq in Hr by done.
  rewrite gridCols_eq in Hc by done.
  pose proof Hs as (Hw & Hh & Hwm & Hhm).
  pose proof (cell_start w c Hw Hc). pose proof (cell_start h r Hh Hr).
  rewrite Rect_origin by lia. unfold tileRect. simpl.
  rewrite !mul_id by int_range. rewrite !add_id by int_range.
  unfold tileSize, Rect.
  repeat match goal with
         | |- context [?a >? ?b] => destruct (Z.gtb_spec a b)
         end; try lia; f_equal; f_equal; lia.
Qed.

(** The points of a tile are the points of the image whose quotients by the
    tile size are the cell. *)
Lemma tileRect_In (w h r c x y : Z) :
  sliceable w h ->
  0 <= r < gridRows (Rect 0 0 w h) -> 0 <= c < gridCols (Rect 0 0 w h) ->
  PtIn x y (tileRect (Rect 0 0 w h) r c) = true <->
  (0 <= x < w /\ 0 <= y < h /\ x / 512 = c /\ y / 512 = r).
Proof.
  intros Hs Hr Hc. rewrite tileRect_eq by done.
  unfold PtIn. simpl. rewrite !andb_true_iff, !Z.leb_le, !Z.ltb_lt.
  pose proof (Z.div_mod x 512 ltac:(lia)).
  pose proof (Z.mod_pos_bound x 512 ltac:(lia)).
  pose proof (Z.div_mod y 512 ltac:(lia)).
  pose proof (Z.mod_pos_bound y 512 ltac:(lia)).
  split.
  - intros [[[Hx0 Hx1] Hy0] Hy1]. repeat split; try lia.
  - intros (Hx & Hy & <- & <-). lia.
Qed.

(** ** The cells of the slicing loop *)

Lemma lookup_bind_uniform {T U : Type} (f : T -> list U) (l : list T) (n : nat) :
  (forall a, a ∈ l -> length (f a) = n) ->
  forall (i j : nat) a, l !! i = Some a -> (j < n)%nat ->
    (l ≫= f) !! (i * n + j)%nat = f a !! j.
Proof.
  induction l as [| a0 l IH]; intros Hlen i j a Hi Hj; [done |].
  rewrite bind_cons. destruct i as [| i]; simpl in *.
  - injection Hi as ->. rewrite lookup_app_l; [done |].
    rewrite Hlen by apply list_elem_of_here. done.
  - rewrite lookup_app_r; rewrite Hlen by apply list_elem_of_here; [| lia].
    replace (n + i * n + j - n)%nat with (i * n + j)%nat by lia.
    apply IH; [| done | done]. intros b Hb. apply Hlen. by apply list_elem_of_further.
Qed.

Lemma length_bind_uniform {T U : Type} (f : T -> list U) (l : list T) (n : nat) :
  (forall a, a ∈ l -> length (f a) = n) -> length (l ≫= f) = (length l * n)%nat.
Proof.
  induction l as [| a0 l IH]; intros Hlen; [done |].
  rewrite bind_cons, length_app, Hlen by apply list_elem_of_here.
  rewrite IH; [simpl; lia |]. intros b Hb. apply Hlen. by apply list_elem_of_further.
Qed.

Section Cells.
Variable bounds : Rectangle.
Let rows := gridRows bounds.
Let cols := gridCols bounds.

Lemma row_cells_length (r : Z) :
  length (c ← seqZ 0 cols; [(r, c)]) = Z.to_nat cols.
Proof.
  rewrite (length_bind_uniform _ _ 1%nat) by done. rewrite length_seqZ. lia.
Qed.

Lemma row_cells_lookup (r c : Z) :
  0 <= c < cols -> (c' ← seqZ 0 cols; [(r, c')]) !! Z.to_nat c = Some (r, c).
Proof.
  intros Hc.
  pose proof (lookup_bind_uniform (fun c' => [(r, c')]) (seqZ 0 cols) 1%nat
                ltac:(done) (Z.to_nat c) 0%nat c) as H.
  rewrite Nat.mul_1_r, Nat.add_0_r in H. rewrite H; [done | | lia].
  apply lookup_seqZ. lia.
Qed.

Lemma gridCells_length :
  length (gridCells bounds) = (Z.to_nat rows * Z.to_nat cols)%nat.
Proof.
  unfold gridCells. fold rows cols.
  rewrite (length_bind_uniform _ _ (Z.to_nat cols)).
  - by rewrite length_seqZ.
  - intros r _. apply row_cells_length.
Qed.

(** Cell [(r, c)] is visited at step [r * cols + c]. *)
Lemma gridCells_lookup (r c : Z) :
  0 <= r < rows -> 0 <= c < cols ->
  gridCells bounds !! Z.to_nat (r * cols + c) = Some (r, c).
Proof.
  intros Hr Hc. unfold gridCells. fold rows cols.
  replace (Z.to_nat (r * cols + c))
    with (Z.to_nat r * Z.to_nat cols + Z.to_nat c)%nat by nia.
  rewrite (lookup_bind_uniform _ _ (Z.to_nat cols) (fun r _ => row_cells_length r)
             _ _ r).
  - by apply row_cells_lookup.
  - apply lookup_seqZ. lia.
  - lia.
Qed.

Lemma gridCells_elem (r c : Z) :
  (r, c) ∈ gridCells bounds <-> 0 <= r < rows /\ 0 <= c < cols.
Proof.
  unfold gridCells. fold rows cols. rewrite list_elem_of_bind. split.
  - intros (r' & Hin & Hr'). apply list_elem_of_bind in Hin as (c' & Hin & Hc').
    apply list_elem_of_singleton in Hin. injection Hin as -> ->.
    apply elem_of_seqZ in Hr', Hc'. lia.
  - intros [Hr Hc]. exists r. split; [| apply elem_of_seqZ; lia].
    apply list_elem_of_bind. exists c. split; [apply list_elem_of_singleton; done |].
    apply elem_of_seqZ. lia.
Qed.

(** The step at which a cell is visited determines the cell. *)
Lemma gridCells_index (i : nat) (r c : Z) :
  gridCells bounds !! i = Some (r, c) ->
  0 <= r < rows /\ 0 <= c < cols /\ Z.of_nat i = r * cols + c.
Proof.
  intros Hi. pose proof (lookup_lt_Some _ _ _ Hi) as Hlt.
  rewrite gridCells_length in Hlt.
  assert (0 < cols) as Hcols by (destruct (Z.le_gt_cases cols 0); [nia | lia]).
  assert (0 < rows) as Hrows by (destruct (Z.le_gt_cases rows 0); [nia | lia]).
  assert (Z.of_nat i < rows * cols) as Hlt' by nia.
  pose proof (Z.div_mod (Z.of_nat i) cols ltac:(lia)) as Hdm.
  pose proof (Z.mod_pos_bound (Z.of_nat i) cols Hcols) as Hmod.
  assert (0 <= Z.of_nat i / cols < rows) as Hq.
  { split; [apply Z.div_pos; lia |]. apply Z.div_lt_upper_bound; nia. }
  pose proof (gridCells_lookup _ _ Hq Hmod) as Hl.
  replace (Z.to_nat (Z.of_nat i / cols * cols + Z.of_nat i mod cols)) with i in Hl by lia.
  rewrite Hi in Hl. injection Hl as -> ->. lia.
Qed.

End Cells.

Lemma tileRects_lookup (bounds : Rectangle) (i : nat) (t : Rectangle) :
  tileRects bounds !! i = Some t ->
  exists r c, 0 <= r < gridRows bounds /\ 0 <= c < gridCols bounds /\
              Z.of_nat i = r * gridCols bounds + c /\ t = tileRect bounds r c.
Proof.
  unfold tileRects. rewrite list_lookup_fmap. intros Ht.
  destruct (gridCells bounds !! i) as [[r c] |] eqn:Hi; [| done].
  injection Ht as <-. apply gridCells_index in Hi as (Hr & Hc & Hic).
  by exists r, c.
Qed.

Lemma tileRects_elem (bounds : Rectangle) (t : Rectangle) :
  t ∈ tileRects bounds <->
  exists r c, 0 <= r < gridRows bounds /\ 0 <= c < gridCols bounds /\
              t = tileRect bounds r c.
Proof.
  unfold tileRects. rewrite list_elem_of_fmap. split.
  - intros ([r c] & -> & Hin). apply gridCells_elem in Hin as [Hr Hc].
    exists r, c. simpl. auto.
  - intros (r & c & Hr & Hc & ->). exists (r, c). split; [done |].
    by apply gridCells_elem.
Qed.

(** C6. The rectangles the Slicer cuts from a resized image of positive
    width and height are [rows * cols] in number, none of them is empty,
    no point lies in two of them, and a point lies in one of them exactly
    when it lies in the image. *)
Theorem tiles_partition_canvas (w h : Z) :
  sliceable w h ->
  let b := Rect 0 0 w h in
  Z.of_nat (length (tileRects b)) = gridRows b * gridCols b /\
  (forall t, t ∈ tileRects b -> Empty t = false) /\
  (forall (i j : nat) ti tj x y,
     tileRects b !! i = Some ti -> tileRects b !! j = Some tj -> i <> j ->
     PtIn x y ti = true -> PtIn x y tj = false) /\
  (forall x y,
     PtIn x y b = true <-> exists t, t ∈ tileRects b /\ PtIn x y t = true).
Proof.
  intros Hs b. pose proof Hs as (Hw & Hh & Hwm & Hhm).
  assert (0 < gridRows b /\ 0 < gridCols b) as [Hrows Hcols].
  { subst b. rewrite gridRows_eq, gridCols_eq by done.
    split; apply Z.div_str_pos; lia. }
  split; [| split; [| split]].
  - unfold tileRects. rewrite length_fmap, gridCells_length. nia.
  - intros t (r & c & Hr & Hc & ->)%tileRects_elem.
    subst b. rewrite tileRect_eq by done.
    rewrite gridRows_eq in Hr by done. rewrite gridCols_eq in Hc by done.
    pose proof (cell_start w c Hw Hc). pose proof (cell_start h r Hh Hr).
    unfold Empty. simpl. apply orb_false_iff. split; rewrite Z.geb_leb; apply Z.leb_gt; lia.
  - intros i j ti tj x y Hi Hj Hij Hin.
    apply tileRects_lookup in Hi as (r & c & Hr & Hc & Hi & ->).
    apply tileRects_lookup in Hj as (r' & c' & Hr' & Hc' & Hj & ->).
    subst b. apply (tileRect_In w h r c x y Hs Hr Hc) in Hin as (_ & _ & Hx & Hy).
    destruct (PtIn x y (tileRect (Rect 0 0 w h) r' c')) eqn:Hin'; [| done].
    apply (tileRect_In w h r' c' x y Hs Hr' Hc') in Hin' as (_ & _ & Hx' & Hy').
    exfalso. apply Hij. apply Nat2Z.inj. rewrite Hi, Hj. congruence.
  - intros x y. split.
    + intros Hin. subst b. rewrite Rect_origin in Hin by lia.
      unfold PtIn in Hin. simpl in Hin.
      rewrite !andb_true_iff, !Z.leb_le, !Z.ltb_lt in Hin.
      assert (0 <= y / 512 < gridRows (Rect 0 0 w h)) as Hr.
      { rewrite gridRows_eq by done. split; [apply Z.div_pos; lia |].
        apply Z.div_lt_upper_bound; [lia |].
        pose proof (Z.div_mod (h + 511) 512 ltac:(lia)).
        pose proof (Z.mod_pos_bound (h + 511) 512 ltac:(lia)). lia. }
      assert (0 <= x / 512 < gridCols (Rect 0 0 w h)) as Hc.
      { rewrite gridCols_eq by done. split; [apply Z.div_pos; lia |].
        apply Z.div_lt_upper_bound; [lia |].
        pose proof (Z.div_mod (w + 511) 512 ltac:(lia)).
        pose proof (Z.mod_pos_bound (w + 511) 512 ltac:(lia)). lia. }
      exists (tileRect (Rect 0 0 w h) (y / 512) (x / 512)). split.
      * apply tileRects_elem. by exists (y / 512), (x / 512).
      * apply tileRect_In; [done | done | done |]. lia.
    + intros (t & (r & c & Hr & Hc & ->)%tileRects_elem & Hin).
      subst b. apply (tileRect_In w h r c x y Hs Hr Hc) in Hin as (Hx & Hy & _).
      rewrite Rect_origin by lia. unfold PtIn. simpl.
      rewrite !andb_true_iff, !Z.leb_le, !Z.ltb_lt. lia.
Qed.

Lemma tiles_partition_canvas_witness :
  sliceable 2048 1365 /\
  Z.of_nat (length (tileRects (Rect 0 0 2048 1365))) = 12.
Proof.
  assert (sliceable 2048 1365) as Hs by (unfold sliceable, tileSize, Int.max_int; lia).
  split; [exact Hs |].
  destruct (tiles_partition_canvas 2048 1365 Hs) as [Hlen _].
  rewrite Hlen. reflexivity.
Defined.

(** The side of a clipped cell: what is left of the image in the last cell,
    a full tile before it. *)
Lemma last_cell_side (n : Z) :
  0 < n ->
  Z.min (((n + 511) / 512 - 1) * 512 + 512) n - ((n + 511) / 512 - 1) * 512
  = if n mod 512 =? 0 then 512 else n mod 512.
Proof.
  intros Hn.
  pose proof (Z.div_mod n 512 ltac:(lia)).
  pose proof (Z.mod_pos_bound n 512 ltac:(lia)).
  destruct (Z.eqb_spec (n mod 512) 0) as [Hz | Hz].
  - assert ((n + 511) / 512 = n / 512) as ->.
    { symmetry. apply (Z.div_unique _ _ _ 511); lia. }
    lia.
  - assert ((n + 511) / 512 = n / 512 + 1) as ->.
    { symmetry. apply (Z.div_unique _ _ _ (n mod 512 - 1)); lia. }
    lia.
Qed.

(** C7. In a resized image of positive width and height every tile is
    between one and [tileSize] pixels high and wide; a tile of the last row
    is [height mod tileSize] high, or [tileSize] when that is zero, and a
    tile of the last column is as wide as the width leaves in the same way. *)
Theorem tile_sides (w h r c : Z) :
  sliceable w h ->
  let b := Rect 0 0 w h in
  0 <= r < gridRows b -> 0 <= c < gridCols b ->
  0 < Dy (tileRect b r c) <= tileSize /\
  0 < Dx (tileRect b r c) <= tileSize /\
  (r = gridRows b - 1 ->
   Dy (tileRect b r c) = if h mod tileSize =? 0 then tileSize else h mod tileSize) /\
  (c = gridCols b - 1 ->
   Dx (tileRect b r c) = if w mod tileSize =? 0 then tileSize else w mod tileSize).
Proof.
  intros Hs b Hr Hc. subst b. rewrite tileRect_eq by done.
  pose proof Hs as (Hw & Hh & Hwm & Hhm).
  rewrite gridRows_eq in * by done. rewrite gridCols_eq in * by done.
  pose proof (cell_start w c Hw Hc). pose proof (cell_start h r Hh Hr).
  unfold Dx, Dy. simpl. rewrite !sub_id by int_range. unfold tileSize.
  split; [lia |]. split; [lia |]. split.
  - intros ->. by apply last_cell_side.
  - intros ->. by apply last_cell_side.
Qed.

Lemma tile_sides_witness :
  Dy (tileRect (Rect 0 0 2048 1365) 2 0) = 341 /\
  Dx (tileRect (Rect 0 0 2048 1365) 2 3) = 512.
Proof.
  assert (sliceable 2048 1365) as Hs by (unfold sliceable, tileSize, Int.max_int; lia).
  assert (gridRows (Rect 0 0 2048 1365) = 3) as Hrows by (vm_compute; reflexivity).
  assert (gridCols (Rect 0 0 2048 1365) = 4) as Hcols by (vm_compute; reflexivity).
  assert (0 <= 2 < gridRows (Rect 0 0 2048 1365)) as Hr by (rewrite Hrows; lia).
  assert (0 <= 0 < gridCols (Rect 0 0 2048 1365)) as Hc0 by (rewrite Hcols; lia).
  assert (0 <= 3 < gridCols (Rect 0 0 2048 1365)) as Hc3 by (rewrite Hcols; lia).
  pose proof (tile_sides 2048 1365 2 0 Hs Hr Hc0) as (_ & _ & Hy & _).
  pose proof (tile_sides 2048 1365 2 3 Hs Hr Hc3) as (_ & _ & _ & Hx).
  rewrite Hrows in Hy. rewrite Hcols in Hx.
  split; [exact (Hy eq_refl) | exact (Hx eq_refl)].
Defined.

(** ** The target size *)

Lemma trunc_floor (m : positive) (e : Z) :
  e < 0 ->
  Float64.trunc false m e * 2 ^ (- e) <= Z.pos m
  < (Float64.trunc false m e + 1) * 2 ^ (- e).
Proof.
  intros He. unfold Float64.trunc.
  destruct (Z.leb_spec 0 e) as [|_]; [lia |].
  assert (0 < 2 ^ (- e)) as Hp by (apply Z.pow_pos_nonneg; lia).
  pose proof (Z.div_mod (Z.pos m) (2 ^ (- e)) ltac:(lia)).
  pose proof (Z.mod_pos_bound (Z.pos m) (2 ^ (- e)) Hp). nia.
Qed.

(** The example of the specification with a 3 by 1 source instead: the
    quotient 512/3 is 170.67, the code keeps 170. *)
Example targetHeight_3_1 : targetHeight 1 3 1 = 170.
Proof. vm_compute. reflexivity. Qed.

(** The float quotient can fall just below an exact integer quotient:
    1536 * 59 / 3 is 30208, the code gives 30207. *)
Example targetHeight_below_exact :
  targetHeight 3 3 59 = 30207 /\ tileSize * 3 * 59 = 30208 * 3.
Proof. split; vm_compute; reflexivity. Qed.

(** C3, counterexample. A 3 by 1 source with one column: the quotient
    512/3 rounds to 171, and the Slicer computes 170, which is more than
    half a pixel away from the quotient. *)
Lemma target_height_not_rounded :
  targetHeight 1 3 1 = 170 /\
  roundedHeight 1 3 1 = 171 /\
  targetHeight 1 3 1 <> roundedHeight 1 3 1 /\
  ~ (2 * Z.abs (targetHeight 1 3 1 * 3 - tileSize * 1 * 1) <= 3).
Proof.
  assert (targetHeight 1 3 1 = 170) as H by (vm_compute; reflexivity).
  rewrite H. repeat split; try (vm_compute; congruence).
Qed.

(** C3, amended. The target width is [tileSize * columns]. The target
    height is the float64 quotient [float64(targetWidth) /
    (float64(sourceWidth) / float64(sourceHeight))] with its fraction
    dropped, not rounded: when the quotient is the positive finite number
    [m * 2^e] within the range of [int], the height is the largest integer
    not above it. An 1800 by 1200 source with 4 columns resizes to
    2048 by 1365, which gives 4 columns, 3 rows and a bottom row 341 high. *)
Theorem target_size_truncated (columns w h : Z) (m : positive) (e : Z) :
  0 < columns -> tileSize * columns <= Int.max_int ->
  Float64.div (Float64.of_int (targetWidth columns))
    (Float64.div (Float64.of_int w) (Float64.of_int h)) = S754_finite false m e ->
  Float64.trunc false m e <= Int.max_int ->
  (targetWidth columns = tileSize * columns /\
   0 <= targetHeight columns w h /\
   (0 <= e -> targetHeight columns w h = Z.pos m * 2 ^ e) /\
   (e < 0 -> targetHeight columns w h * 2 ^ (- e) <= Z.pos m
             < (targetHeight columns w h + 1) * 2 ^ (- e))) /\
  (targetWidth 4 = 2048 /\ targetHeight 4 1800 1200 = 1365 /\
   gridCols (Rect 0 0 2048 1365) = 4 /\ gridRows (Rect 0 0 2048 1365) = 3 /\
   forall c, 0 <= c < 4 -> Dy (tileRect (Rect 0 0 2048 1365) 2 c) = 341).
Proof.
  intros Hc Hmax Hq Hr. split.
  - assert (0 <= Float64.trunc false m e) as Hpos.
    { unfold Float64.trunc. destruct (Z.leb_spec 0 e).
      - apply Z.mul_nonneg_nonneg; [lia | apply Z.pow_nonneg; lia].
      - apply Z.div_pos; [lia | apply Z.pow_pos_nonneg; lia]. }
    assert (targetHeight columns w h = Float64.trunc false m e) as ->.
    { unfold targetHeight. rewrite Hq. unfold Float64.to_int.
      destruct (Z.leb_spec Int.min_int (Float64.trunc false m e)) as [_ | Hlt];
        [| unfold Int.min_int in Hlt; lia].
      destruct (Z.leb_spec (Float64.trunc false m e) Int.max_int); [done | lia]. }
    split; [apply mul_id; int_range |]. split; [done |]. split.
    + intros He. unfold Float64.trunc. destruct (Z.leb_spec 0 e); [done | lia].
    + apply trunc_floor.
  - assert (sliceable 2048 1365) as Hs by (unfold sliceable; int_range).
    split; [vm_compute; reflexivity |]. split; [vm_compute; reflexivity |].
    split; [vm_compute; reflexivity |]. split; [vm_compute; reflexivity |].
    intros c Hc4.
    assert (c = 0 \/ c = 1 \/ c = 2 \/ c = 3) as [-> | [-> | [-> | ->]]] by lia;
      vm_compute; reflexivity.
Qed.

Lemma target_size_truncated_witness :
  targetWidth 4 = tileSize * 4 /\ targetHeight 4 1800 1200 = 1365.
Proof.
  destruct (target_size_truncated 4 1800 1200 6004799503160661%positive (-42))
    as [(Hw & _ & _ & _) (_ & Hh & _)].
  - lia.
  - unfold tileSize, Int.max_int. lia.
  - vm_compute. reflexivity.
  - vm_compute. discriminate.
  - split; [exact Hw | exact Hh].
Defined.

(** ** Printing and scanning decimal numbers *)

Lemma byte_of_digit (d : Z) :
  0 <= d <= 9 -> Strconv.byte_of (Strconv.digit d) = 48 + d.
Proof.
  intros Hd. unfold Strconv.byte_of, Strconv.digit.
  rewrite N_ascii_embedding; lia.
Qed.

Lemma is_digit_digit (d : Z) :
  0 <= d <= 9 -> Strconv.is_digit (Strconv.byte_of (Strconv.digit d)) = true.
Proof.
  intros Hd. rewrite byte_of_digit by done. unfold Strconv.is_digit.
  apply andb_true_iff. split; apply Z.leb_le; lia.
Qed.

Lemma parseDigits_app (a : Z) (l1 l2 : list Z) :
  Strconv.parseDigits a (l1 ++ l2) =
  match Strconv.parseDigits a l1 with
  | Some v => Strconv.parseDigits v l2
  | None => None
  end.
Proof.
  revert a. induction l1 as [| b l1 IH]; intros a; simpl; [done |].
  destruct (Strconv.is_digit b); [apply IH | done].
Qed.

Lemma digitsOf_one (u : Z) : 0 <= u < 10 -> digitsOf u [Strconv.digit u].
Proof.
  intros Hu. split; [done |]. split.
  - constructor; [| constructor]. apply is_digit_digit. lia.
  - intros a. simpl. rewrite is_digit_digit, byte_of_digit by lia.
    f_equal. replace (Z.pow_pos 10 1) with 10 by reflexivity. lia.
Qed.

Lemma formatBits_spec (fuel : nat) :
  forall u acc, 0 <= u < 10 ^ Z.of_nat (S fuel) ->
    exists ds, Strconv.formatBits (S fuel) u acc = ds ++ acc /\ digitsOf u ds.
Proof.
  induction fuel as [| fuel IH]; intros u acc Hu.
  - exists [Strconv.digit u]. simpl. change (10 ^ 1) with 10 in Hu.
    destruct (Z.ltb_spec u 10); [| lia]. split; [done |]. by apply digitsOf_one.
  - cbn [Strconv.formatBits]. destruct (Z.ltb_spec u 10) as [Hlt | Hge].
    + exists [Strconv.digit u]. split; [done |]. apply digitsOf_one. lia.
    + assert (0 <= u / 10 < 10 ^ Z.of_nat (S fuel)) as Hq.
      { split; [apply Z.div_pos; lia |]. apply Z.div_lt_upper_bound; [lia |].
        rewrite (Nat2Z.inj_succ (S fuel)), Z.pow_succ_r in Hu by lia. lia. }
      destruct (IH (u / 10) (Strconv.digit (u mod 10) :: acc) Hq)
        as (ds & Heq & Hne & Hall & Hparse).
      pose proof (Z.mod_pos_bound u 10 ltac:(lia)) as Hmod.
      exists (ds ++ [Strconv.digit (u mod 10)]). split.
      { rewrite <- app_assoc. exact Heq. }
      split; [by destruct ds |]. split.
      { apply Forall_app. split; [done |]. constructor; [| constructor].
        apply is_digit_digit. lia. }
      intros a. rewrite fmap_app, parseDigits_app, Hparse. simpl.
      rewrite is_digit_digit, byte_of_digit by lia. f_equal.
      rewrite length_app. simpl.
      replace (Z.of_nat (length ds + 1)) with (Z.succ (Z.of_nat (length ds))) by lia.
      rewrite Z.pow_succ_r by lia.
      pose proof (Z.div_mod u 10 ltac:(lia)). lia.
Qed.

Lemma digits_spec (u : Z) : 0 <= u <= Int.max_int -> digitsOf u (Strconv.digits u).
Proof.
  intros Hu. unfold Strconv.digits.
  destruct (formatBits_spec 19 u []) as (ds & Heq & Hds).
  { unfold Int.max_int in Hu. split; [lia |].
    change (10 ^ Z.of_nat 20) with 100000000000000000000. lia. }
  rewrite Heq, app_nil_r. exact Hds.
Qed.

Lemma Itoa_nonneg (n : Z) : 0 <= n -> Strconv.Itoa n = Strconv.digits n.
Proof. intros Hn. unfold Strconv.Itoa. destruct (Z.ltb_spec n 0); [lia | done]. Qed.

(** Bytes below 128 decode to themselves. *)
Lemma decode_ascii (l : list Z) :
  Forall (fun b => b < 128) l -> Utf8.decode l = l.
Proof.
  induction 1 as [| b l Hb _ IH]; [done |]. simpl.
  destruct (Z.ltb_spec b 128); [by rewrite IH | lia].
Qed.

Lemma bytes_of_list (l : list ascii) :
  Strconv.bytes (string_of_list_ascii l) = Strconv.byte_of <$> l.
Proof. unfold Strconv.bytes. by rewrite list_ascii_of_string_of_list_ascii. Qed.

Lemma is_digit_range (b : Z) : Strconv.is_digit b = true <-> 48 <= b <= 57.
Proof. unfold Strconv.is_digit. rewrite andb_true_iff, !Z.leb_le. done. Qed.

Lemma acceptDigits_run (ds rest : list Z) :
  Forall (fun b => Strconv.is_digit b = true) ds ->
  match rest with [] => True | b :: _ => Strconv.is_digit b = false end ->
  Fmt.acceptDigits (ds ++ rest) = (ds, rest).
Proof.
  intros Hds Hrest. induction Hds as [| b ds Hb _ IH]; cbn [Fmt.acceptDigits app].
  - destruct rest as [| b rest]; [done |].
    cbn [Fmt.acceptDigits]. by rewrite Hrest.
  - by rewrite Hb, IH.
Qed.

Lemma SkipSpace_digit (b : Z) (s : list Z) :
  Strconv.is_digit b = true -> Fmt.SkipSpace (b :: s) = Some (b :: s).
Proof.
  intros Hb%is_digit_range. simpl.
  destruct (Z.eqb_spec b 10); [lia |].
  assert (Fmt.isSpace b = false) as ->; [| done].
  unfold Fmt.isSpace.
  repeat match goal with
         | |- context [?x <=? ?y] => destruct (Z.leb_spec x y); try lia
         | |- context [?x =? ?y] => destruct (Z.eqb_spec x y); try lia
         end; reflexivity.
Qed.

(** Scanning the digits of a number in the range of [int] gives the number
    back and stops at the first byte that is no digit. *)
Lemma scanInt_digits (n : Z) (rest : list Z) :
  0 <= n <= Int.max_int ->
  match rest with [] => True | b :: _ => Strconv.is_digit b = false end ->
  Fmt.scanInt ((Strconv.byte_of <$> Strconv.digits n) ++ rest) = Some (n, rest).
Proof.
  intros Hn Hrest. destruct (digits_spec n Hn) as (Hne & Hall & Hparse).
  assert (Forall (fun b => Strconv.is_digit b = true)
            (Strconv.byte_of <$> Strconv.digits n)) as Hall'.
  { apply Forall_fmap. exact Hall. }
  destruct (Strconv.byte_of <$> Strconv.digits n) as [| b ds] eqn:Hds.
  { by destruct (Strconv.digits n). }
  unfold Fmt.scanInt. simpl app.
  pose proof (Forall_inv Hall') as Hb.
  rewrite SkipSpace_digit by done.
  pose proof Hb as Hb'%is_digit_range.
  destruct (Z.eqb_spec b 43); [lia |]. destruct (Z.eqb_spec b 45); [lia |].
  cbn [orb]. change (b :: ds ++ rest) with ((b :: ds) ++ rest).
  rewrite (acceptDigits_run (b :: ds) rest Hall' Hrest).
  cbn [app]. unfold Strconv.ParseInt.
  assert ((match b :: ds with
           | 43 :: t => (false, t) | 45 :: t => (true, t) | _ => (false, b :: ds)
           end) = (false, b :: ds)) as ->.
  { destruct b as [| p | p]; try lia.
    do 7 (destruct p as [p | p |]; try lia; try reflexivity). }
  rewrite Hparse.
  replace (0 * 10 ^ Z.of_nat (length (Strconv.digits n)) + n) with n by lia.
  destruct (Z.leb_spec Int.min_int n) as [_ | Hlt]; [| unfold Int.min_int in Hlt; lia].
  destruct (Z.leb_spec n Int.max_int); [done | lia].
Qed.

Lemma digits_bytes_ascii (n : Z) :
  0 <= n <= Int.max_int ->
  Forall (fun b => b < 128) (Strconv.byte_of <$> Strconv.digits n).
Proof.
  intros Hn. destruct (digits_spec n Hn) as (_ & Hall & _).
  apply Forall_fmap. eapply Forall_impl; [exact Hall |].
  intros d Hd%is_digit_range. simpl. lia.
Qed.

(** A key the Slicer prints is scanned back to its cell. *)
Lemma Sscanf_Sprintf (r c : Z) :
  0 <= r <= Int.max_int -> 0 <= c <= Int.max_int ->
  Fmt.Sscanf_d_d (Fmt.Sprintf_d_d r c) = (r, c).
Proof.
  intros Hr Hc. unfold Fmt.Sscanf_d_d, Fmt.Sprintf_d_d, Fmt.runes.
  rewrite bytes_of_list, !Itoa_nonneg by lia.
  rewrite fmap_app, fmap_cons.
  change (Strconv.byte_of ","%char) with 44.
  rewrite decode_ascii.
  2:{ apply Forall_app. split; [by apply digits_bytes_ascii |].
      constructor; [lia | by apply digits_bytes_ascii]. }
  rewrite scanInt_digits by done.
  rewrite <- (app_nil_r (Strconv.byte_of <$> Strconv.digits c)).
  by rewrite scanInt_digits.
Qed.

Lemma Sprintf_d_d_inj (r c r' c' : Z) :
  0 <= r <= Int.max_int -> 0 <= c <= Int.max_int ->
  0 <= r' <= Int.max_int -> 0 <= c' <= Int.max_int ->
  Fmt.Sprintf_d_d r c = Fmt.Sprintf_d_d r' c' -> r = r' /\ c = c'.
Proof.
  intros Hr Hc Hr' Hc' Heq.
  pose proof (Sscanf_Sprintf r c Hr Hc) as H1.
  rewrite Heq, Sscanf_Sprintf in H1 by done. by injection H1.
Qed.

Lemma parseDigits_zeros (k : nat) (l : list Z) :
  Strconv.parseDigits 0 ((Strconv.byte_of <$> repeat "0"%char k) ++ l)
  = Strconv.parseDigits 0 l.
Proof. induction k as [| k IH]; [done |]. simpl. exact IH. Qed.

Lemma pad04_value (n : Z) :
  0 <= n <= Int.max_int ->
  Strconv.parseDigits 0 (Strconv.byte_of <$> Fmt.pad04 n) = Some n.
Proof.
  intros Hn. unfold Fmt.pad04. destruct (Z.ltb_spec n 0); [lia |].
  rewrite fmap_app, parseDigits_zeros, Z.abs_eq by lia.
  destruct (digits_spec n Hn) as (_ & _ & Hparse). rewrite Hparse. f_equal; lia.
Qed.

Lemma string_of_list_ascii_inj (l1 l2 : list ascii) :
  string_of_list_ascii l1 = string_of_list_ascii l2 -> l1 = l2.
Proof.
  intros H. apply (f_equal list_ascii_of_string) in H.
  by rewrite !list_ascii_of_string_of_list_ascii in H.
Qed.

Lemma Sprintf_image_inj (n m : Z) :
  0 <= n <= Int.max_int -> 0 <= m <= Int.max_int ->
  Fmt.Sprintf_image n = Fmt.Sprintf_image m -> n = m.
Proof.
  intros Hn Hm Heq. unfold Fmt.Sprintf_image in Heq.
  apply string_of_list_ascii_inj, app_inv_head, app_inv_tail in Heq.
  pose proof (pad04_value n Hn) as H1. rewrite Heq, pad04_value in H1 by done.
  by injection H1.
Qed.

(** ** The slicing loop *)

Lemma forEach_app {T S E : Type} (body : T -> S -> S + E) (l1 l2 : list T) (s : S) :
  forEach body (l1 ++ l2) s =
  match forEach body l1 s with
  | inl s' => forEach body l2 s'
  | inr e => inr e
  end.
Proof.
  revert s. induction l1 as [| t l1 IH]; intros s; simpl; [done |].
  destruct (body t s); [apply IH | done].
Qed.

Lemma forEach_nested {T U S E : Type} (body : T -> U -> S -> S + E)
    (ts : list T) (us : list U) (s : S) :
  forEach (fun t s => forEach (body t) us s) ts s =
  forEach (fun tu s => body tu.1 tu.2 s) (t ← ts; u ← us; [(t, u)]) s.
Proof.
  revert s. induction ts as [| t ts IH]; intros s; [done |].
  rewrite bind_cons, forEach_app. cbn [forEach].
  assert (forall s, forEach (body t) us s =
                    forEach (fun tu s => body tu.1 tu.2 s) (u ← us; [(t, u)]) s) as Hin.
  { clear. induction us as [| u us IHu]; intros s; [done |].
    rewrite bind_cons. simpl. destruct (body t u s); [apply IHu | done]. }
  rewrite Hin. destruct (forEach _ (u ← us; [(t, u)]) s); [apply IH | done].
Qed.

Lemma sliceLoop_cells (env : Env) (img : Image) (st : Slicing) :
  sliceLoop env img st = sliceCells env img (gridCells (Bounds img)) st.
Proof. unfold sliceLoop, sliceCells, gridCells. apply forEach_nested. Qed.

Lemma sliceCell_inl (env : Env) (img : Image) (r c : Z) (st st' : Slicing) :
  sliceCell env img r c st = inl st' ->
  pieces st' = pieces st ++ [Fmt.Sprintf_image (Z.of_nat (length (pieces st)))] /\
  solution st' =
    <[Fmt.Sprintf_d_d r c := Fmt.Sprintf_image (Z.of_nat (length (pieces st)))]>
      (solution st).
Proof.
  unfold sliceCell. destruct (tileImage img r c); [| done].
  destruct (negb (CreateOK env _)); [done |]. intros [= <-]. done.
Qed.

(** After a loop over cells with distinct keys, starting with no piece:
    the pieces are the file names numbered in order, and the solution maps
    the key of the cell visited at step [i] to the name numbered [i]. *)
Lemma sliceCells_manifest (env : Env) (img : Image) (d : Disk) (cells : list (Z * Z)) :
  forall st,
  (forall (i j : nat) rc rc', cells !! i = Some rc -> cells !! j = Some rc' ->
     Fmt.Sprintf_d_d rc.1 rc.2 = Fmt.Sprintf_d_d rc'.1 rc'.2 -> i = j) ->
  sliceCells env img cells (emptySlicing d) = inl st ->
  pieces st = (fun i => Fmt.Sprintf_image (Z.of_nat i)) <$> seq 0 (length cells) /\
  forall key f,
    solution st !! key = Some f <->
    exists (i : nat) rc, cells !! i = Some rc /\
      key = Fmt.Sprintf_d_d rc.1 rc.2 /\ f = Fmt.Sprintf_image (Z.of_nat i).
Proof.
  induction cells as [| x cells IH] using rev_ind; intros st Hinj Hrun.
  - injection Hrun as <-. split; [done |]. intros key f. simpl.
    rewrite lookup_empty. split; [done |]. by intros (i & rc & Hi & _).
  - unfold sliceCells in Hrun. rewrite forEach_app in Hrun.
    destruct (forEach _ cells _) as [st1 |] eqn:Hpre; [| done].
    cbn [forEach] in Hrun.
    destruct (sliceCell env img x.1 x.2 st1) as [st2 |] eqn:Hcell; [| done].
    injection Hrun as <-.
    destruct (IH st1) as [Hp Hs]; [| exact Hpre |].
    { intros i j rc rc' Hi Hj. apply Hinj; by apply lookup_app_l_Some. }
    apply sliceCell_inl in Hcell as [Hp2 Hs2].
    assert (length (pieces st1) = length cells) as Hlen
      by (by rewrite Hp, length_fmap, length_seq).
    rewrite Hlen in Hp2, Hs2. split.
    + rewrite Hp2, Hp, length_app. simpl.
      rewrite Nat.add_1_r, seq_S, fmap_app. done.
    + intros key f. rewrite Hs2. split.
      * intros Hl. apply lookup_insert_Some in Hl as [[<- <-] | [Hne Hl]].
        -- exists (length cells), x. split; [| done].
           by rewrite lookup_app_r, Nat.sub_diag by lia.
        -- apply Hs in Hl as (i & rc & Hi & -> & ->). exists i, rc.
           split; [by apply lookup_app_l_Some | done].
      * intros (i & rc & Hi & -> & ->).
        apply lookup_app_Some in Hi as [Hi | [Hge Hi]].
        -- assert (Fmt.Sprintf_d_d x.1 x.2 <> Fmt.Sprintf_d_d rc.1 rc.2) as Hne.
           { intros Heq. pose proof (lookup_lt_Some _ _ _ Hi) as Hlt.
             assert (length cells = i); [| lia].
             apply (Hinj _ _ x rc); [| by apply lookup_app_l_Some | done].
             by rewrite lookup_app_r, Nat.sub_diag by lia. }
           rewrite lookup_insert_ne by done. apply Hs. by exists i, rc.
        -- destruct (i - length cells)%nat as [| k] eqn:Hk; [| by destruct k].
           injection Hi as <-. assert (i = length cells) as -> by lia.
           apply lookup_insert_eq.
Qed.

Lemma gridRows_range (b : Rectangle) : Int.in_range (gridRows b).
Proof. apply wrap_range. Qed.

Lemma gridCols_range (b : Rectangle) : Int.in_range (gridCols b).
Proof. apply wrap_range. Qed.

Lemma gridCells_keys_inj (b : Rectangle) (i j : nat) (rc rc' : Z * Z) :
  gridCells b !! i = Some rc -> gridCells b !! j = Some rc' ->
  Fmt.Sprintf_d_d rc.1 rc.2 = Fmt.Sprintf_d_d rc'.1 rc'.2 -> i = j.
Proof.
  destruct rc as [r c], rc' as [r' c']. simpl.
  intros (Hr & Hc & Hi)%gridCells_index (Hr' & Hc' & Hj)%gridCells_index Heq.
  pose proof (gridRows_range b) as [_ Hrows].
  pose proof (gridCols_range b) as [_ Hcols].
  apply Sprintf_d_d_inj in Heq as [-> ->]; lia.
Qed.

Lemma cell_index_inj (cols r c r' c' : Z) :
  0 <= c < cols -> 0 <= c' < cols -> r * cols + c = r' * cols + c' ->
  r = r' /\ c = c'.
Proof. intros Hc Hc' Heq. assert (r = r') by nia. subst. lia. Qed.

(** C9. After a slicing loop that ran to its end, the solution map sends
    the key of every cell [(row, col)] of the grid to the file name
    [image_%04d.png] numbered [row * cols + col], which is also the piece at
    that position of the pieces list; it has no other key, no file name
    is given to two keys, and its values are exactly the pieces. *)
Theorem manifest_solution_bijection (env : Env) (img : Image) (d : Disk)
    (st : Slicing) :
  let rows := gridRows (Bounds img) in
  let cols := gridCols (Bounds img) in
  rows * cols <= Int.max_int ->
  sliceLoop env img (emptySlicing d) = inl st ->
  (forall r c, 0 <= r < rows -> 0 <= c < cols ->
     solution st !! Fmt.Sprintf_d_d r c = Some (Fmt.Sprintf_image (r * cols + c)) /\
     pieces st !! Z.to_nat (r * cols + c) = Some (Fmt.Sprintf_image (r * cols + c))) /\
  (forall key f, solution st !! key = Some f ->
     exists r c, 0 <= r < rows /\ 0 <= c < cols /\ key = Fmt.Sprintf_d_d r c) /\
  (forall key key' f,
     solution st !! key = Some f -> solution st !! key' = Some f -> key = key') /\
  (forall f, f ∈ pieces st <-> exists key, solution st !! key = Some f).
Proof.
  intros rows cols Hfit Hrun. rewrite sliceLoop_cells in Hrun.
  apply sliceCells_manifest in Hrun as [Hp Hs]; [| apply gridCells_keys_inj].
  assert (forall (i : nat) r c, gridCells (Bounds img) !! i = Some (r, c) ->
            0 <= r < rows /\ 0 <= c < cols /\ Z.of_nat i = r * cols + c /\
            0 <= Z.of_nat i <= Int.max_int) as Hidx.
  { intros i r c (Hr & Hc & Hi)%gridCells_index. fold rows cols in Hr, Hc, Hi.
    repeat split; try lia. nia. }
  split; [| split; [| split]].
  - intros r c Hr Hc. pose proof (gridCells_lookup (Bounds img) r c Hr Hc) as Hl.
    fold cols in Hl. split.
    + apply Hs. exists (Z.to_nat (r * cols + c)), (r, c).
      split; [done |]. split; [done |]. f_equal. nia.
    + rewrite Hp, list_lookup_fmap.
      rewrite lookup_seq_lt by (by apply lookup_lt_Some in Hl).
      simpl. do 2 f_equal. nia.
  - intros key f (i & [r c] & Hi & -> & _)%Hs.
    apply Hidx in Hi as (Hr & Hc & _). by exists r, c.
  - intros key key' f (i & [r c] & Hi & -> & ->)%Hs (j & [r' c'] & Hj & -> & Hf)%Hs.
    pose proof (Hidx _ _ _ Hi) as (_ & _ & _ & Hri).
    pose proof (Hidx _ _ _ Hj) as (_ & _ & _ & Hrj).
    apply Sprintf_image_inj in Hf; [| done | done].
    assert (i = j) as -> by lia. rewrite Hi in Hj. by injection Hj as -> ->.
  - intros f. rewrite Hp, list_elem_of_fmap. split.
    + intros (i & -> & Hi%elem_of_seq).
      destruct (lookup_lt_is_Some_2 (gridCells (Bounds img)) i ltac:(lia)) as [rc Hrc].
      exists (Fmt.Sprintf_d_d rc.1 rc.2). apply Hs. by exists i, rc.
    + intros (key & (i & rc & Hi & -> & ->)%Hs). exists i. split; [done |].
      apply elem_of_seq. apply lookup_lt_Some in Hi. lia.
Qed.

Lemma manifest_solution_bijection_witness :
  exists st,
    sliceLoop sampleEnv sampleImage (emptySlicing ∅) = inl st /\
    solution st !! "1,0" = Some "image_0002.png" /\
    pieces st !! 2%nat = Some "image_0002.png".
Proof.
  assert (succeeded (sliceLoop sampleEnv sampleImage (emptySlicing ∅)) = true)
    as Hok by (vm_compute; reflexivity).
  destruct (sliceLoop sampleEnv sampleImage (emptySlicing ∅)) as [st | e] eqn:Hrun;
    [| discriminate Hok].
  exists st. split; [reflexivity |].
  assert (gridRows (Bounds sampleImage) = 2) as Hrows by (vm_compute; reflexivity).
  assert (gridCols (Bounds sampleImage) = 2) as Hcols by (vm_compute; reflexivity).
  assert (gridRows (Bounds sampleImage) * gridCols (Bounds sampleImage) <= Int.max_int)
    as Hfit by (rewrite Hrows, Hcols; unfold Int.max_int; lia).
  destruct (manifest_solution_bijection sampleEnv sampleImage ∅ st Hfit Hrun)
    as (Hcell & _).
  destruct (Hcell 1 0) as [H1 H2]; [rewrite Hrows; lia | rewrite Hcols; lia |].
  rewrite Hcols in H1, H2. split; [exact H1 | exact H2].
Defined.

(** ** Drawing *)

Lemma PtIn_Empty (r : Rectangle) (x y : Z) : Empty r = true -> PtIn x y r = false.
Proof.
  unfold Empty, PtIn. rewrite orb_true_iff, !Z.geb_leb, !Z.leb_le. intros H.
  apply not_true_is_false. rewrite !andb_true_iff, !Z.leb_le, !Z.ltb_lt. lia.
Qed.

Lemma PtIn_ZR (x y : Z) : PtIn x y ZR = false.
Proof. by apply PtIn_Empty. Qed.

Lemma PtIn_spec (r : Rectangle) (x y : Z) :
  PtIn x y r = true <->
  X (Min r) <= x < X (Max r) /\ Y (Min r) <= y < Y (Max r).
Proof. unfold PtIn. rewrite !andb_true_iff, !Z.leb_le, !Z.ltb_lt. lia. Qed.

Lemma Draw_spec (dst : Image) (r : Rectangle) (src : Image) (sp : Point) (op : Op) :
  Bounds (Draw dst r src sp op) = Bounds dst /\
  forall x y,
    At (Draw dst r src sp op) x y =
    let '(r', sp') := clip (Bounds dst) r (Bounds src) sp in
    if PtIn x y r' then
      let s := At src (X sp' + (x - X (Min r'))) (Y sp' + (y - Y (Min r'))) in
      match op with Src => s | Over => over s (At dst x y) end
    else At dst x y.
Proof.
  unfold Draw. destruct (clip (Bounds dst) r (Bounds src) sp) as [r' sp'].
  destruct (Empty r') eqn:He; [| done].
  split; [done |]. intros x y. by rewrite PtIn_Empty.
Qed.

Lemma paintTile_spec (d : Disk) (dst : Image) (e : string * string) :
  Bounds (paintTile d dst e) = Bounds dst /\
  forall x y, At (paintTile d dst e) x y = paintPixel (Bounds dst) d x y (At dst x y) e.
Proof.
  unfold paintTile, paintPixel, paintRect, paintSource. destruct e as [pos filename].
  cbn [fst snd]. destruct (loadTile d filename) as [img |].
  - destruct (Draw_spec dst (tileTarget pos img) img (Pt 0 0) Over) as [Hb Hat].
    split; [exact Hb |]. intros x y. rewrite Hat.
    destruct (clip (Bounds dst) (tileTarget pos img) (Bounds img) (Pt 0 0)) as [r' sp'].
    reflexivity.
  - split; [reflexivity |]. intros x y. by rewrite PtIn_ZR.
Qed.

Lemma paint_fold_spec (d : Disk) (l : list (string * string)) :
  forall dst,
  Bounds (fold_left (paintTile d) l dst) = Bounds dst /\
  forall x y, At (fold_left (paintTile d) l dst) x y
              = fold_left (paintPixel (Bounds dst) d x y) l (At dst x y).
Proof.
  induction l as [| e l IH]; intros dst; [done |]. simpl.
  destruct (paintTile_spec d dst e) as [Hb Hat].
  destruct (IH (paintTile d dst e)) as [Hb' Hat'].
  split; [congruence |]. intros x y. by rewrite Hat', Hb, Hat.
Qed.

(** Only the entries that cover a point matter at that point. *)
Lemma paintPixel_filter (canvas : Rectangle) (d : Disk) (x y : Z)
    (l : list (string * string)) :
  forall px,
  fold_left (paintPixel canvas d x y) l px =
  fold_left (paintPixel canvas d x y)
    (filter (fun e => PtIn x y (paintRect canvas d e) = true) l) px.
Proof.
  induction l as [| e l IH]; intros px; [done |].
  rewrite filter_cons. simpl. destruct (decide _) as [Hin | Hout].
  - simpl. apply IH.
  - rewrite IH. f_equal. unfold paintPixel.
    by destruct (PtIn x y (paintRect canvas d e)).
Qed.

Lemma short_perm {T : Type} (l l' : list T) :
  l ≡ₚ l' -> (length l <= 1)%nat -> l = l'.
Proof.
  intros Hp Hlen. destruct l as [| a [| b l]]; simpl in Hlen; [| | lia].
  - by apply Permutation_nil_l in Hp.
  - by apply Permutation_singleton_l in Hp.
Qed.

(** Where no point is covered twice, the order of painting is immaterial. *)
Lemma paint_order_irrelevant (canvas : Rectangle) (d : Disk) (x y : Z)
    (l l' : list (string * string)) (px : Color.RGBA) :
  l ≡ₚ l' ->
  (length (filter (fun e => PtIn x y (paintRect canvas d e) = true) l) <= 1)%nat ->
  fold_left (paintPixel canvas d x y) l px
  = fold_left (paintPixel canvas d x y) l' px.
Proof.
  intros Hp Hlen. rewrite (paintPixel_filter _ _ _ _ l), (paintPixel_filter _ _ _ _ l').
  f_equal. apply short_perm; [| done]. by apply filter_Permutation.
Qed.

(** ** The canvas *)

Lemma foldr_max_init (a b : Z) (l : list Z) :
  foldr Z.max (Z.max a b) l = Z.max a (foldr Z.max b l).
Proof. induction l as [| z l IH]; simpl; [done |]. rewrite IH. lia. Qed.

Lemma scanKey_fold (l : list (string * string)) :
  forall maxRow maxCol,
  fold_left scanKey l (maxRow, maxCol) =
  (foldr Z.max maxRow ((fun e => keyRow e.1) <$> l),
   foldr Z.max maxCol ((fun e => keyCol e.1) <$> l)).
Proof.
  induction l as [| e l IH]; intros maxRow maxCol; [done |].
  cbn [fold_left fmap list_fmap foldr]. unfold scanKey at 2.
  unfold keyRow, keyCol. destruct (Fmt.Sscanf_d_d e.1) as [r c]. cbn [fst snd].
  rewrite IH. rewrite <- !foldr_max_init.
  destruct (Z.gtb_spec r maxRow), (Z.gtb_spec c maxCol);
    f_equal; f_equal; lia.
Qed.

Lemma maxOf_perm (l l' : list Z) : l ≡ₚ l' -> maxOf l = maxOf l'.
Proof.
  unfold maxOf. induction 1 as [| z l l' _ IH | a b l | l1 l2 l3 _ IH1 _ IH2];
    simpl; [done | by rewrite IH | lia | congruence].
Qed.

Lemma maxOf_bound (l : list Z) : 0 <= maxOf l /\ forall z, z ∈ l -> z <= maxOf l.
Proof.
  unfold maxOf. induction l as [| a l [IH0 IH]]; simpl.
  - split; [lia |]. intros z Hz. by apply elem_of_nil in Hz.
  - split; [lia |]. intros z [-> | Hz]%elem_of_cons; [lia |]. specialize (IH z Hz). lia.
Qed.

Lemma maxOf_attained (l : list Z) : maxOf l = 0 \/ maxOf l ∈ l.
Proof.
  unfold maxOf. induction l as [| a l IH]; simpl; [by left |].
  destruct (Z.max_spec a (foldr Z.max 0 l)) as [[_ ->] | [_ ->]].
  - destruct IH as [-> | IH]; [by left | right; by apply list_elem_of_further].
  - right. apply list_elem_of_here.
Qed.

Lemma maxRowCol_order (m : gmap string string) (order : list (string * string)) :
  rangeOrder m order -> maxRowCol order = (maxRowOf m, maxColOf m).
Proof.
  intros Hp. unfold maxRowCol. rewrite scanKey_fold.
  unfold maxRowOf, maxColOf. f_equal; apply maxOf_perm; by apply fmap_Permutation.
Qed.

(** The rows and columns of the keys lie below the maxima, which are
    reached by some key unless they are zero. *)
Lemma maxRowOf_bound (m : gmap string string) (pos f : string) :
  m !! pos = Some f -> keyRow pos <= maxRowOf m /\ keyCol pos <= maxColOf m.
Proof.
  intros Hm%elem_of_map_to_list. split.
  - apply (proj2 (maxOf_bound _)). apply list_elem_of_fmap. by exists (pos, f).
  - apply (proj2 (maxOf_bound _)). apply list_elem_of_fmap. by exists (pos, f).
Qed.

Lemma maxRowOf_attained (m : gmap string string) :
  (maxRowOf m = 0 \/ exists pos f, m !! pos = Some f /\ keyRow pos = maxRowOf m) /\
  (maxColOf m = 0 \/ exists pos f, m !! pos = Some f /\ keyCol pos = maxColOf m).
Proof.
  split.
  - destruct (maxOf_attained ((fun e => keyRow e.1) <$> map_to_list m))
      as [H0 | ([pos f] & Heq & Hin%elem_of_map_to_list)%list_elem_of_fmap];
      [by left | right]. by exists pos, f.
  - destruct (maxOf_attained ((fun e => keyCol e.1) <$> map_to_list m))
      as [H0 | ([pos f] & Heq & Hin%elem_of_map_to_list)%list_elem_of_fmap];
      [by left | right]. by exists pos, f.
Qed.

Lemma NewRGBA_origin (w h : Z) :
  allocatable w h ->
  NewRGBA (Rect 0 0 w h)
  = Some (MkImage (MkRectangle (Pt 0 0) (Pt w h)) (fun _ _ => Color.transparent)).
Proof.
  intros (Hw & Hh & Hfit). rewrite Rect_origin by lia.
  unfold NewRGBA, Dx, Dy. simpl. rewrite !sub_id by (unfold Int.in_range, Int.min_int, Int.max_int in *; nia).
  rewrite !Z.sub_0_r. unfold mul3NonNeg.
  destruct (Z.ltb_spec w 0); [lia |]. destruct (Z.ltb_spec h 0); [lia |].
  simpl. unfold Int.max_int in Hfit.
  destruct (Z.leb_spec (2 ^ 64) (4 * w)); [nia |].
  destruct (Z.leb_spec (2 ^ 64) (4 * w * h)); [lia |].
  destruct (Z.leb_spec (2 ^ 63) (4 * w * h)); [lia |].
  destruct (Z.ltb_spec (4 * w * h) 0); [nia | done].
Qed.

Lemma canvasRect_order (m : gmap string string) (order : list (string * string)) :
  rangeOrder m order ->
  allocatable ((maxColOf m + 1) * tileSize) ((maxRowOf m + 1) * tileSize) ->
  canvasRect order
  = Rect 0 0 ((maxColOf m + 1) * tileSize) ((maxRowOf m + 1) * tileSize).
Proof.
  intros Hp (Hw & Hh & Hfit). unfold canvasRect. rewrite (maxRowCol_order m) by done.
  unfold tileSize, Int.max_int in *.
  rewrite !add_id by (unfold Int.in_range, Int.min_int, Int.max_int; nia).
  rewrite !mul_id by (unfold Int.in_range, Int.min_int, Int.max_int; nia). done.
Qed.

Lemma compose_canvas (d : Disk) (m : gmap string string)
    (order1 order2 : list (string * string)) :
  rangeOrder m order1 ->
  allocatable ((maxColOf m + 1) * tileSize) ((maxRowOf m + 1) * tileSize) ->
  exists dst,
    compose d order1 order2 = Some dst /\
    Bounds dst = MkRectangle (Pt 0 0)
                   (Pt ((maxColOf m + 1) * tileSize) ((maxRowOf m + 1) * tileSize)) /\
    forall x y, At dst x y
      = fold_left (paintPixel (Bounds dst) d x y) order2 Color.transparent.
Proof.
  intros Hp Halloc. unfold compose.
  rewrite (canvasRect_order m), NewRGBA_origin by done.
  eexists. split; [done |].
  destruct (paint_fold_spec d order2
    (MkImage (MkRectangle (Pt 0 0)
       (Pt ((maxColOf m + 1) * tileSize) ((maxRowOf m + 1) * tileSize)))
       (fun _ _ => Color.transparent))) as [Hb Hat].
  split; [exact Hb |]. intros x y. by rewrite Hat, Hb.
Qed.

Lemma tilePoint_eq (pos : string) :
  Int.in_range (keyCol pos * tileSize) -> Int.in_range (keyRow pos * tileSize) ->
  tilePoint pos = Pt (keyCol pos * tileSize) (keyRow pos * tileSize).
Proof.
  unfold tilePoint, keyCol, keyRow. destruct (Fmt.Sscanf_d_d pos) as [r c]. simpl.
  intros Hc Hr. by rewrite !mul_id.
Qed.




(** ** Keys that do not scan *)







(** ** Tiles inside their cell *)

Lemma Intersect_inside (r s : Rectangle) :
  Empty r = false ->
  X (Min s) <= X (Min r) -> Y (Min s) <= Y (Min r) ->
  X (Max r) <= X (Max s) -> Y (Max r) <= Y (Max s) ->
  Intersect r s = r.
Proof.
  destruct r as [[x0 y0] [x1 y1]], s as [[a0 b0] [a1 b1]].
  unfold Intersect, Empty. cbn [Min Max X Y].
  rewrite orb_false_iff, !Z.geb_leb, !Z.leb_gt.
  intros [Hx Hy] H1 H2 H3 H4.
  rewrite !Z.max_l, !Z.min_l by lia.
  destruct (Z.leb_spec x1 x0); [lia |]. destruct (Z.leb_spec y1 y0); [lia |]. done.
Qed.

(** Within a canvas that holds the cell of a key, a tile not larger than a
    cell is painted whole, its pixel [(i, j)] landing on
    [(col*tileSize + i, row*tileSize + j)]. *)
Lemma paint_cell (W H : Z) (d : Disk) (pos f : string) (img : Image) (w h : Z) :
  loadTile d f = Some img -> tileSized img w h ->
  0 <= keyRow pos -> 0 <= keyCol pos ->
  (keyCol pos + 1) * tileSize <= W <= 2 ^ 61 ->
  (keyRow pos + 1) * tileSize <= H <= 2 ^ 61 ->
  paintRect (MkRectangle (Pt 0 0) (Pt W H)) d (pos, f)
  = MkRectangle (Pt (keyCol pos * tileSize) (keyRow pos * tileSize))
                (Pt (keyCol pos * tileSize + w) (keyRow pos * tileSize + h)) /\
  forall x y,
    paintSource (MkRectangle (Pt 0 0) (Pt W H)) d (pos, f) x y
    = At img (x - keyCol pos * tileSize) (y - keyRow pos * tileSize).
Proof.
  intros Hload (Hb & Hw & Hh) Hr Hc HW HH.
  unfold paintRect, paintSource. cbn [fst snd]. rewrite Hload.
  assert (tileTarget pos img
          = MkRectangle (Pt (keyCol pos * tileSize) (keyRow pos * tileSize))
              (Pt (keyCol pos * tileSize + w) (keyRow pos * tileSize + h))) as Ht.
  { unfold tileTarget. rewrite tilePoint_eq by int_range.
    rewrite Hb, Rect_origin by lia. unfold PtAdd, Size, Dx, Dy. simpl.
    rewrite !sub_id by int_range. rewrite !add_id by int_range.
    do 2 f_equal; lia. }
  rewrite Ht. unfold clip. cbn [Min Max X Y].
  set (T := MkRectangle (Pt (keyCol pos * tileSize) (keyRow pos * tileSize))
              (Pt (keyCol pos * tileSize + w) (keyRow pos * tileSize + h))).
  assert (Empty T = false) as HT.
  { unfold Empty, T. cbn [Min Max X Y].
    rewrite orb_false_iff, !Z.geb_leb, !Z.leb_gt. lia. }
  assert (Intersect T (MkRectangle (Pt 0 0) (Pt W H)) = T) as ->.
  { apply Intersect_inside; [done | ..]; unfold T; cbn [Min Max X Y];
      unfold tileSize in *; lia. }
  assert (RectAdd (Bounds img)
            (PtSub (Pt (keyCol pos * tileSize) (keyRow pos * tileSize)) (Pt 0 0))
          = T) as ->.
  { rewrite Hb, Rect_origin by lia. unfold RectAdd, PtAdd, PtSub, T.
    cbn [Min Max X Y].
    rewrite !sub_id by int_range. rewrite !add_id by int_range.
    do 2 f_equal; lia. }
  assert (Intersect T T = T) as ->.
  { apply Intersect_inside; [done | ..]; lia. }
  split; [done |]. intros x y. unfold T. cbn [Min Max X Y].
  rewrite !sub_id by int_range. rewrite !add_id by int_range.
  f_equal; lia.
Qed.

Lemma filter_at_most_one {T : Type} (P : T -> Prop) `{!forall x, Decision (P x)}
    (l : list T) :
  NoDup l -> (forall a b, a ∈ l -> b ∈ l -> P a -> P b -> a = b) ->
  (length (filter P l) <= 1)%nat.
Proof.
  intros Hnd Huniq.
  assert (NoDup (filter P l)) as Hnd' by (by apply NoDup_filter).
  destruct (filter P l) as [| a [| b l']] eqn:Hf; simpl; [lia | lia |].
  exfalso.
  assert (a ∈ filter P l) as Ha by (rewrite Hf; apply list_elem_of_here).
  assert (b ∈ filter P l) as Hb
    by (rewrite Hf; apply list_elem_of_further, list_elem_of_here).
  apply list_elem_of_filter in Ha as [HPa Ha], Hb as [HPb Hb].
  assert (a = b) as -> by (by apply Huniq).
  apply NoDup_cons in Hnd' as [Hnotin _]. apply Hnotin, list_elem_of_here.
Qed.

Lemma PtIn_paintRect_loads (canvas : Rectangle) (d : Disk) (e : string * string)
    (x y : Z) :
  PtIn x y (paintRect canvas d e) = true -> exists img, loadTile d e.2 = Some img.
Proof.
  unfold paintRect. destruct (loadTile d e.2) as [img |]; [by exists img |].
  by rewrite PtIn_ZR.
Qed.

Lemma canvas_sides (m : gmap string string) :
  allocatable ((maxColOf m + 1) * tileSize) ((maxRowOf m + 1) * tileSize) ->
  (maxColOf m + 1) * tileSize <= 2 ^ 61 /\ (maxRowOf m + 1) * tileSize <= 2 ^ 61.
Proof.
  intros (Hw & Hh & Hfit).
  pose proof (maxOf_bound ((fun e => keyRow e.1) <$> map_to_list m)) as [Hr _].
  pose proof (maxOf_bound ((fun e => keyCol e.1) <$> map_to_list m)) as [Hc _].
  fold (maxRowOf m) in Hr. fold (maxColOf m) in Hc.
  unfold tileSize, Int.max_int in *. nia.
Qed.

(** In a canvas that can be allocated, entries with distinct non-negative
    cells and tiles no larger than a cell never paint a common point. *)
Lemma distinct_cells_noOverlap (d : Disk) (m : gmap string string) :
  keysNonNegative m -> cellsDistinct m -> tilesFit d m ->
  allocatable ((maxColOf m + 1) * tileSize) ((maxRowOf m + 1) * tileSize) ->
  noOverlap (MkRectangle (Pt 0 0)
               (Pt ((maxColOf m + 1) * tileSize) ((maxRowOf m + 1) * tileSize)))
    d m.
Proof.
  intros Hnn Hdist Hfit Halloc x y.
  destruct (canvas_sides m Halloc) as [HW HH].
  assert (forall pos f, m !! pos = Some f ->
            PtIn x y (paintRect (MkRectangle (Pt 0 0)
               (Pt ((maxColOf m + 1) * tileSize) ((maxRowOf m + 1) * tileSize)))
               d (pos, f)) = true ->
            x / 512 = keyCol pos /\ y / 512 = keyRow pos) as Hcell.
  { intros pos f Hm Hin.
    destruct (PtIn_paintRect_loads _ _ _ _ _ Hin) as [img Himg]. simpl in Himg.
    destruct (Hfit pos f img Hm Himg) as (w & h & Hwh).
    destruct (Hnn pos f Hm) as [Hr Hc].
    destruct (maxRowOf_bound m pos f Hm) as [Hr' Hc'].
    destruct (paint_cell ((maxColOf m + 1) * tileSize) ((maxRowOf m + 1) * tileSize)
                d pos f img w h Himg Hwh Hr Hc) as [Hrect _];
      [unfold tileSize in *; nia .. |].
    rewrite Hrect in Hin. apply PtIn_spec in Hin. cbn [Min Max X Y] in Hin.
    destruct Hwh as (_ & Hw & Hh). unfold tileSize in *.
    split; symmetry.
    - apply Z.div_unique with (r := x - keyCol pos * 512); lia.
    - apply Z.div_unique with (r := y - keyRow pos * 512); lia. }
  apply filter_at_most_one; [apply NoDup_map_to_list |].
  intros [pos f] [pos' f'] Hm%elem_of_map_to_list Hm'%elem_of_map_to_list Hin Hin'.
  destruct (Hcell pos f Hm Hin) as [Hc Hr].
  destruct (Hcell pos' f' Hm' Hin') as [Hc' Hr'].
  assert (pos = pos') as <- by (eapply Hdist; [done | done | lia | lia]).
  congruence.
Qed.

(** ** Two runs of the Composer *)

Lemma canvasRect_perm (o o' : list (string * string)) :
  o ≡ₚ o' -> canvasRect o = canvasRect o'.
Proof.
  intros Hp. unfold canvasRect, maxRowCol. rewrite !scanKey_fold.
  rewrite (maxOf_perm _ _ (fmap_Permutation (fun e => keyRow e.1) _ _ Hp)
           : foldr Z.max 0 _ = foldr Z.max 0 _).
  by rewrite (maxOf_perm _ _ (fmap_Permutation (fun e => keyCol e.1) _ _ Hp)
              : foldr Z.max 0 _ = foldr Z.max 0 _).
Qed.

Lemma NewRGBA_bounds (r : Rectangle) (img : Image) :
  NewRGBA r = Some img -> Bounds img = r /\ forall x y, At img x y = Color.transparent.
Proof. unfold NewRGBA. destruct (_ <? _); [done |]. by intros [= <-]. Qed.

Lemma compose_perm (d : Disk) (m : gmap string string)
    (o1 o2 o1' o2' : list (string * string)) :
  rangeOrder m o1 -> rangeOrder m o2 -> rangeOrder m o1' -> rangeOrder m o2' ->
  noOverlap (canvasRect (map_to_list m)) d m ->
  sameResult (compose d o1 o2) (compose d o1' o2').
Proof.
  intros H1 H2 H1' H2' Hno. unfold compose.
  rewrite (canvasRect_perm o1 (map_to_list m) H1).
  rewrite (canvasRect_perm o1' (map_to_list m) H1').
  destruct (NewRGBA (canvasRect (map_to_list m))) as [dst0 |] eqn:Hnew; [| done].
  apply NewRGBA_bounds in Hnew as [Hb0 _]. simpl.
  destruct (paint_fold_spec d o2 dst0) as [Hb Hat].
  destruct (paint_fold_spec d o2' dst0) as [Hb' Hat'].
  split; [congruence |]. intros x y. rewrite Hat, Hat', Hb0.
  apply paint_order_irrelevant.
  - unfold rangeOrder in *. by rewrite H2, H2'.
  - specialize (Hno x y).
    rewrite (Permutation_length (filter_Permutation _ _ _ H2)). exact Hno.
Qed.

Lemma pngEncodable_bounds (a b : Image) :
  Bounds a = Bounds b -> pngEncodable a = pngEncodable b.
Proof. unfold pngEncodable. by intros ->. Qed.

(** A canvas that can be allocated and encoded is answered as a PNG: the
    Composer does not fail, whatever the tiles. *)
Lemma export_png (d : Disk) (m : gmap string string)
    (o1 o2 : list (string * string)) :
  rangeOrder m o1 ->
  allocatable ((maxColOf m + 1) * tileSize) ((maxRowOf m + 1) * tileSize) ->
  (maxColOf m + 1) * tileSize < 2 ^ 32 -> (maxRowOf m + 1) * tileSize < 2 ^ 32 ->
  exportPuzzleHandler d (exportOf m) o1 o2
  = ExportPng (fold_left (paintTile d) o2 (blankCanvas m)).
Proof.
  intros H1 Halloc HW HH. unfold exportPuzzleHandler, exportOf, compose.
  cbn [exportMethod exportBody negb String.eqb Ascii.eqb Bool.eqb].
  rewrite (canvasRect_order m o1 H1 Halloc), (NewRGBA_origin _ _ Halloc).
  fold (blankCanvas m).
  destruct (paint_fold_spec d o2 (blankCanvas m)) as [Hb _].
  rewrite (pngEncodable_bounds _ _ Hb).
  destruct Halloc as (Hw & Hh & _).
  unfold pngEncodable, blankCanvas, Dx, Dy. cbn [Bounds Min Max X Y].
  rewrite !sub_id by int_range. rewrite !Z.sub_0_r.
  destruct (Z.ltb_spec 0 ((maxColOf m + 1) * tileSize)); [| lia].
  destruct (Z.ltb_spec 0 ((maxRowOf m + 1) * tileSize)); [| lia].
  destruct (Z.ltb_spec ((maxColOf m + 1) * tileSize) (2 ^ 32)); [| lia].
  destruct (Z.ltb_spec ((maxRowOf m + 1) * tileSize) (2 ^ 32)); [| lia].
  reflexivity.
Qed.

(** C5, counterexample. The keys ["foo"] and ["bar"] both scan to the cell
    (0, 0). With a red tile under one and a blue tile under the other, the
    run that visits ["foo"] last answers a red corner and the run that
    visits ["bar"] last a blue one: the two outputs differ. *)
Lemma overlapping_keys_order_dependent :
  exists dst1 dst2,
    exportRun sampleTiles (exportOf {["foo" := "a.png"; "bar" := "b.png"]})
      (ExportPng dst1) /\
    exportRun sampleTiles (exportOf {["foo" := "a.png"; "bar" := "b.png"]})
      (ExportPng dst2) /\
    At dst1 0 0 = red /\ At dst2 0 0 = blue /\ At dst1 0 0 <> At dst2 0 0.
Proof.
  pose (m := ({["foo" := "a.png"; "bar" := "b.png"]} : gmap string string)).
  assert (map_to_list m ≡ₚ [("foo", "a.png"); ("bar", "b.png")]) as Hl.
  { unfold m. rewrite map_to_list_insert by done. by rewrite map_to_list_singleton. }
  assert (rangeOrder m [("foo", "a.png"); ("bar", "b.png")]) as Hfb
    by (unfold rangeOrder; by rewrite Hl).
  assert (rangeOrder m [("bar", "b.png"); ("foo", "a.png")]) as Hbf
    by (unfold rangeOrder; rewrite Hl; apply perm_swap).
  assert (maxRowOf m = 0) as Hr by (vm_compute; reflexivity).
  assert (maxColOf m = 0) as Hc by (vm_compute; reflexivity).
  assert (allocatable ((maxColOf m + 1) * tileSize) ((maxRowOf m + 1) * tileSize))
    as Halloc by (rewrite Hr, Hc; unfold allocatable, tileSize, Int.max_int; lia).
  exists (fold_left (paintTile sampleTiles) [("bar", "b.png"); ("foo", "a.png")]
            (blankCanvas m)),
         (fold_left (paintTile sampleTiles) [("foo", "a.png"); ("bar", "b.png")]
            (blankCanvas m)).
  split; [| split; [| split; [| split]]].
  - exists [("foo", "a.png"); ("bar", "b.png")], [("bar", "b.png"); ("foo", "a.png")].
    split; [exact Hfb |]. split; [exact Hbf |]. symmetry.
    apply export_png; [done | done | rewrite Hc; by vm_compute | rewrite Hr; by vm_compute].
  - exists [("foo", "a.png"); ("bar", "b.png")], [("foo", "a.png"); ("bar", "b.png")].
    split; [exact Hfb |]. split; [exact Hfb |]. symmetry.
    apply export_png; [done | done | rewrite Hc; by vm_compute | rewrite Hr; by vm_compute].
  - vm_compute. reflexivity.
  - vm_compute. reflexivity.
  - vm_compute. discriminate.
Qed.

(** C5, amended. Two runs of the Composer on the same request and the same
    tile files give the same response, with the same image pixel for pixel,
    whatever the orders in which their loops visit the placement map,
    provided no point of the canvas is painted by two entries of the map. *)
Theorem export_order_independent (d : Disk) (req : ExportRequest)
    (resp1 resp2 : ExportResponse) :
  (forall payload, exportBody req = Some payload ->
     noOverlap (canvasRect (map_to_list (Placements payload))) d (Placements payload)) ->
  exportRun d req resp1 -> exportRun d req resp2 -> sameResponse resp1 resp2.
Proof.
  intros Hno. unfold exportRun, exportPuzzleHandler.
  destruct (exportBody req) as [payload |] eqn:Hbody.
  - intros (o1 & o2 & H1 & H2 & ->) (o1' & o2' & H1' & H2' & ->).
    destruct (negb _); [done |].
    pose proof (compose_perm d _ o1 o2 o1' o2' H1 H2 H1' H2' (Hno payload eq_refl)) as Hs.
    destruct (compose d o1 o2) as [a |], (compose d o1' o2') as [b |]; try done.
    simpl in Hs. rewrite (pngEncodable_bounds a b (proj1 Hs)).
    by destruct (pngEncodable b).
  - intros -> ->. by destruct (negb _).
Qed.

Lemma noOverlap_canvasRect (d : Disk) (m : gmap string string) :
  keysNonNegative m -> cellsDistinct m -> tilesFit d m ->
  allocatable ((maxColOf m + 1) * tileSize) ((maxRowOf m + 1) * tileSize) ->
  noOverlap (canvasRect (map_to_list m)) d m.
Proof.
  intros Hnn Hdist Hfit Halloc.
  rewrite (canvasRect_order m (map_to_list m)); [| unfold rangeOrder; reflexivity | exact Halloc].
  pose proof Halloc as (Hw & Hh & Hf). rewrite Rect_origin by lia.
  by apply distinct_cells_noOverlap.
Qed.

Lemma loadTile_a : loadTile sampleTiles "a.png" = Some (solidTile red).
Proof. reflexivity. Qed.

Lemma loadTile_b : loadTile sampleTiles "b.png" = Some (solidTile blue).
Proof. reflexivity. Qed.

Lemma solidTile_sized (c : Color.RGBA) : tileSized (solidTile c) 512 512.
Proof. unfold tileSized, tileSize. split; [reflexivity | lia]. Qed.

Lemma export_order_independent_witness :
  sameResponse
    (exportPuzzleHandler sampleTiles (exportOf {["0,0" := "a.png"; "0,1" := "b.png"]})
       [("0,0", "a.png"); ("0,1", "b.png")] [("0,1", "b.png"); ("0,0", "a.png")])
    (exportPuzzleHandler sampleTiles (exportOf {["0,0" := "a.png"; "0,1" := "b.png"]})
       [("0,1", "b.png"); ("0,0", "a.png")] [("0,0", "a.png"); ("0,1", "b.png")]).
Proof.
  pose (m := ({["0,0" := "a.png"; "0,1" := "b.png"]} : gmap string string)).
  assert (map_to_list m ≡ₚ [("0,0", "a.png"); ("0,1", "b.png")]) as Hl.
  { unfold m. rewrite map_to_list_insert by done. by rewrite map_to_list_singleton. }
  assert (rangeOrder m [("0,0", "a.png"); ("0,1", "b.png")]) as Hab
    by (unfold rangeOrder; by rewrite Hl).
  assert (rangeOrder m [("0,1", "b.png"); ("0,0", "a.png")]) as Hba
    by (unfold rangeOrder; rewrite Hl; apply perm_swap).
  assert (maxRowOf m = 0) as Hr by (vm_compute; reflexivity).
  assert (maxColOf m = 1) as Hc by (vm_compute; reflexivity).
  assert (forall pos f, m !! pos = Some f ->
            (pos = "0,0" /\ f = "a.png") \/ (pos = "0,1" /\ f = "b.png")) as Hcases.
  { intros pos f Hm. unfold m in Hm.
    apply lookup_insert_Some in Hm as [[<- <-] | [_ Hm]];
      [left; split; reflexivity |].
    apply lookup_singleton_Some in Hm as [<- <-]. right; split; reflexivity. }
  apply (export_order_independent sampleTiles (exportOf m)).
  - intros payload [= <-]. cbn [Placements]. apply noOverlap_canvasRect.
    + intros pos f [[-> _] | [-> _]]%Hcases; vm_compute; split; discriminate.
    + intros pos pos' f f' [[-> _] | [-> _]]%Hcases [[-> _] | [-> _]]%Hcases Hrow Hcol;
        try reflexivity; vm_compute in Hcol; discriminate.
    + intros pos f img [[-> ->] | [-> ->]]%Hcases Himg.
      * rewrite loadTile_a in Himg. injection Himg as <-.
        exists 512, 512. apply solidTile_sized.
      * rewrite loadTile_b in Himg. injection Himg as <-.
        exists 512, 512. apply solidTile_sized.
    + rewrite Hr, Hc. unfold allocatable, tileSize, Int.max_int. lia.
  - exists [("0,0", "a.png"); ("0,1", "b.png")], [("0,1", "b.png"); ("0,0", "a.png")].
    split; [exact Hab |]. split; [exact Hba |]. reflexivity.
  - exists [("0,1", "b.png"); ("0,0", "a.png")], [("0,0", "a.png"); ("0,1", "b.png")].
    split; [exact Hba |]. split; [exact Hab |]. reflexivity.
Defined.

(** ** A tile that does not load *)

Lemma paintTile_missing (d : Disk) (dst : Image) (pos f : string) :
  loadTile d f = None -> paintTile d dst (pos, f) = dst.
Proof. unfold paintTile. by intros ->. Qed.

Lemma paint_without (d : Disk) (e : string * string) (l : list (string * string)) :
  loadTile d e.2 = None ->
  forall dst,
  fold_left (paintTile d) l dst
  = fold_left (paintTile d) (filter (fun e' => e' <> e) l) dst.
Proof.
  intros Hmiss. induction l as [| e' l IH]; intros dst; [done |].
  rewrite filter_cons. destruct (decide (e' <> e)) as [Hne | Heq]; simpl.
  - apply IH.
  - apply dec_stable in Heq as ->. destruct e as [pos f].
    rewrite paintTile_missing by done. apply IH.
Qed.

Lemma paintPixel_untouched (canvas : Rectangle) (d : Disk) (x y : Z)
    (l : list (string * string)) (px : Color.RGBA) :
  (forall e, e ∈ l -> PtIn x y (paintRect canvas d e) = false) ->
  fold_left (paintPixel canvas d x y) l px = px.
Proof.
  revert px. induction l as [| e l IH]; intros px Hout; [done |]. simpl.
  unfold paintPixel at 2. rewrite (Hout e) by apply list_elem_of_here.
  apply IH. intros e' He'. apply Hout. by apply list_elem_of_further.
Qed.

(** C8, counterexample. The tile under ["0,0"] is missing; the key
    ["00,0"] scans to the same cell and its tile is red. Every run answers
    an image whose cell (0, 0) is red, not transparent. And with a missing
    tile under the row 2^53 the Composer does fail: the canvas cannot be
    allocated and the handler panics. *)
Lemma missing_cell_painted_by_other_key :
  loadTile sampleTiles "missing.png" = None /\
  (forall o1 o2,
     rangeOrder {["0,0" := "missing.png"; "00,0" := "a.png"]} o1 ->
     rangeOrder {["0,0" := "missing.png"; "00,0" := "a.png"]} o2 ->
     exists dst,
       exportPuzzleHandler sampleTiles
         (exportOf {["0,0" := "missing.png"; "00,0" := "a.png"]}) o1 o2
       = ExportPng dst /\
       At dst 0 0 = red /\ At dst 0 0 <> Color.transparent) /\
  (rangeOrder {["9007199254740992,0" := "missing.png"]}
     [("9007199254740992,0", "missing.png")] /\
   exportPuzzleHandler sampleTiles
     (exportOf {["9007199254740992,0" := "missing.png"]})
     [("9007199254740992,0", "missing.png")] [("9007199254740992,0", "missing.png")]
   = ExportPanic).
Proof.
  split; [reflexivity |]. split.
  - intros o1 o2 H1 H2.
    set (m := ({["0,0" := "missing.png"; "00,0" := "a.png"]} : gmap string string)) in *.
    assert (map_to_list m ≡ₚ [("0,0", "missing.png"); ("00,0", "a.png")]) as Hl.
    { unfold m. rewrite map_to_list_insert by reflexivity.
      by rewrite map_to_list_singleton. }
    assert (maxRowOf m = 0) as Hr by (vm_compute; reflexivity).
    assert (maxColOf m = 0) as Hc by (vm_compute; reflexivity).
    eexists. split.
    + apply export_png; [exact H1 | | rewrite Hc; by vm_compute | rewrite Hr; by vm_compute].
      rewrite Hr, Hc. unfold allocatable, tileSize, Int.max_int. lia.
    + unfold rangeOrder in H2. rewrite Hl in H2. symmetry in H2.
      apply Permutation_length_2_inv in H2 as [-> | ->];
        split; vm_compute; congruence.
  - split; [unfold rangeOrder; by rewrite map_to_list_singleton |].
    unfold exportPuzzleHandler, exportOf, compose.
    cbn [exportMethod exportBody negb String.eqb Ascii.eqb Bool.eqb].
    assert (NewRGBA (canvasRect [("9007199254740992,0", "missing.png")]) = None) as ->
      by (vm_compute; reflexivity).
    reflexivity.
Qed.

(** C8, amended. When the file of an entry fails to open or decode, the
    Composer still answers a PNG (the canvas being one that can be
    allocated and encoded). The canvas has the size the keys give, the key
    of the failing entry included, the same as with any other tile files.
    The image is the one painted from the other entries alone, and every
    point that no other entry paints is left fully transparent; a point of
    the failing entry's cell that another entry covers is painted by it. *)
Theorem missing_tile_skipped (d : Disk) (m : gmap string string)
    (o1 o2 : list (string * string)) (pos f : string) :
  rangeOrder m o1 -> rangeOrder m o2 ->
  m !! pos = Some f -> loadTile d f = None ->
  allocatable ((maxColOf m + 1) * tileSize) ((maxRowOf m + 1) * tileSize) ->
  (maxColOf m + 1) * tileSize < 2 ^ 32 -> (maxRowOf m + 1) * tileSize < 2 ^ 32 ->
  exists dst,
    exportPuzzleHandler d (exportOf m) o1 o2 = ExportPng dst /\
    Bounds dst = MkRectangle (Pt 0 0)
                   (Pt ((maxColOf m + 1) * tileSize) ((maxRowOf m + 1) * tileSize)) /\
    keyRow pos <= maxRowOf m /\ keyCol pos <= maxColOf m /\
    (forall d', exists dst',
       exportPuzzleHandler d' (exportOf m) o1 o2 = ExportPng dst' /\
       Bounds dst' = Bounds dst) /\
    dst = fold_left (paintTile d) (filter (fun e => e <> (pos, f)) o2) (blankCanvas m) /\
    (forall x y,
       (forall e, e ∈ o2 -> e <> (pos, f) ->
          PtIn x y (paintRect (Bounds dst) d e) = false) ->
       At dst x y = Color.transparent).
Proof.
  intros H1 H2 Hm Hmiss Halloc HW HH.
  exists (fold_left (paintTile d) o2 (blankCanvas m)).
  destruct (paint_fold_spec d o2 (blankCanvas m)) as [Hb Hat].
  split; [by apply export_png |]. split; [exact Hb |].
  split; [by apply (maxRowOf_bound m pos f) |].
  split; [by apply (maxRowOf_bound m pos f) |]. split; [| split].
  - intros d'. exists (fold_left (paintTile d') o2 (blankCanvas m)).
    split; [by apply export_png |].
    destruct (paint_fold_spec d' o2 (blankCanvas m)) as [Hb' _]. congruence.
  - by apply (paint_without d (pos, f)).
  - intros x y Hout. rewrite Hat. rewrite Hb in Hout.
    rewrite paintPixel_filter.
    change (At (blankCanvas m) x y) with Color.transparent.
    apply paintPixel_untouched.
    intros e [Hin He]%list_elem_of_filter.
    destruct (decide (e = (pos, f))) as [-> | Hne].
    + unfold paintRect in Hin. cbn [snd] in Hin. rewrite Hmiss, PtIn_ZR in Hin. done.
    + rewrite (Hout e He Hne) in Hin. done.
Qed.

Lemma missing_tile_skipped_witness :
  exists dst,
    exportPuzzleHandler sampleTiles
      (exportOf {["0,0" := "a.png"; "0,1" := "missing.png"]})
      [("0,0", "a.png"); ("0,1", "missing.png")]
      [("0,1", "missing.png"); ("0,0", "a.png")]
    = ExportPng dst /\
    Bounds dst = MkRectangle (Pt 0 0) (Pt 1024 512).
Proof.
  set (m := ({["0,0" := "a.png"; "0,1" := "missing.png"]} : gmap string string)).
  assert (map_to_list m ≡ₚ [("0,0", "a.png"); ("0,1", "missing.png")]) as Hl.
  { unfold m. rewrite map_to_list_insert by reflexivity.
    by rewrite map_to_list_singleton. }
  assert (maxRowOf m = 0) as Hr by (vm_compute; reflexivity).
  assert (maxColOf m = 1) as Hc by (vm_compute; reflexivity).
  destruct (missing_tile_skipped sampleTiles m
              [("0,0", "a.png"); ("0,1", "missing.png")]
              [("0,1", "missing.png"); ("0,0", "a.png")] "0,1" "missing.png")
    as (dst & Hresp & Hb & _).
  - unfold rangeOrder. by rewrite Hl.
  - unfold rangeOrder. rewrite Hl. apply perm_swap.
  - reflexivity.
  - reflexivity.
  - rewrite Hr, Hc. unfold allocatable, tileSize, Int.max_int. lia.
  - rewrite Hc. by vm_compute.
  - rewrite Hr. by vm_compute.
  - exists dst. split; [exact Hresp |]. rewrite Hb, Hr, Hc. reflexivity.
Defined.

(** ** The tiles the Slicer writes *)

Lemma overChannel_blank (s sa : Z) : 0 <= s <= 255 -> overChannel 0 s sa = s.
Proof.
  intros Hs. unfold overChannel. rewrite Z.mul_0_l, Z.div_0_l by lia.
  replace (0 + s * 257) with (s + s * 256) by lia.
  rewrite Z.div_add by lia. rewrite (Z.div_small s 256) by lia.
  rewrite Z.mod_small; lia.
Qed.

(** Painting over a transparent pixel leaves the colour painted. *)
Lemma over_transparent (s : Color.RGBA) :
  Color.valid s -> over s Color.transparent = s.
Proof.
  intros (Hr & Hg & Hb & Ha). destruct s as [r g b a]. unfold over. simpl in *.
  by rewrite !overChannel_blank.
Qed.

Lemma sliceCell_inl_disk (env : Env) (img : Image) (r c : Z) (st st' : Slicing) :
  sliceCell env img r c st = inl st' ->
  disk st' =
    <["pieces/" +:+ Fmt.Sprintf_image (Z.of_nat (length (pieces st)))
      := tileFile env img (length (pieces st)) (r, c)]> (disk st) /\
  length (pieces st') = S (length (pieces st)).
Proof.
  unfold sliceCell, tileFile. cbn [fst snd].
  destruct (tileImage img r c) as [tile |]; [| done].
  destruct (negb (CreateOK env _)); [done |]. intros [= <-]. simpl.
  split; [done |]. rewrite length_app. simpl. lia.
Qed.

Lemma pieces_path_inj (a b : string) : "pieces/" +:+ a = "pieces/" +:+ b -> a = b.
Proof. intros H. cbn in H. by injection H. Qed.

Lemma sliceCells_disk (env : Env) (img : Image) (d : Disk) (cells : list (Z * Z)) :
  forall st,
  Z.of_nat (length cells) <= Int.max_int ->
  sliceCells env img cells (emptySlicing d) = inl st ->
  length (pieces st) = length cells /\
  forall (i : nat) rc, cells !! i = Some rc ->
    disk st !! ("pieces/" +:+ Fmt.Sprintf_image (Z.of_nat i))
    = Some (tileFile env img i rc).
Proof.
  induction cells as [| x cells IH] using rev_ind; intros st Hfit Hrun.
  - injection Hrun as <-. split; [done |]. intros i rc Hi. done.
  - unfold sliceCells in Hrun. rewrite forEach_app in Hrun.
    destruct (forEach _ cells _) as [st1 |] eqn:Hpre; [| done].
    cbn [forEach] in Hrun.
    destruct (sliceCell env img x.1 x.2 st1) as [st2 |] eqn:Hcell; [| done].
    injection Hrun as <-. rewrite length_app in Hfit. simpl in Hfit.
    destruct (IH st1) as [Hlen Hd]; [lia | exact Hpre |].
    apply sliceCell_inl_disk in Hcell as [Hd2 Hlen2].
    rewrite Hlen in Hd2, Hlen2. split; [rewrite length_app; simpl; lia |].
    intros i rc Hi. rewrite Hd2.
    apply lookup_app_Some in Hi as [Hi | [Hge Hi]].
    + pose proof (lookup_lt_Some _ _ _ Hi) as Hlt.
      rewrite lookup_insert_ne; [by apply Hd |].
      intros Heq%pieces_path_inj. apply Sprintf_image_inj in Heq; lia.
    + destruct (i - length cells)%nat as [| k] eqn:Hk; [| by destruct k].
      injection Hi as <-. assert (i = length cells) as -> by lia.
      rewrite lookup_insert_eq. by destruct x.
Qed.

(** The pixels of a tile are those of the image over its rectangle. *)
Lemma tileImage_spec (img : Image) (w h r c : Z) :
  Bounds img = Rect 0 0 w h -> sliceable w h ->
  0 <= r < gridRows (Bounds img) -> 0 <= c < gridCols (Bounds img) ->
  exists tile,
    tileImage img r c = Some tile /\
    Bounds tile = tileRect (Bounds img) r c /\
    forall x y, At tile x y =
      if PtIn x y (tileRect (Bounds img) r c) then At img x y else Color.transparent.
Proof.
  intros Hb Hs Hr Hc. unfold tileImage. rewrite Hb in *.
  pose proof Hs as (Hw & Hh & Hwm & Hhm).
  pose proof Hr as Hr'. pose proof Hc as Hc'.
  rewrite gridRows_eq in Hr' by done. rewrite gridCols_eq in Hc' by done.
  pose proof (cell_start w c Hw Hc'). pose proof (cell_start h r Hh Hr').
  rewrite tileRect_eq by done.
  set (T := MkRectangle (Pt (c * 512) (r * 512))
              (Pt (Z.min (c * 512 + 512) w) (Z.min (r * 512 + 512) h))).
  assert (Empty T = false) as HT.
  { unfold Empty, T. cbn [Min Max X Y].
    rewrite orb_false_iff, !Z.geb_leb, !Z.leb_gt. lia. }
  assert (NewRGBA T = Some (MkImage T (fun _ _ => Color.transparent))) as ->.
  { unfold NewRGBA, Dx, Dy, T. cbn [Min Max X Y].
    rewrite !sub_id by int_range.
    set (dx := Z.min (c * 512 + 512) w - c * 512).
    set (dy := Z.min (r * 512 + 512) h - r * 512).
    assert (0 < dx <= 512) as Hdx by (unfold dx; lia).
    assert (0 < dy <= 512) as Hdy by (unfold dy; lia).
    unfold mul3NonNeg.
    destruct (Z.ltb_spec dx 0); [lia |]. destruct (Z.ltb_spec dy 0); [lia |].
    cbn [orb Z.ltb Z.compare].
    destruct (Z.leb_spec (2 ^ 64) (4 * dx)); [lia |].
    destruct (Z.leb_spec (2 ^ 64) (4 * dx * dy)); [nia |].
    destruct (Z.leb_spec (2 ^ 63) (4 * dx * dy)); [nia |].
    destruct (Z.ltb_spec (4 * dx * dy) 0); [nia | reflexivity]. }
  eexists. split; [reflexivity |].
  destruct (Draw_spec (MkImage T (fun _ _ => Color.transparent)) T img
              (Pt (Int.mul c tileSize) (Int.mul r tileSize)) Src) as [HbD HatD].
  split; [exact HbD |]. intros x y. rewrite HatD. cbn [Bounds At].
  rewrite !mul_id by int_range. rewrite Hb, Rect_origin by lia.
  unfold clip. cbn [Min Max X Y].
  assert (Intersect T T = T) as -> by (apply Intersect_inside; [done | lia ..]).
  assert (RectAdd (MkRectangle (Pt 0 0) (Pt w h))
            (PtSub (Min T) (Pt (c * tileSize) (r * tileSize)))
          = MkRectangle (Pt 0 0) (Pt w h)) as ->.
  { unfold RectAdd, PtAdd, PtSub, T. cbn [Min Max X Y]. unfold tileSize.
    rewrite !sub_id by int_range. rewrite !Z.sub_diag.
    rewrite !add_id by int_range. do 2 f_equal; lia. }
  assert (Intersect T (MkRectangle (Pt 0 0) (Pt w h)) = T) as ->.
  { apply Intersect_inside; [done | ..]; unfold T; cbn [Min Max X Y]; lia. }
  change (X (Min T)) with (c * 512). change (Y (Min T)) with (r * 512).
  cbn [Min Max X Y]. unfold tileSize.
  rewrite !sub_id by int_range. rewrite !Z.sub_diag.
  rewrite !add_id by int_range.
  destruct (PtIn x y T) eqn:Hin; [| done]. f_equal; lia.
Qed.

(** The tile of a cell as the Composer loads it: its bounds moved to the
    origin, its pixels those of the image over the cell. *)
Lemma decoded_tile (img : Image) (w h r c : Z) (tile : Image) :
  Bounds img = Rect 0 0 w h -> sliceable w h ->
  0 <= r < gridRows (Bounds img) -> 0 <= c < gridCols (Bounds img) ->
  tileImage img r c = Some tile ->
  pngEncodable tile = true /\
  tileSized (pngDecoded tile)
    (Z.min (c * 512 + 512) w - c * 512) (Z.min (r * 512 + 512) h - r * 512) /\
  forall i j,
    0 <= i < Z.min (c * 512 + 512) w - c * 512 ->
    0 <= j < Z.min (r * 512 + 512) h - r * 512 ->
    At (pngDecoded tile) i j = At img (c * 512 + i) (r * 512 + j).
Proof.
  intros Hb Hs Hr Hc Htile.
  destruct (tileImage_spec img w h r c Hb Hs Hr Hc) as (tile' & Ht' & HbT & HatT).
  rewrite Htile in Ht'. injection Ht' as <-.
  rewrite Hb in *. pose proof Hs as (Hw & Hh & Hwm & Hhm).
  pose proof Hr as Hr'. pose proof Hc as Hc'.
  rewrite gridRows_eq in Hr' by done. rewrite gridCols_eq in Hc' by done.
  pose proof (cell_start w c Hw Hc'). pose proof (cell_start h r Hh Hr').
  rewrite tileRect_eq in HbT, HatT by done.
  set (dx := Z.min (c * 512 + 512) w - c * 512) in *.
  set (dy := Z.min (r * 512 + 512) h - r * 512) in *.
  assert (0 < dx <= 512) as Hdx by (unfold dx; lia).
  assert (0 < dy <= 512) as Hdy by (unfold dy; lia).
  assert (Dx (Bounds tile) = dx) as HDx.
  { rewrite HbT. unfold Dx. cbn [Min Max X Y]. apply sub_id. int_range. }
  assert (Dy (Bounds tile) = dy) as HDy.
  { rewrite HbT. unfold Dy. cbn [Min Max X Y]. apply sub_id. int_range. }
  split; [| split].
  - unfold pngEncodable. rewrite HDx, HDy.
    destruct (Z.ltb_spec 0 dx); [| lia]. destruct (Z.ltb_spec 0 dy); [| lia].
    destruct (Z.ltb_spec dx (2 ^ 32)); [| lia].
    destruct (Z.ltb_spec dy (2 ^ 32)); [done | lia].
  - unfold tileSized, pngDecoded. cbn [Bounds]. rewrite HDx, HDy.
    unfold tileSize. done.
  - intros i j Hi Hj. unfold pngDecoded. cbn [At]. rewrite HDx, HDy.
    rewrite Rect_origin by lia.
    assert (PtIn i j (MkRectangle (Pt 0 0) (Pt dx dy)) = true) as ->
      by (apply PtIn_spec; cbn [Min Max X Y]; lia).
    rewrite HatT, HbT. cbn [Min Max X Y].
    match goal with
    | |- (if PtIn ?a ?b ?T then _ else _) = _ =>
        assert (PtIn a b T = true) as ->; [| done]
    end.
    apply PtIn_spec. cbn [Min Max X Y]. unfold dx, dy in *. lia.
Qed.

(** After a slicing loop in which every tile was written, each entry of
    the solution names the cell its key prints and a tile that loads. *)
Lemma solution_entries (env : Env) (img : Image) (d : Disk) (st : Slicing) (w h : Z) :
  Bounds img = Rect 0 0 w h -> sliceable w h ->
  (forall p, WriteOK env p = true) ->
  gridRows (Bounds img) * gridCols (Bounds img) <= Int.max_int ->
  sliceLoop env img (emptySlicing d) = inl st ->
  (forall r c, 0 <= r < gridRows (Bounds img) -> 0 <= c < gridCols (Bounds img) ->
     exists f, solution st !! Fmt.Sprintf_d_d r c = Some f) /\
  (forall key f, solution st !! key = Some f ->
     exists r c tile,
       0 <= r < gridRows (Bounds img) /\ 0 <= c < gridCols (Bounds img) /\
       key = Fmt.Sprintf_d_d r c /\ keyRow key = r /\ keyCol key = c /\
       tileImage img r c = Some tile /\
       loadTile (disk st) f = Some (pngDecoded tile)).
Proof.
  intros Hb Hs Hwrite Hfit Hrun. rewrite sliceLoop_cells in Hrun.
  pose proof (gridRows_range (Bounds img)) as [_ Hrows].
  pose proof (gridCols_range (Bounds img)) as [_ Hcols].
  assert (Z.of_nat (length (gridCells (Bounds img))) <= Int.max_int) as Hlen.
  { rewrite gridCells_length.
    destruct (Z.le_gt_cases (gridRows (Bounds img)) 0) as [Hr0 | Hr0];
      [rewrite (Z2Nat.nonpos (gridRows _)) by lia; unfold Int.max_int; lia |].
    destruct (Z.le_gt_cases (gridCols (Bounds img)) 0) as [Hc0 | Hc0];
      [rewrite (Z2Nat.nonpos (gridCols _)) by lia; unfold Int.max_int; lia |].
    nia. }
  destruct (sliceCells_disk env img d _ st Hlen Hrun) as [_ Hdisk].
  apply sliceCells_manifest in Hrun as [_ Hsol]; [| apply gridCells_keys_inj].
  split.
  - intros r c Hr Hc. eexists. apply Hsol.
    exists (Z.to_nat (r * gridCols (Bounds img) + c)), (r, c).
    split; [by apply gridCells_lookup | done].
  - intros key f (i & [r c] & Hi & -> & ->)%Hsol. cbn [fst snd].
    pose proof (Hdisk i (r, c) Hi) as Hfile.
    apply gridCells_index in Hi as (Hr & Hc & Hidx).
    destruct (tileImage_spec img w h r c Hb Hs Hr Hc) as (tile & Htile & _).
    destruct (decoded_tile img w h r c tile Hb Hs Hr Hc Htile) as (Henc & _).
    exists r, c, tile. split; [done |]. split; [done |]. split; [done |].
    unfold keyRow, keyCol. rewrite Sscanf_Sprintf by lia.
    split; [done |]. split; [done |]. split; [done |].
    unfold loadTile. rewrite Hfile. unfold tileFile. cbn [fst snd].
    by rewrite Htile, Henc, Hwrite.
Qed.

(** ** Composing the canonical solution *)

Lemma grid_positive (w h : Z) :
  sliceable w h -> 0 < gridRows (Rect 0 0 w h) /\ 0 < gridCols (Rect 0 0 w h).
Proof.
  intros Hs. pose proof Hs as (Hw & Hh & _).
  rewrite gridRows_eq, gridCols_eq by done. split; apply Z.div_str_pos; lia.
Qed.

Lemma grid_covers (w h : Z) :
  sliceable w h ->
  w <= gridCols (Rect 0 0 w h) * 512 /\ h <= gridRows (Rect 0 0 w h) * 512.
Proof.
  intros Hs. pose proof Hs as (Hw & Hh & _).
  rewrite gridRows_eq, gridCols_eq by done.
  pose proof (Z.div_mod (w + 511) 512 ltac:(lia)).
  pose proof (Z.mod_pos_bound (w + 511) 512 ltac:(lia)).
  pose proof (Z.div_mod (h + 511) 512 ltac:(lia)).
  pose proof (Z.mod_pos_bound (h + 511) 512 ltac:(lia)). lia.
Qed.

Lemma keyRow_Sprintf (r c : Z) :
  0 <= r <= Int.max_int -> 0 <= c <= Int.max_int ->
  keyRow (Fmt.Sprintf_d_d r c) = r.
Proof. intros Hr Hc. unfold keyRow. by rewrite Sscanf_Sprintf. Qed.

Lemma keyCol_Sprintf (r c : Z) :
  0 <= r <= Int.max_int -> 0 <= c <= Int.max_int ->
  keyCol (Fmt.Sprintf_d_d r c) = c.
Proof. intros Hr Hc. unfold keyCol. by rewrite Sscanf_Sprintf. Qed.

Section Canonical.

Variable env : Env.
Variable img : Image.
Variable d : Disk.
Variable st : Slicing.
Variables w h : Z.

Hypothesis Hb : Bounds img = Rect 0 0 w h.
Hypothesis Hs : sliceable w h.
Hypothesis Hvalid : forall x y, Color.valid (At img x y).
Hypothesis Hwrite : forall p, WriteOK env p = true.
Hypothesis Halloc :
  allocatable (gridCols (Bounds img) * tileSize) (gridRows (Bounds img) * tileSize).
Hypothesis Hrun : sliceLoop env img (emptySlicing d) = inl st.

Lemma canonical_fit : gridRows (Bounds img) * gridCols (Bounds img) <= Int.max_int.
Proof.
  destruct Halloc as (Hw & Hh & Hf). unfold tileSize, Int.max_int in *. nia.
Qed.

Lemma canonical_grid :
  0 < gridRows (Bounds img) <= Int.max_int /\
  0 < gridCols (Bounds img) <= Int.max_int /\
  w <= gridCols (Bounds img) * 512 <= 2 ^ 61 /\
  h <= gridRows (Bounds img) * 512 <= 2 ^ 61.
Proof.
  destruct (grid_positive w h Hs) as [Hrows Hcols].
  destruct (grid_covers w h Hs) as [Hcw Hch].
  pose proof (gridRows_range (Bounds img)) as [_ HR].
  pose proof (gridCols_range (Bounds img)) as [_ HC].
  destruct Halloc as (Hw & Hh & Hf). rewrite Hb in *.
  unfold tileSize, Int.max_int in *. repeat split; try lia; nia.
Qed.

(** The largest row and column of the canonical keys. *)
Lemma canonical_maxima :
  maxRowOf (solution st) = gridRows (Bounds img) - 1 /\
  maxColOf (solution st) = gridCols (Bounds img) - 1.
Proof.
  destruct (solution_entries env img d st w h Hb Hs Hwrite canonical_fit Hrun)
    as [Hcells Hent].
  destruct canonical_grid as ((Hr0 & HR) & (Hc0 & HC) & _).
  destruct (Hcells (gridRows (Bounds img) - 1) (gridCols (Bounds img) - 1))
    as [f0 Hf0]; [lia | lia |].
  pose proof (maxRowOf_bound (solution st) _ _ Hf0) as [HbR HbC].
  rewrite keyRow_Sprintf in HbR by lia. rewrite keyCol_Sprintf in HbC by lia.
  assert (forall p f, solution st !! p = Some f ->
            keyRow p < gridRows (Bounds img) /\ keyCol p < gridCols (Bounds img))
    as Hlt.
  { intros p f Hp.
    destruct (Hent _ _ Hp) as (r' & c' & _ & ? & ? & _ & ? & ? & _). lia. }
  destruct (maxRowOf_attained (solution st))
    as [[HaR | (p & f & Hp & HaR)] [HaC | (p' & f' & Hp' & HaC)]].
  - lia.
  - destruct (Hlt _ _ Hp'). lia.
  - destruct (Hlt _ _ Hp). lia.
  - destruct (Hlt _ _ Hp). destruct (Hlt _ _ Hp'). lia.
Qed.

(** Each canonical entry paints the rectangle of its cell with the pixels
    of the image. *)
Lemma canonical_paint (key f : string) :
  solution st !! key = Some f ->
  exists r c,
    0 <= r < gridRows (Bounds img) /\ 0 <= c < gridCols (Bounds img) /\
    key = Fmt.Sprintf_d_d r c /\
    paintRect (MkRectangle (Pt 0 0)
                 (Pt (gridCols (Bounds img) * tileSize)
                     (gridRows (Bounds img) * tileSize)))
      (disk st) (key, f) = tileRect (Bounds img) r c /\
    forall x y, PtIn x y (tileRect (Bounds img) r c) = true ->
      paintSource (MkRectangle (Pt 0 0)
                     (Pt (gridCols (Bounds img) * tileSize)
                         (gridRows (Bounds img) * tileSize)))
        (disk st) (key, f) x y = At img x y.
Proof.
  intros Hm.
  destruct (solution_entries env img d st w h Hb Hs Hwrite canonical_fit Hrun)
    as [_ Hent].
  destruct canonical_grid as (_ & _ & (_ & HW) & (_ & HH)).
  destruct (Hent _ _ Hm) as (r & c & tile & Hr & Hc & Hkey & Hkr & Hkc & Htile & Hload).
  destruct (decoded_tile img w h r c tile Hb Hs Hr Hc Htile) as (_ & Hsized & Hpix).
  exists r, c. split; [done |]. split; [done |]. split; [done |].
  destruct (paint_cell (gridCols (Bounds img) * tileSize)
              (gridRows (Bounds img) * tileSize) (disk st) key f
              (pngDecoded tile) _ _ Hload Hsized) as [Hrect Hsrc].
  { lia. } { lia. }
  { rewrite Hkc. unfold tileSize. lia. }
  { rewrite Hkr. unfold tileSize. lia. }
  rewrite Hrect, Hkr, Hkc.
  assert (tileRect (Bounds img) r c
          = MkRectangle (Pt (c * 512) (r * 512))
              (Pt (Z.min (c * 512 + 512) w) (Z.min (r * 512 + 512) h))) as Ht.
  { rewrite Hb. rewrite Hb in Hr, Hc. by apply tileRect_eq. }
  rewrite Ht. unfold tileSize. split.
  - do 2 f_equal; lia.
  - intros x y Hin. rewrite Hsrc, Hkr, Hkc. unfold tileSize.
    apply PtIn_spec in Hin. cbn [Min Max X Y] in Hin.
    rewrite Hpix by lia. f_equal; lia.
Qed.

Lemma canonical_cell_In (r c x y : Z) :
  0 <= r < gridRows (Bounds img) -> 0 <= c < gridCols (Bounds img) ->
  PtIn x y (tileRect (Bounds img) r c) = true <->
  (0 <= x < w /\ 0 <= y < h /\ x / 512 = c /\ y / 512 = r).
Proof. rewrite Hb. by apply tileRect_In. Qed.

Lemma canonical_image_In (x y : Z) :
  PtIn x y (Bounds img) = true <-> 0 <= x < w /\ 0 <= y < h.
Proof.
  destruct Hs as (Hw & Hh & _). rewrite Hb, Rect_origin by lia.
  rewrite PtIn_spec. cbn [Min Max X Y]. lia.
Qed.

(** A point of the image is painted by the entry of its cell and by no
    other. *)
Lemma canonical_inside (o2 : list (string * string)) (x y : Z) :
  rangeOrder (solution st) o2 ->
  PtIn x y (Bounds img) = true ->
  fold_left
    (paintPixel (MkRectangle (Pt 0 0)
                   (Pt (gridCols (Bounds img) * tileSize)
                       (gridRows (Bounds img) * tileSize))) (disk st) x y)
    o2 Color.transparent
  = At img x y.
Proof.
  intros H2 [Hx Hy]%canonical_image_In.
  destruct (solution_entries env img d st w h Hb Hs Hwrite canonical_fit Hrun)
    as [Hcells _].
  destruct canonical_grid as ((_ & HR) & (_ & HC) & (Hcw & _) & (Hch & _)).
  assert (0 <= y / 512 < gridRows (Bounds img) /\
          0 <= x / 512 < gridCols (Bounds img)) as [Hr0 Hc0].
  { split; (split; [apply Z.div_pos; lia | apply Z.div_lt_upper_bound; lia]). }
  destruct (Hcells _ _ Hr0 Hc0) as [f0 Hf0].
  destruct (canonical_paint _ _ Hf0) as (r & c & Hr & Hc & Hkey & Hrect & Hsrc).
  apply Sprintf_d_d_inj in Hkey as [<- <-]; [| lia ..].
  assert (PtIn x y (tileRect (Bounds img) (y / 512) (x / 512)) = true) as Hin0.
  { apply canonical_cell_In; [done | done |]. lia. }
  rewrite paintPixel_filter.
  match goal with
  | |- fold_left _ (filter ?P o2) _ = _ =>
      assert (filter P o2 = [(Fmt.Sprintf_d_d (y / 512) (x / 512), f0)]) as ->
  end.
  { match goal with |- filter ?P o2 = _ => set (P0 := P) end.
    assert ((Fmt.Sprintf_d_d (y / 512) (x / 512), f0) ∈ filter P0 o2) as He0.
    { apply list_elem_of_filter. split; [unfold P0; by rewrite Hrect |].
      rewrite H2. by apply elem_of_map_to_list. }
    assert (length (filter P0 o2) <= 1)%nat as Hlen.
    { apply filter_at_most_one.
      - rewrite H2. apply NoDup_map_to_list.
      - intros [k1 f1] [k2 f2] Hk1 Hk2 HP1 HP2.
        rewrite H2 in Hk1, Hk2.
        apply elem_of_map_to_list in Hk1, Hk2. unfold P0 in HP1, HP2.
        destruct (canonical_paint _ _ Hk1) as (r1 & c1 & Hr1 & Hc1 & -> & Hrect1 & _).
        destruct (canonical_paint _ _ Hk2) as (r2 & c2 & Hr2 & Hc2 & -> & Hrect2 & _).
        rewrite Hrect1 in HP1. rewrite Hrect2 in HP2.
        apply canonical_cell_In in HP1 as (_ & _ & <- & <-); [| done ..].
        apply canonical_cell_In in HP2 as (_ & _ & <- & <-); [| done ..].
        congruence. }
    destruct (filter P0 o2) as [| a [| b l]]; simpl in Hlen; [| | lia].
    - by apply elem_of_nil in He0.
    - by apply list_elem_of_singleton in He0 as ->. }
  cbn [fold_left]. unfold paintPixel.
  rewrite Hrect, Hin0, (Hsrc x y Hin0). by apply over_transparent.
Qed.

(** A point outside the image is painted by no entry. *)
Lemma canonical_outside (o2 : list (string * string)) (x y : Z) :
  rangeOrder (solution st) o2 ->
  PtIn x y (Bounds img) = false ->
  fold_left
    (paintPixel (MkRectangle (Pt 0 0)
                   (Pt (gridCols (Bounds img) * tileSize)
                       (gridRows (Bounds img) * tileSize))) (disk st) x y)
    o2 Color.transparent
  = Color.transparent.
Proof.
  intros H2 Hout. apply paintPixel_untouched. intros [key f] Hel.
  rewrite H2 in Hel. apply elem_of_map_to_list in Hel.
  destruct (canonical_paint _ _ Hel) as (r & c & Hr & Hc & _ & Hrect & _).
  rewrite Hrect. destruct (PtIn x y (tileRect (Bounds img) r c)) eqn:Hin; [| done].
  apply canonical_cell_In in Hin as (Hx & Hy & _); [| done ..].
  assert (PtIn x y (Bounds img) = true) by (by apply canonical_image_In).
  congruence.
Qed.

(** The canvas of the canonical solution and its pixels: those of the
    resized image over the image, transparent elsewhere. *)
Lemma compose_solution (o1 o2 : list (string * string)) :
  rangeOrder (solution st) o1 -> rangeOrder (solution st) o2 ->
  exists dst,
    compose (disk st) o1 o2 = Some dst /\
    Bounds dst = MkRectangle (Pt 0 0)
      (Pt (gridCols (Bounds img) * tileSize) (gridRows (Bounds img) * tileSize)) /\
    forall x y,
      At dst x y = if PtIn x y (Bounds img) then At img x y else Color.transparent.
Proof.
  intros H1 H2. destruct canonical_maxima as [HmaxR HmaxC].
  assert (maxColOf (solution st) + 1 = gridCols (Bounds img)) as HC by lia.
  assert (maxRowOf (solution st) + 1 = gridRows (Bounds img)) as HR by lia.
  destruct (compose_canvas (disk st) (solution st) o1 o2 H1) as (dst & Hc & HbD & Hat).
  { rewrite HC, HR. exact Halloc. }
  rewrite HC, HR in HbD.
  exists dst. split; [exact Hc |]. split; [exact HbD |].
  intros x y. rewrite Hat, HbD.
  destruct (PtIn x y (Bounds img)) eqn:Hin.
  - by apply canonical_inside.
  - by apply canonical_outside.
Qed.

End Canonical.







(** An image that passed [jpeg.Encode] has sides below 2^16: it can be
    sliced, and the canvas of its grid can be allocated. *)
Lemma encodable_sliceable (w h : Z) :
  0 < w < 2 ^ 16 -> 0 < h < 2 ^ 16 ->
  sliceable w h /\
  allocatable (gridCols (Rect 0 0 w h) * tileSize) (gridRows (Rect 0 0 w h) * tileSize).
Proof.
  intros Hw Hh.
  assert (sliceable w h) as Hs by (unfold sliceable, tileSize, Int.max_int; lia).
  split; [exact Hs |].
  destruct (grid_positive w h Hs) as [Hr Hc].
  rewrite gridRows_eq, gridCols_eq in * by done.
  assert ((w + 511) / 512 <= 128) by (apply Z.lt_succ_r, Z.div_lt_upper_bound; lia).
  assert ((h + 511) / 512 <= 128) by (apply Z.lt_succ_r, Z.div_lt_upper_bound; lia).
  unfold allocatable, tileSize, Int.max_int. nia.
Qed.

Lemma jpegEncodable_sides (img : Image) (w h : Z) :
  Bounds img = Rect 0 0 w h -> 0 < w <= Int.max_int -> 0 < h <= Int.max_int ->
  jpegEncodable img = true -> w < 2 ^ 16 /\ h < 2 ^ 16.
Proof.
  intros Hb Hw Hh. unfold jpegEncodable, Dx, Dy. rewrite Hb, Rect_origin by lia.
  cbn [Min Max X Y]. rewrite !sub_id by int_range.
  rewrite andb_true_iff, !Z.ltb_lt. lia.
Qed.



(** ** Failed writes *)

Example toSnakeCase_ex : toSnakeCase sampleEnv "My Puzzle-one" = "my__puzzle_one".
Proof. vm_compute. reflexivity. Qed.

(** C4. When the encoder cannot write a tile, or the manifest, the upload
    still answers [{"status": "ok"}] and leaves the file cut short: the
    results of [png.Encode] and of the manifest's [Encode] are dropped.
    The sibling paths do report: a failed write of [index.jpg] and a tile
    file that cannot be created both answer 500. *)
Theorem upload_ok_after_failed_write :
  let tile := uploadPuzzleHandler (failingWrite "pieces/image_0001.png")
                ∅ CatalogAbsent sampleUpload in
  let manifest := uploadPuzzleHandler (failingWrite "manifest.json")
                    ∅ CatalogAbsent sampleUpload in
  let preview := uploadPuzzleHandler (failingWrite "index.jpg")
                   ∅ CatalogAbsent sampleUpload in
  let create := uploadPuzzleHandler (failingCreate "pieces/image_0001.png")
                  ∅ CatalogAbsent sampleUpload in
  (responseOf tile = UploadOK /\ isCut (diskOf tile) "pieces/image_0001.png" = true) /\
  (responseOf manifest = UploadOK /\ isCut (diskOf manifest) "manifest.json" = true) /\
  responseOf preview = UploadError 500 "Error saving index.jpg" /\
  responseOf create = UploadError 500 "Error creating tile file".
Proof.
  cbv zeta. repeat split; vm_compute; reflexivity.
Qed.

(** ** A successful upload *)

Lemma forEach_inr {T S E : Type} (body : T -> S -> S + E) (l : list T) (s : S) (e : E) :
  forEach body l s = inr e -> exists t s', t ∈ l /\ body t s' = inr e.
Proof.
  revert s. induction l as [| t l IH]; intros s; [done |]. simpl.
  destruct (body t s) as [s' | e'] eqn:Hb.
  - intros (t' & s'' & Hin & Hb')%IH. exists t', s''.
    split; [by apply list_elem_of_further | done].
  - intros [= <-]. exists t, s. split; [apply list_elem_of_here | done].
Qed.

(** The slicing loop never leaves with a success: it is left on a tile
    file that cannot be created, or on a panic. *)
Lemma sliceLoop_inr (env : Env) (img : Image) (st : Slicing)
    (resp : UploadResponse) (d : Disk) :
  sliceLoop env img st = inr (resp, d) -> resp <> UploadOK.
Proof.
  rewrite sliceLoop_cells. unfold sliceCells.
  intros ([r c] & s' & _ & Hcell)%forEach_inr. cbn [fst snd] in Hcell.
  unfold sliceCell in Hcell. destruct (tileImage img r c); [| by injection Hcell as <- _].
  destruct (negb (CreateOK env _)); [by injection Hcell as <- _ | done].
Qed.

(** What an upload answered with [{"status": "ok"}] went through: the
    resized image passed [jpeg.Encode], the slicing loop ran to its end,
    and the manifest holds the pieces and the solution of the loop, unless
    its write failed. *)
Lemma upload_ok_inv (env : Env) (d d' : Disk) (cat cat' : Catalog)
    (req : UploadRequest) :
  uploadPuzzleHandler env d cat req = (UploadOK, d', cat') ->
  exists columns img st,
    Strconv.Atoi (formColumns req) = Some columns /\ 0 < columns /\
    formImage req = Some (Some img) /\
    let resizedImg :=
      Resize env (uint (targetWidth columns))
        (uint (targetHeight columns (Dx (Bounds img)) (Dy (Bounds img)))) img in
    jpegEncodable resizedImg = true /\
    sliceLoop env resizedImg
      (emptySlicing (<["index.jpg" := FileImage (JpegDecoded env resizedImg)]> d))
    = inl st /\
    d' = <["manifest.json" :=
             if WriteOK env "manifest.json"
             then FileManifest (pieces st) (solution st) else FileCut]> (disk st).
Proof.
  unfold uploadPuzzleHandler.
  destruct (negb (String.eqb (uploadMethod req) "POST")); [done |].
  destruct (negb (formOK req)); [done |].
  destruct (String.eqb (formName req) ""); [done |].
  destruct (Strconv.Atoi (formColumns req)) as [columns |]; [| done].
  destruct (Z.leb_spec columns 0) as [| Hpos]; [done |].
  destruct (formImage req) as [[img |] |]; [| done | done].
  destruct (negb (MkdirAllOK env)); [done |].
  destruct (negb (CreateOK env "index.jpg")); [done |].
  destruct (jpegEncodable _ && WriteOK env "index.jpg") eqn:Hjpeg; [| done].
  cbn [negb]. apply andb_true_iff in Hjpeg as [Hjpeg _].
  destruct (sliceLoop env _ _) as [st | [resp d2]] eqn:Hloop.
  - destruct (negb (CreateOK env "manifest.json")); [done |].
    destruct (updateCatalog env cat _) as [resp cat''].
    intros [= -> <- <-]. by exists columns, img, st.
  - intros [= -> <- <-]. by apply sliceLoop_inr in Hloop.
Qed.

(** The files of the tiles are not touched by the write of the manifest. *)
Lemma loadTile_manifest (d : Disk) (file : File) (filename : string) :
  loadTile (<["manifest.json" := file]> d) filename = loadTile d filename.
Proof. unfold loadTile. by rewrite lookup_insert_ne. Qed.

Lemma compose_loadTile_ext (d d' : Disk) (o1 o2 : list (string * string)) :
  (forall f, loadTile d f = loadTile d' f) -> compose d o1 o2 = compose d' o1 o2.
Proof.
  intros Hext. unfold compose. destruct (NewRGBA (canvasRect o1)) as [dst |]; [| done].
  f_equal. revert dst. induction o2 as [| [pos f] o2 IH]; intros dst; [done |].
  simpl. rewrite Hext. apply IH.
Qed.

(** The whole way: an upload answered with [{"status": "ok"}], every write
    having succeeded, leaves a manifest whose solution the Composer turns
    back into the pixels of the resized image. *)
Lemma upload_then_export (env : Env) (d d' : Disk) (cat cat' : Catalog)
    (req : UploadRequest) :
  uploadPuzzleHandler env d cat req = (UploadOK, d', cat') ->
  (forall p, WriteOK env p = true) ->
  exists resizedImg st,
    d' !! "manifest.json" = Some (FileManifest (pieces st) (solution st)) /\
    forall w h o1 o2,
      Bounds resizedImg = Rect 0 0 w h ->
      0 < w <= Int.max_int -> 0 < h <= Int.max_int ->
      (forall x y, Color.valid (At resizedImg x y)) ->
      rangeOrder (solution st) o1 -> rangeOrder (solution st) o2 ->
      exists dst,
        compose d' o1 o2 = Some dst /\
        forall x y,
          At dst x y
          = if PtIn x y (Bounds resizedImg) then At resizedImg x y
            else Color.transparent.
Proof.
  intros Hok Hwrite.
  apply upload_ok_inv in Hok
    as (columns & img & st & _ & _ & _ & Hjpeg & Hloop & ->).
  rewrite Hwrite. eexists _, st. split; [apply lookup_insert_eq |].
  intros w h o1 o2 Hb Hw Hh Hvalid H1 H2.
  destruct (jpegEncodable_sides _ w h Hb Hw Hh Hjpeg) as [Hw16 Hh16].
  destruct (encodable_sliceable w h) as [Hs Halloc]; [lia | lia |].
  rewrite <- Hb in Halloc.
  destruct (compose_solution env _ _ st w h Hb Hs Hvalid Hwrite Halloc Hloop
              o1 o2 H1 H2) as (dst & Hc & _ & Hat).
  exists dst. split; [| exact Hat].
  rewrite <- Hc. apply compose_loadTile_ext. intros f. apply loadTile_manifest.
Qed.

(** ** The effects of an upload *)

Lemma sliceCell_resp (env : Env) (img : Image) (r c : Z) (st : Slicing)
    (resp : UploadResponse) (d : Disk) :
  sliceCell env img r c st = inr (resp, d) ->
  (resp = UploadPanic \/ resp = UploadError 500 "Error creating tile file") /\
  d = disk st.
Proof.
  unfold sliceCell. destruct (tileImage img r c).
  - destruct (negb (CreateOK env _)); [| done]. intros [= <- <-]. by split; [right |].
  - intros [= <- <-]. by split; [left |].
Qed.

(** The slicing loop writes the files of its tiles and no other: a path
    that is not the path of a tile numbered from the pieces already cut up
    to the last cell keeps its file, whether the loop ends or is left. *)
Lemma sliceCells_frame (env : Env) (img : Image) (cells : list (Z * Z)) (path : string) :
  forall st,
  (forall i : nat, (length (pieces st) <= i < length (pieces st) + length cells)%nat ->
     path <> "pieces/" +:+ Fmt.Sprintf_image (Z.of_nat i)) ->
  match sliceCells env img cells st with
  | inl st' =>
      disk st' !! path = disk st !! path /\
      length (pieces st') = (length (pieces st) + length cells)%nat
  | inr (resp, d2) =>
      d2 !! path = disk st !! path /\
      (resp = UploadPanic \/ resp = UploadError 500 "Error creating tile file")
  end.
Proof.
  induction cells as [| [r c] cells IH]; intros st Hpath.
  - simpl. split; [done | lia].
  - unfold sliceCells. cbn [forEach fst snd].
    destruct (sliceCell env img r c st) as [st1 | [resp d2]] eqn:Hcell.
    + apply sliceCell_inl_disk in Hcell as [Hd Hlen].
      specialize (IH st1). unfold sliceCells in IH.
      assert (forall i : nat,
                (length (pieces st1) <= i < length (pieces st1) + length cells)%nat ->
                path <> "pieces/" +:+ Fmt.Sprintf_image (Z.of_nat i)) as Hpath1.
      { intros i Hi. apply Hpath. simpl. lia. }
      specialize (IH Hpath1).
      assert (disk st1 !! path = disk st !! path) as Hstep.
      { rewrite Hd. apply lookup_insert_ne. intros Heq. symmetry in Heq. revert Heq.
        apply Hpath. simpl. lia. }
      destruct (forEach _ cells st1) as [st' | [resp d2]].
      * destruct IH as [IHd IHl]. split; [congruence | simpl; lia].
      * destruct IH as [IHd IHr]. split; [congruence | done].
    + apply sliceCell_resp in Hcell as [Hresp ->]. by split.
Qed.

Lemma updateCatalog_spec (env : Env) (cat cat' : Catalog) (e : CatalogEntry)
    (resp : UploadResponse) :
  updateCatalog env cat e = (resp, cat') ->
  (resp = UploadOK /\
   exists old, (cat = CatalogAbsent /\ old = [] \/ cat = CatalogDoc old) /\
               cat' = CatalogDoc (old ++ [e])) \/
  ((resp = UploadError 500 "Error reading imageIndex.json" \/
    resp = UploadError 500 "Error parsing imageIndex.json" \/
    resp = UploadError 500 "Error writing imageIndex.json") /\ cat' = cat).
Proof.
  unfold updateCatalog. destruct cat as [| | | old].
  - destruct (CatalogWriteOK env); intros [= <- <-].
    + left. split; [done |]. exists []. split; [by left | done].
    + right. split; [by right; right | done].
  - intros [= <- <-]. right. split; [by left | done].
  - intros [= <- <-]. right. split; [by right; left | done].
  - destruct (CatalogWriteOK env); intros [= <- <-].
    + left. split; [done |]. exists old. split; [by right | done].
    + right. split; [by right; right | done].
Qed.

(** Every way through the handler, by its response. *)
Lemma upload_cases (env : Env) (d d' : Disk) (cat cat' : Catalog)
    (req : UploadRequest) (resp : UploadResponse) :
  uploadPuzzleHandler env d cat req = (resp, d', cat') ->
  (* refused before anything is written *)
  ((exists code msg, resp = UploadError code msg /\ (code = 400 \/ code = 405)) /\
   d' = d /\ cat' = cat) \/
  (* the directory or the preview cannot be written *)
  ((resp = UploadError 500 "Error creating puzzle directory" \/
    resp = UploadError 500 "Error creating index.jpg" \/
    resp = UploadError 500 "Error saving index.jpg") /\ cat' = cat /\
   (d' = d \/ d' = <["index.jpg" := FileCut]> d)) \/
  (* the slicing loop was entered *)
  (exists resizedImg,
     resizedOf env req = Some resizedImg /\
     jpegEncodable resizedImg = true /\
     let d1 := <["index.jpg" := FileImage (JpegDecoded env resizedImg)]> d in
     match sliceLoop env resizedImg (emptySlicing d1) with
     | inr (resp2, d2) => resp = resp2 /\ d' = d2 /\ cat' = cat
     | inl st =>
         (resp = UploadError 500 "Error creating manifest.json" /\
          d' = disk st /\ cat' = cat) \/
         (d' = <["manifest.json" :=
                   if WriteOK env "manifest.json"
                   then FileManifest (pieces st) (solution st) else FileCut]> (disk st) /\
          updateCatalog env cat
            {| entryName := formName req;
               entryFolder := toSnakeCase env (formName req);
               entryRows := gridRows (Bounds resizedImg);
               entryCols := gridCols (Bounds resizedImg);
               entryTl := "image_0000.png" |} = (resp, cat'))
     end).
Proof.
  unfold uploadPuzzleHandler, resizedOf.
  destruct (negb (String.eqb (uploadMethod req) "POST"));
    [intros [= <- <- <-]; left; split; [by eexists _, _; split; [| right] | done] |].
  destruct (negb (formOK req));
    [intros [= <- <- <-]; left; split; [by eexists _, _; split; [| left] | done] |].
  destruct (String.eqb (formName req) "");
    [intros [= <- <- <-]; left; split; [by eexists _, _; split; [| left] | done] |].
  destruct (Strconv.Atoi (formColumns req)) as [columns |];
    [| intros [= <- <- <-]; left; split; [by eexists _, _; split; [| left] | done]].
  destruct (columns <=? 0);
    [intros [= <- <- <-]; left; split; [by eexists _, _; split; [| left] | done] |].
  destruct (formImage req) as [[img |] |];
    [| intros [= <- <- <-]; left; split; [by eexists _, _; split; [| left] | done]
     | intros [= <- <- <-]; left; split; [by eexists _, _; split; [| left] | done]].
  destruct (negb (MkdirAllOK env));
    [intros [= <- <- <-]; right; left; split; [by left |]; split; [done | by left] |].
  destruct (negb (CreateOK env "index.jpg"));
    [intros [= <- <- <-]; right; left; split; [by right; left |];
     split; [done | by left] |].
  destruct (jpegEncodable _ && WriteOK env "index.jpg") eqn:Hjpeg; cbn [negb];
    [| intros [= <- <- <-]; right; left; split; [by right; right |];
       split; [done | by right]].
  apply andb_true_iff in Hjpeg as [Hjpeg _].
  intros Hrest. right. right. eexists. split; [reflexivity |]. split; [exact Hjpeg |].
  cbv zeta. destruct (sliceLoop env _ _) as [st | [resp2 d2]].
  - destruct (negb (CreateOK env "manifest.json")).
    + injection Hrest as <- <- <-. by left.
    + right. destruct (updateCatalog env cat _) as [resp3 cat3].
      by injection Hrest as <- <- <-.
  - by injection Hrest as <- <- <-.
Qed.

Lemma tile_path_neq_index (n : Z) : "index.jpg" <> "pieces/" +:+ Fmt.Sprintf_image n.
Proof. unfold Fmt.Sprintf_image. cbn. discriminate. Qed.

Lemma tile_path_neq_manifest (n : Z) : "manifest.json" <> "pieces/" +:+ Fmt.Sprintf_image n.
Proof. unfold Fmt.Sprintf_image. cbn. discriminate. Qed.

(** What the slicing loop leaves, whether it ends or is left: a response
    other than a success when it is left, and the files that are not tiles
    as they were. *)
Lemma sliceLoop_frame (env : Env) (img : Image) (d : Disk) (path : string) :
  (forall i : nat, path <> "pieces/" +:+ Fmt.Sprintf_image (Z.of_nat i)) ->
  match sliceLoop env img (emptySlicing d) with
  | inl st => disk st !! path = d !! path
  | inr (resp, d2) =>
      d2 !! path = d !! path /\
      (resp = UploadPanic \/ resp = UploadError 500 "Error creating tile file")
  end.
Proof.
  intros Hpath. rewrite sliceLoop_cells.
  pose proof (sliceCells_frame env img (gridCells (Bounds img)) path (emptySlicing d)
                (fun i _ => Hpath i)) as H.
  destruct (sliceCells _ _ _ _) as [st | [resp d2]]; [by destruct H | done].
Qed.

(** X1. A request answered with a client error (400 or 405) has had no
    effect: the puzzle directory and the catalog are as before. *)
Theorem upload_refusal_no_effect (env : Env) (d d' : Disk) (cat cat' : Catalog)
    (req : UploadRequest) (code : Z) (msg : string) :
  uploadPuzzleHandler env d cat req = (UploadError code msg, d', cat') ->
  code = 400 \/ code = 405 ->
  d' = d /\ cat' = cat.
Proof.
  intros Hrun Hcode.
  apply upload_cases in Hrun
    as [(_ & Hd & Hc) | [([[= -> _] | [[= -> _] | [= -> _]]] & _)
                        | (img & _ & _ & Hloop)]];
    [done | lia | lia | lia |].
  exfalso. cbv zeta in Hloop.
  pose proof (sliceLoop_frame env img
                (<["index.jpg" := FileImage (JpegDecoded env img)]> d)
                "index.jpg" (fun i => tile_path_neq_index _)) as Hframe.
  destruct (sliceLoop env img _) as [st | [resp2 d2]].
  - destruct Hloop as [([= -> _] & _) | (_ & Hcat)]; [lia |].
    apply updateCatalog_spec in Hcat
      as [[[=] _] | [[[= -> _] | [[= -> _] | [= -> _]]] _]]; lia.
  - destruct Hloop as (<- & _). destruct Hframe as [_ [[=] | [= -> _]]]. lia.
Qed.

Lemma upload_refusal_no_effect_witness :
  uploadPuzzleHandler sampleEnv sampleTiles CatalogMalformed
    {| uploadMethod := "POST"; formOK := true; formName := "p";
       formColumns := " 4"; formImage := Some (Some sourceImage) |}
  = (UploadError 400 "Invalid number of columns", sampleTiles, CatalogMalformed).
Proof.
  destruct (uploadPuzzleHandler sampleEnv sampleTiles CatalogMalformed
              {| uploadMethod := "POST"; formOK := true; formName := "p";
                 formColumns := " 4"; formImage := Some (Some sourceImage) |})
    as [[resp d'] cat'] eqn:Hrun.
  assert (resp = UploadError 400 "Invalid number of columns") as ->.
  { change resp with (responseOf (resp, d', cat')). rewrite <- Hrun.
    vm_compute. reflexivity. }
  destruct (upload_refusal_no_effect _ _ _ _ _ _ _ _ Hrun) as [-> ->];
    [by left | reflexivity].
Defined.



Lemma upload_result_eta (r : UploadResponse * Disk * Catalog) (resp : UploadResponse) :
  responseOf r = resp -> r = (resp, diskOf r, r.2).
Proof. destruct r as [[resp0 d0] cat0]. unfold responseOf, diskOf. simpl. by intros ->. Qed.

(** The first tile of a slicing loop that ran to its end. *)
Lemma first_tile (env : Env) (img : Image) (d : Disk) (st : Slicing) :
  sliceLoop env img (emptySlicing d) = inl st ->
  (0 < gridRows (Bounds img) -> 0 < gridCols (Bounds img) ->
     solution st !! "0,0" = Some "image_0000.png" /\
     pieces st !! 0%nat = Some "image_0000.png") /\
  (gridRows (Bounds img) <= 0 \/ gridCols (Bounds img) <= 0 ->
     pieces st = [] /\ solution st = ∅).
Proof.
  intros Hrun. rewrite sliceLoop_cells in Hrun. split.
  - intros Hr Hc.
    pose proof (gridCells_lookup (Bounds img) 0 0 ltac:(lia) ltac:(lia)) as Hl.
    change (Z.to_nat (0 * gridCols (Bounds img) + 0)) with 0%nat in Hl.
    apply sliceCells_manifest in Hrun as [Hp Hs]; [| apply gridCells_keys_inj].
    split.
    + apply Hs. exists 0%nat, (0, 0). split; [exact Hl |]. split; reflexivity.
    + rewrite Hp, list_lookup_fmap.
      rewrite lookup_seq_lt by (by apply lookup_lt_Some in Hl). reflexivity.
  - intros Hempty.
    assert (gridCells (Bounds img) = []) as Hnil.
    { apply length_zero_iff_nil. rewrite gridCells_length.
      destruct Hempty as [H | H];
        [rewrite (Z2Nat.nonpos (gridRows _)) by lia
        | rewrite (Z2Nat.nonpos (gridCols _)) by lia]; lia. }
    rewrite Hnil in Hrun. by injection Hrun as <-.
Qed.

(** X3. The catalog entry of a successful upload names [image_0000.png] as
    the top-left tile. When the grid has a row and a column, that is the
    tile the manifest gives to the cell ["0,0"] and the first piece. When
    the resized image leaves no row or no column, the manifest is empty and
    the entry names a tile that was never cut. *)
Theorem catalog_tl_top_left (env : Env) (d d' : Disk) (cat cat' : Catalog)
    (req : UploadRequest) :
  uploadPuzzleHandler env d cat req = (UploadOK, d', cat') ->
  WriteOK env "manifest.json" = true ->
  exists old e pcs sol,
    cat' = CatalogDoc (old ++ [e]) /\
    d' !! "manifest.json" = Some (FileManifest pcs sol) /\
    (0 < entryRows e -> 0 < entryCols e ->
       sol !! "0,0" = Some (entryTl e) /\ pcs !! 0%nat = Some (entryTl e)) /\
    (entryRows e <= 0 \/ entryCols e <= 0 -> pcs = [] /\ sol = ∅).
Proof.
  intros Hrun Hwrite.
  apply upload_cases in Hrun
    as [((c & m & [=] & _) & _) | [([[=] | [[=] | [=]]] & _) | (img & _ & _ & Hloop)]].
  cbv zeta in Hloop.
  pose proof (sliceLoop_frame env img
                (<["index.jpg" := FileImage (JpegDecoded env img)]> d)
                "index.jpg" (fun i => tile_path_neq_index _)) as Hframe.
  destruct (sliceLoop env img _) as [st | [resp2 d2]] eqn:Hrun.
  - destruct Hloop as [([=] & _) | (-> & Hcat)].
    apply updateCatalog_spec in Hcat
      as [[_ (old & _ & ->)] | [[[=] | [[=] | [=]]] _]].
    destruct (first_tile _ _ _ _ Hrun) as [Hfirst Hnone].
    eexists old, _, (pieces st), (solution st). split; [reflexivity |].
    rewrite Hwrite. split; [apply lookup_insert_eq |]. by split.
  - destruct Hloop as (<- & _). by destruct Hframe as [_ [? | ?]].
Qed.

Lemma catalog_tl_top_left_witness :
  exists d' old e pcs sol,
    uploadPuzzleHandler sampleEnv ∅ CatalogAbsent sampleUpload
    = (UploadOK, d', CatalogDoc (old ++ [e])) /\
    d' !! "manifest.json" = Some (FileManifest pcs sol) /\
    (0 < entryRows e -> 0 < entryCols e -> sol !! "0,0" = Some (entryTl e)).
Proof.
  pose proof (upload_result_eta
                (uploadPuzzleHandler sampleEnv ∅ CatalogAbsent sampleUpload) UploadOK
                ltac:(vm_compute; reflexivity)) as Hrun.
  destruct (catalog_tl_top_left _ _ _ _ _ _ Hrun eq_refl)
    as (old & e & pcs & sol & Hcat & Hman & Hfirst & _).
  exists (diskOf (uploadPuzzleHandler sampleEnv ∅ CatalogAbsent sampleUpload)),
    old, e, pcs, sol.
  split; [rewrite <- Hcat; exact Hrun |]. split; [exact Hman |].
  intros Hr Hc. exact (proj1 (Hfirst Hr Hc)).
Defined.



(** X5. The tiles of an earlier upload are not cleared away: after a
    successful upload that cut [n] pieces, a tile file numbered [n] or
    more is the file that was there before. *)
Theorem stale_tiles_survive (env : Env) (d d' : Disk) (cat cat' : Catalog)
    (req : UploadRequest) :
  uploadPuzzleHandler env d cat req = (UploadOK, d', cat') ->
  exists st,
    d' !! "manifest.json"
    = Some (if WriteOK env "manifest.json"
            then FileManifest (pieces st) (solution st) else FileCut) /\
    forall n : nat,
      (length (pieces st) <= n)%nat -> Z.of_nat n <= Int.max_int ->
      d' !! ("pieces/" +:+ Fmt.Sprintf_image (Z.of_nat n))
      = d !! ("pieces/" +:+ Fmt.Sprintf_image (Z.of_nat n)).
Proof.
  intros Hrun.
  apply upload_cases in Hrun
    as [((c & m & [=] & _) & _) | [([[=] | [[=] | [=]]] & _) | (img & _ & _ & Hloop)]].
  cbv zeta in Hloop. rewrite sliceLoop_cells in Hloop.
  destruct (sliceCells env img _ _) as [st | [resp2 d2]] eqn:Hcells.
  - destruct Hloop as [([=] & _) | (-> & _)]. exists st.
    split; [apply lookup_insert_eq |]. intros n Hn Hmax.
    rewrite lookup_insert_ne by apply tile_path_neq_manifest.
    pose proof (sliceCells_frame env img (gridCells (Bounds img))
                  ("pieces/" +:+ Fmt.Sprintf_image (Z.of_nat n))
                  (emptySlicing (<["index.jpg" := FileImage (JpegDecoded env img)]> d)))
      as Hframe.
    rewrite Hcells in Hframe. cbn [emptySlicing pieces disk length] in Hframe.
    assert (length (pieces st) = length (gridCells (Bounds img))) as Hlen.
    { pose proof (sliceCells_frame env img (gridCells (Bounds img)) "index.jpg"
                    (emptySlicing (<["index.jpg" := FileImage (JpegDecoded env img)]> d))
                    (fun i _ => tile_path_neq_index _)) as Hidx.
      rewrite Hcells in Hidx. exact (proj2 Hidx). }
    destruct Hframe as [Hd _].
    + intros i Hi Heq%pieces_path_inj. apply Sprintf_image_inj in Heq; lia.
    + rewrite Hd. apply lookup_insert_ne. apply tile_path_neq_index.
  - destruct Hloop as (<- & _).
    pose proof (sliceCells_frame env img (gridCells (Bounds img)) "index.jpg"
                  (emptySlicing (<["index.jpg" := FileImage (JpegDecoded env img)]> d))
                  (fun i _ => tile_path_neq_index _)) as Hframe.
    rewrite Hcells in Hframe. by destruct Hframe as [_ [? | ?]].
Qed.

Lemma stale_tiles_survive_witness :
  exists d' cat',
    uploadPuzzleHandler sampleEnv {["pieces/image_0099.png" := FileCut]}
      CatalogAbsent sampleUpload = (UploadOK, d', cat') /\
    d' !! "pieces/image_0099.png" = Some FileCut.
Proof.
  set (d0 := ({["pieces/image_0099.png" := FileCut]} : Disk)).
  pose proof (upload_result_eta
                (uploadPuzzleHandler sampleEnv d0 CatalogAbsent sampleUpload) UploadOK
                ltac:(vm_compute; reflexivity)) as Hrun.
  destruct (stale_tiles_survive _ _ _ _ _ _ Hrun) as (st & Hman & Hstale).
  assert (match diskOf (uploadPuzzleHandler sampleEnv d0 CatalogAbsent sampleUpload)
                  !! "manifest.json" with
          | Some (FileManifest p _) => length p
          | _ => 0%nat
          end = 4%nat) as Hlen by (vm_compute; reflexivity).
  rewrite Hman in Hlen. cbn in Hlen.
  eexists _, _. split; [exact Hrun |].
  assert ("pieces/" +:+ Fmt.Sprintf_image (Z.of_nat 99) = "pieces/image_0099.png")
    as Hname by (vm_compute; reflexivity).
  rewrite <- Hname.
  rewrite (Hstale 99%nat); [| lia | unfold Int.max_int; lia].
  rewrite Hname. vm_compute. reflexivity.
Defined.

(** X6. When a tile file cannot be created the upload answers 500 and
    stops: the manifest file and the catalog are as they were, while the
    preview has already been written. *)
Theorem tile_create_failure_stops (env : Env) (d d' : Disk) (cat cat' : Catalog)
    (req : UploadRequest) :
  uploadPuzzleHandler env d cat req
  = (UploadError 500 "Error creating tile file", d', cat') ->
  cat' = cat /\
  d' !! "manifest.json" = d !! "manifest.json" /\
  exists img, d' !! "index.jpg" = Some (FileImage img).
Proof.
  intros Hrun.
  apply upload_cases in Hrun
    as [((c & m & [= <- _] & [? | ?]) & _)
       | [([[=] | [[=] | [=]]] & _) | (img & _ & _ & Hloop)]]; [lia | lia |].
  cbv zeta in Hloop.
  pose proof (sliceLoop_frame env img
                (<["index.jpg" := FileImage (JpegDecoded env img)]> d)
                "manifest.json" (fun i => tile_path_neq_manifest _)) as Hman.
  pose proof (sliceLoop_frame env img
                (<["index.jpg" := FileImage (JpegDecoded env img)]> d)
                "index.jpg" (fun i => tile_path_neq_index _)) as Hidx.
  destruct (sliceLoop env img _) as [st | [resp2 d2]].
  - destruct Hloop as [([=] & _) | (_ & Hcat)].
    apply updateCatalog_spec in Hcat as [[[=] _] | [[[=] | [[=] | [=]]] _]].
  - destruct Hloop as (_ & -> & ->). split; [done |].
    destruct Hman as [Hman _]. destruct Hidx as [Hidx _]. split.
    + rewrite Hman. by apply lookup_insert_ne.
    + eexists. rewrite Hidx. apply lookup_insert_eq.
Qed.

Lemma tile_create_failure_stops_witness :
  exists d',
    uploadPuzzleHandler (failingCreate "pieces/image_0001.png") ∅ CatalogAbsent
      sampleUpload
    = (UploadError 500 "Error creating tile file", d', CatalogAbsent) /\
    d' !! "manifest.json" = None.
Proof.
  pose proof (upload_result_eta
                (uploadPuzzleHandler (failingCreate "pieces/image_0001.png") ∅
                   CatalogAbsent sampleUpload)
                (UploadError 500 "Error creating tile file")
                ltac:(vm_compute; reflexivity)) as Hrun.
  destruct (tile_create_failure_stops _ _ _ _ _ _ Hrun) as (Hcat & Hman & _).
  eexists. split; [rewrite <- Hcat; exact Hrun |]. rewrite Hman. reflexivity.
Defined.

(** ** The grid of the resized image *)

(** X7. The resize target is [tileSize * columns] wide, so an image of
    that width is cut into exactly [columns] columns and every tile of it
    is a full [tileSize] wide: only the last row can be clipped. *)
Theorem columns_honoured (columns h r c : Z) :
  0 < columns -> tileSize * columns + tileSize <= Int.max_int ->
  0 < h -> h + tileSize <= Int.max_int ->
  gridCols (Rect 0 0 (targetWidth columns) h) = columns /\
  (0 <= r < gridRows (Rect 0 0 (targetWidth columns) h) -> 0 <= c < columns ->
   Dx (tileRect (Rect 0 0 (targetWidth columns) h) r c) = tileSize).
Proof.
  intros Hc Hmax Hh Hhmax.
  assert (targetWidth columns = 512 * columns) as ->
    by (unfold targetWidth; apply mul_id; int_range).
  assert (sliceable (512 * columns) h) as Hs by (unfold sliceable; int_range).
  assert (gridCols (Rect 0 0 (512 * columns) h) = columns) as Hcols.
  { rewrite gridCols_eq by done. symmetry.
    apply (Z.div_unique _ _ _ 511); lia. }
  split; [exact Hcols |]. intros Hr Hc'.
  rewrite tileRect_eq by (done || rewrite Hcols; done).
  unfold Dx. cbn [Min Max X Y]. rewrite sub_id by int_range. unfold tileSize. lia.
Qed.

Lemma columns_honoured_witness :
  gridCols (Rect 0 0 (targetWidth 4) 1365) = 4 /\
  Dx (tileRect (Rect 0 0 (targetWidth 4) 1365) 2 3) = tileSize.
Proof.
  destruct (columns_honoured 4 1365 2 3) as [Hcols Hdx];
    [lia | unfold tileSize, Int.max_int; lia | lia | unfold tileSize, Int.max_int; lia |].
  split; [exact Hcols |]. apply Hdx; [| lia].
  assert (gridRows (Rect 0 0 (targetWidth 4) 1365) = 3) as -> by (vm_compute; reflexivity).
  lia.
Defined.

Lemma empty_grid (w h : Z) :
  0 <= w -> 0 <= h -> w = 0 \/ h = 0 -> gridCells (Rect 0 0 w h) = [].
Proof.
  intros Hw Hh Hz. apply length_zero_iff_nil. rewrite gridCells_length.
  rewrite Rect_origin by done. unfold gridRows, gridCols. cbn [Min Max X Y].
  destruct Hz as [-> | ->].
  - assert (Int.quo (Int.sub (Int.add 0 tileSize) 1) tileSize = 0) as ->
      by (vm_compute; reflexivity). lia.
  - assert (Int.quo (Int.sub (Int.add 0 tileSize) 1) tileSize = 0) as ->
      by (vm_compute; reflexivity). lia.
Qed.

Lemma sliceCell_panic (env : Env) (img : Image) (r c : Z) (st : Slicing) (d : Disk) :
  sliceCell env img r c st = inr (UploadPanic, d) -> tileImage img r c = None.
Proof.
  unfold sliceCell. destruct (tileImage img r c); [| done].
  destruct (negb (CreateOK env _)); discriminate.
Qed.

Lemma grid_nonempty (w h : Z) (rc : Z * Z) :
  0 <= w -> 0 <= h -> rc ∈ gridCells (Rect 0 0 w h) -> 0 < w /\ 0 < h.
Proof.
  intros Hw Hh Hin.
  destruct (Z.eq_dec w 0) as [-> | ?].
  { rewrite empty_grid in Hin by (lia || by left). by apply elem_of_nil in Hin. }
  destruct (Z.eq_dec h 0) as [-> | ?].
  { rewrite empty_grid in Hin by (lia || by right). by apply elem_of_nil in Hin. }
  lia.
Qed.

Lemma sliceCells_no_panic (env : Env) (img : Image) (st : Slicing)
    (resp : UploadResponse) (d2 : Disk) :
  resizedBounds img ->
  sliceCells env img (gridCells (Bounds img)) st = inr (resp, d2) ->
  resp <> UploadPanic.
Proof.
  intros (w & h & Hb & Hw & Hh & Hwm & Hhm) Hcells ->. unfold sliceCells in Hcells.
  apply forEach_inr in Hcells as ([r c] & s' & Hin & Hcell).
  change (sliceCell env img r c s' = inr (UploadPanic, d2)) in Hcell.
  apply sliceCell_panic in Hcell.
  pose proof Hin as Hpos. rewrite Hb in Hpos. apply grid_nonempty in Hpos; [| lia ..].
  apply gridCells_elem in Hin as [Hr Hc].
  destruct (tileImage_spec img w h r c Hb ltac:(unfold sliceable; lia) Hr Hc)
    as (tile & Htile & _).
  rewrite Htile in Hcell. discriminate.
Qed.

(** X8. The handler does not panic: for a resized image with its corner
    at the origin, every tile rectangle is at most [tileSize] square and
    [image.NewRGBA] accepts it, so an upload is answered with a success or
    with an error status. *)
Theorem upload_never_panics (env : Env) (d d' : Disk) (cat cat' : Catalog)
    (req : UploadRequest) (resp : UploadResponse) :
  (forall img, resizedOf env req = Some img -> resizedBounds img) ->
  uploadPuzzleHandler env d cat req = (resp, d', cat') ->
  resp <> UploadPanic.
Proof.
  intros Hbounds Hrun.
  apply upload_cases in Hrun
    as [((c & m & -> & _) & _) | [([-> | [-> | ->]] & _) | (img & Himg & _ & Hloop)]];
    [discriminate .. |].
  cbv zeta in Hloop. rewrite sliceLoop_cells in Hloop.
  destruct (sliceCells _ _ _ _) as [st | [resp2 d2]] eqn:Hcells.
  - destruct Hloop as [(-> & _) | (_ & Hcat)]; [discriminate |].
    apply updateCatalog_spec in Hcat as [[-> _] | [[-> | [-> | ->]] _]]; discriminate.
  - destruct Hloop as (-> & _).
    exact (sliceCells_no_panic _ _ _ _ _ (Hbounds img Himg) Hcells).
Qed.

Lemma upload_never_panics_witness :
  responseOf (uploadPuzzleHandler (failingCreate "pieces/image_0002.png") ∅
                CatalogAbsent sampleUpload) <> UploadPanic.
Proof.
  destruct (uploadPuzzleHandler (failingCreate "pieces/image_0002.png") ∅
              CatalogAbsent sampleUpload) as [[resp d'] cat'] eqn:Hrun.
  refine (upload_never_panics _ _ _ _ _ _ _ (fun img Himg => _) Hrun).
  unfold resizedOf in Himg.
  change (Strconv.Atoi (formColumns sampleUpload)) with (Some 2) in Himg.
  cbn [formImage sampleUpload] in Himg. injection Himg as <-.
  exists 1024, 682. cbn [Resize failingCreate sampleEnv Bounds].
  split; [| unfold tileSize, Int.max_int; lia].
  assert (uint (targetWidth 2) = 1024) as -> by (vm_compute; reflexivity).
  match goal with
  | |- context [uint (targetHeight ?c ?w ?h)] =>
      assert (uint (targetHeight c w h) = 682) as -> by (vm_compute; reflexivity)
  end.
  reflexivity.
Defined.

(** ** Keys of the solution map, printed and scanned *)

Lemma digits_spec_wide (u : Z) :
  0 <= u <= - Int.min_int -> digitsOf u (Strconv.digits u).
Proof.
  intros Hu. unfold Strconv.digits.
  destruct (formatBits_spec 19 u []) as (ds & Heq & Hds).
  { unfold Int.min_int in Hu. split; [lia |].
    change (10 ^ Z.of_nat 20) with 100000000000000000000. lia. }
  rewrite Heq, app_nil_r. exact Hds.
Qed.

Lemma ParseInt_minus (ds : list Z) (u : Z) :
  ds <> [] -> Strconv.parseDigits 0 ds = Some u -> 0 < u <= - Int.min_int ->
  Strconv.ParseInt (45 :: ds) = Some (- u).
Proof.
  intros Hne Hparse Hu. destruct ds as [| b ds]; [done |].
  unfold Strconv.ParseInt. cbv iota beta zeta. rewrite Hparse.
  assert ((Int.min_int <=? - u) && (- u <=? Int.max_int) = true) as ->; [| done].
  apply andb_true_iff. unfold Int.min_int, Int.max_int in *.
  split; apply Z.leb_le; lia.
Qed.

(** Scanning what [Itoa] prints gives the number back, negative numbers
    and the least [int] included. *)
Lemma scanInt_Itoa (n : Z) (rest : list Z) :
  Int.in_range n ->
  match rest with [] => True | b :: _ => Strconv.is_digit b = false end ->
  Fmt.scanInt ((Strconv.byte_of <$> Strconv.Itoa n) ++ rest) = Some (n, rest).
Proof.
  intros [Hlo Hhi] Hrest. unfold Strconv.Itoa. destruct (Z.ltb_spec n 0) as [Hneg | Hpos].
  2: by apply scanInt_digits.
  destruct (digits_spec_wide (- n) ltac:(lia)) as (Hne & Hall & Hparse).
  assert (Forall (fun b => Strconv.is_digit b = true)
            (Strconv.byte_of <$> Strconv.digits (- n))) as Hall'.
  { apply Forall_fmap. exact Hall. }
  rewrite fmap_cons. change (Strconv.byte_of "-"%char) with 45.
  remember (Strconv.byte_of <$> Strconv.digits (- n)) as ds eqn:Hds.
  assert (ds <> []) as Hne' by (subst ds; by destruct (Strconv.digits (- n))).
  unfold Fmt.scanInt.
  change (Fmt.SkipSpace ((45 :: ds) ++ rest)) with (Some (45 :: (ds ++ rest))).
  cbn [Z.eqb Pos.eqb orb]. cbv iota beta.
  rewrite (acceptDigits_run ds rest Hall' Hrest).
  destruct ds as [| b ds']; [done |]. cbv iota beta.
  change ([45] ++ b :: ds') with (45 :: b :: ds').
  rewrite (ParseInt_minus (b :: ds') (- n) Hne').
  - by rewrite Z.opp_involutive.
  - rewrite Hparse. f_equal; lia.
  - lia.
Qed.

Lemma Itoa_bytes_ascii (n : Z) :
  Int.in_range n -> Forall (fun b => b < 128) (Strconv.byte_of <$> Strconv.Itoa n).
Proof.
  intros [Hlo Hhi]. unfold Strconv.Itoa. destruct (Z.ltb_spec n 0).
  - rewrite fmap_cons. constructor; [done |].
    destruct (digits_spec_wide (- n) ltac:(lia)) as (_ & Hall & _).
    apply Forall_fmap. eapply Forall_impl; [exact Hall |].
    intros d Hd%is_digit_range. simpl. lia.
  - by apply digits_bytes_ascii.
Qed.

Lemma decode_ascii_app (l rest : list Z) :
  Forall (fun b => b < 128) l -> Utf8.decode (l ++ rest) = l ++ Utf8.decode rest.
Proof.
  induction 1 as [| b l Hb _ IH]; [done |]. cbn [app Utf8.decode].
  destruct (Z.ltb_spec b 128); [by rewrite IH | lia].
Qed.

Lemma land_low (b : Z) (k : Z) : 0 <= k -> Z.land b (Z.ones k) = b mod 2 ^ k.
Proof. intros Hk. by apply Z.land_ones. Qed.

(** A rune decoded from a sequence of two bytes or more, and the rune put
    for a malformed one, is no ASCII character. *)
Lemma decode_head (s : list Z) :
  match s with [] => True | b :: _ => Strconv.is_digit b = false end ->
  match Utf8.decode s with [] => True | r :: _ => Strconv.is_digit r = false end.
Proof.
  destruct s as [| b0 t]; [done |]. intros Hb0. cbn [Utf8.decode].
  destruct (Z.ltb_spec b0 128) as [| Hhigh]; [done |].
  assert (forall r, 128 <= r -> Strconv.is_digit r = false) as Hnot.
  { intros r Hr. unfold Strconv.is_digit.
    destruct (Z.leb_spec r 57); [lia | by rewrite andb_false_r]. }
  assert (Strconv.is_digit Utf8.RuneError = false) as Herr by reflexivity.
  pose proof (land_low b0 5 ltac:(lia)) as H31.
  pose proof (land_low b0 4 ltac:(lia)) as H15.
  pose proof (land_low b0 3 ltac:(lia)) as H7.
  change (Z.ones 5) with 31 in H31. change (Z.ones 4) with 15 in H15.
  change (Z.ones 3) with 7 in H7.
  change (2 ^ 5) with 32 in H31. change (2 ^ 4) with 16 in H15.
  change (2 ^ 3) with 8 in H7.
  assert (forall b, Z.land b 63 = b mod 64) as H63'.
  { intros b. change 63 with (Z.ones 6). by rewrite land_low by lia. }
  destruct (Utf8.first b0) as [[[sz lo] hi] |] eqn:Hfirst; [| done].
  destruct t as [| b1 t1]; [done |].
  destruct ((lo <=? b1) && (b1 <=? hi)) eqn:Hb1; [| done].
  apply andb_true_iff in Hb1 as [Hlo%Z.leb_le Hhi%Z.leb_le].
  unfold Utf8.first in Hfirst.
  repeat match type of Hfirst with
         | (if ?c then _ else _) = _ => destruct c eqn:?
         end; try discriminate; injection Hfirst as <- <- <-;
    repeat match goal with
           | H : _ && _ = true |- _ => apply andb_true_iff in H as [?%Z.leb_le ?%Z.leb_le]
           | H : (_ =? _) = true |- _ => apply Z.eqb_eq in H
           end.
  all: cbn [Z.eqb Pos.eqb].
  all: try (apply Hnot; rewrite ?H31, ?H15, ?H7, !H63';
            Z.to_euclidean_division_equations; lia).
  all: destruct t1 as [| b2 t2]; [done |].
  all: destruct (Utf8.cont b2); [| done].
  all: try (apply Hnot; rewrite ?H31, ?H15, ?H7, !H63';
            Z.to_euclidean_division_equations; lia).
  all: destruct t2 as [| b3 t3]; [done |].
  all: destruct (Utf8.cont b3); [| done].
  all: apply Hnot; rewrite ?H31, ?H15, ?H7, !H63';
         Z.to_euclidean_division_equations; lia.
Qed.

Lemma bytes_app (s1 s2 : string) :
  Strconv.bytes (s1 +:+ s2) = Strconv.bytes s1 ++ Strconv.bytes s2.
Proof.
  unfold Strconv.bytes. rewrite <- fmap_app. f_equal.
  induction s1 as [| a s1 IH]; [done |]. simpl. by rewrite IH.
Qed.

(** X9. A key printed with ["%d,%d"] scans back to its two numbers,
    whatever their signs, and so does the key followed by any text that
    does not start with a digit: the Composer reads such a key as the
    plain one. *)
Theorem key_round_trip (r c : Z) (suffix : string) :
  Int.in_range r -> Int.in_range c ->
  match suffix with
  | EmptyString => True
  | String a _ => Strconv.is_digit (Strconv.byte_of a) = false
  end ->
  Fmt.Sscanf_d_d (Fmt.Sprintf_d_d r c +:+ suffix) = (r, c).
Proof.
  intros Hr Hc Hsuffix. unfold Fmt.Sscanf_d_d, Fmt.Sprintf_d_d, Fmt.runes.
  rewrite bytes_app, bytes_of_list, fmap_app, fmap_cons.
  change (Strconv.byte_of ","%char) with 44.
  rewrite decode_ascii_app.
  2:{ apply Forall_app. split; [by apply Itoa_bytes_ascii |].
      constructor; [lia | by apply Itoa_bytes_ascii]. }
  rewrite <- app_assoc, scanInt_Itoa by done.
  cbn [app]. rewrite scanInt_Itoa; [done | done |].
  apply decode_head. by destruct suffix.
Qed.

Lemma key_round_trip_witness :
  Fmt.Sscanf_d_d (Fmt.Sprintf_d_d (-3) 12 +:+ " (copy)") = (-3, 12).
Proof.
  apply key_round_trip;
    [unfold Int.in_range, Int.min_int, Int.max_int; lia ..| reflexivity].
Defined.

Lemma SkipSpace_blank (b : Z) (s : list Z) :
  b <> 10 -> Fmt.isSpace b = true -> Fmt.SkipSpace (b :: s) = Fmt.SkipSpace s.
Proof. intros Hb Hs. simpl. destruct (Z.eqb_spec b 10); [done |]. by rewrite Hs. Qed.

Lemma scanInt_blank (b : Z) (s : list Z) :
  b <> 10 -> Fmt.isSpace b = true -> Fmt.scanInt (b :: s) = Fmt.scanInt s.
Proof. intros Hb Hs. unfold Fmt.scanInt. by rewrite SkipSpace_blank. Qed.

(** X10. Blanks in front of a key do not count: a space or a tab put
    before any key gives a key that is scanned to the same row and column,
    so two entries of one solution map can name the same cell. *)
Theorem key_leading_blank (a : ascii) (pos : string) :
  a = " "%char \/ a = "009"%char ->
  Fmt.Sscanf_d_d (String a pos) = Fmt.Sscanf_d_d pos /\
  String a pos <> pos.
Proof.
  intros Ha. split.
  - unfold Fmt.Sscanf_d_d, Fmt.runes, Strconv.bytes.
    cbn [list_ascii_of_string fmap list_fmap].
    destruct Ha as [-> | ->].
    + change (Strconv.byte_of " "%char) with 32. cbn [Utf8.decode].
      change (32 <? 128) with true. cbv iota.
      by rewrite scanInt_blank.
    + change (Strconv.byte_of "009"%char) with 9. cbn [Utf8.decode].
      change (9 <? 128) with true. cbv iota.
      by rewrite scanInt_blank.
  - intros Heq. apply (f_equal String.length) in Heq. simpl in Heq. lia.
Qed.

Lemma key_leading_blank_witness :
  Fmt.Sscanf_d_d " 1,0" = Fmt.Sscanf_d_d "1,0" /\ " 1,0" <> "1,0".
Proof. apply (key_leading_blank " "%char "1,0"). by left. Defined.

(** ** Tiles that overlap, and keys off the canvas *)

Lemma overChannel_opaque (d s : Z) : 0 <= s <= 255 -> overChannel d s 255 = s.
Proof.
  intros Hs. unfold overChannel. cbv zeta.
  change ((65535 - 255 * 257) * 257) with 0.
  rewrite Z.mul_0_r. change (0 / 65535) with 0. rewrite Z.add_0_l.
  Z.to_euclidean_division_equations. lia.
Qed.

Lemma over_opaque (s d : Color.RGBA) :
  Color.valid s -> Color.A s = 255 -> over s d = s.
Proof.
  intros (Hr & Hg & Hb & Ha) Hop. destruct s as [r g b a]. unfold over.
  simpl in *. subst a. by rewrite !overChannel_opaque.
Qed.

(** X11. Where tiles overlap, the one painted last covers the others: a
    point that the entry [e] paints with an opaque pixel, and that no
    entry visited after [e] paints, shows that pixel of [e], whatever was
    painted before. *)
Theorem last_opaque_tile_covers (d : Disk) (canvas : Image)
    (l l' : list (string * string)) (e : string * string) (x y : Z) :
  PtIn x y (paintRect (Bounds canvas) d e) = true ->
  (forall e', e' ∈ l' -> PtIn x y (paintRect (Bounds canvas) d e') = false) ->
  Color.valid (paintSource (Bounds canvas) d e x y) ->
  Color.A (paintSource (Bounds canvas) d e x y) = 255 ->
  At (fold_left (paintTile d) (l ++ e :: l') canvas) x y
  = paintSource (Bounds canvas) d e x y.
Proof.
  intros Hin Hafter Hvalid Hopaque.
  destruct (paint_fold_spec d (l ++ e :: l') canvas) as [_ ->].
  rewrite fold_left_app. cbn [fold_left].
  rewrite paintPixel_untouched by done.
  unfold paintPixel. rewrite Hin. by apply over_opaque.
Qed.

Lemma last_opaque_tile_covers_witness :
  At (fold_left (paintTile sampleTiles)
        ([("foo", "a.png")] ++ [("bar", "b.png")]) (blankCanvas ∅)) 3 4
  = paintSource (Bounds (blankCanvas ∅)) sampleTiles ("bar", "b.png") 3 4.
Proof.
  assert (paintSource (Bounds (blankCanvas ∅)) sampleTiles ("bar", "b.png") 3 4 = blue)
    as Hsrc by (vm_compute; reflexivity).
  apply (last_opaque_tile_covers sampleTiles (blankCanvas ∅)
           [("foo", "a.png")] [] ("bar", "b.png") 3 4).
  - vm_compute. reflexivity.
  - intros e' He'. apply elem_of_nil in He'. destruct He'.
  - rewrite Hsrc. unfold Color.valid, blue. simpl. lia.
  - rewrite Hsrc. reflexivity.
Defined.

Lemma Intersect_ZR_l (s : Rectangle) : Intersect ZR s = ZR.
Proof.
  unfold Intersect, Empty. cbn [Min Max X Y ZR].
  destruct (_ || _) eqn:E; [done |].
  apply orb_false_iff in E as [E _]. rewrite Z.geb_leb, Z.leb_gt in E. lia.
Qed.

Lemma tilePoint_keys (pos : string) :
  tilePoint pos = Pt (Int.mul (keyCol pos) tileSize) (Int.mul (keyRow pos) tileSize).
Proof. unfold tilePoint, keyRow, keyCol. by destruct (Fmt.Sscanf_d_d pos). Qed.

(** X12. A key with a negative row or column paints nothing: its tile,
    at most [tileSize] square, lies off a canvas that starts at the
    origin, and [draw.Draw] leaves the canvas as it is. *)
Theorem negative_key_paints_nothing (d : Disk) (canvas img : Image)
    (pos f : string) (w h : Z) :
  Min (Bounds canvas) = Pt 0 0 ->
  loadTile d f = Some img -> tileSized img w h ->
  Int.in_range (keyRow pos * tileSize) -> Int.in_range (keyCol pos * tileSize) ->
  keyRow pos < 0 \/ keyCol pos < 0 ->
  paintTile d canvas (pos, f) = canvas.
Proof.
  intros Hmin Hload (Hb & Hw & Hh) Hr Hc Hneg.
  unfold paintTile. rewrite Hload. unfold Draw.
  assert (Intersect (tileTarget pos img) (Bounds canvas) = ZR) as Hoff.
  { unfold tileTarget. rewrite tilePoint_keys, !mul_id by done.
    rewrite Hb, Rect_origin by lia. unfold PtAdd, Size, Dx, Dy. cbn [Min Max X Y].
    rewrite !sub_id by int_range. rewrite !Z.sub_0_r.
    unfold Intersect. cbn [Min Max X Y]. rewrite Hmin. cbn [X Y].
    assert (Empty
              {| Min := Pt (Z.max (keyCol pos * tileSize) 0)
                          (Z.max (keyRow pos * tileSize) 0);
                 Max := Pt (Z.min (Int.add (keyCol pos * tileSize) w)
                                  (X (Max (Bounds canvas))))
                          (Z.min (Int.add (keyRow pos * tileSize) h)
                                  (Y (Max (Bounds canvas)))) |} = true) as ->;
      [| done].
    unfold Empty. cbn [Min Max X Y]. apply orb_true_iff. rewrite !Z.geb_leb, !Z.leb_le.
    unfold tileSize in *. destruct Hneg as [Hneg | Hneg].
    - right. rewrite add_id by int_range. lia.
    - left. rewrite add_id by int_range. lia. }
  unfold clip. rewrite Hoff, Intersect_ZR_l. reflexivity.
Qed.

Lemma negative_key_paints_nothing_witness :
  paintTile sampleTiles (blankCanvas ∅) ("-1,0", "a.png") = blankCanvas ∅.
Proof.
  apply (negative_key_paints_nothing sampleTiles (blankCanvas ∅) (solidTile red)
           "-1,0" "a.png" 512 512).
  - reflexivity.
  - exact loadTile_a.
  - unfold tileSized, tileSize. split; [reflexivity | lia].
  - assert (keyRow "-1,0" = -1) as -> by (vm_compute; reflexivity).
    unfold Int.in_range, Int.min_int, Int.max_int, tileSize. lia.
  - assert (keyCol "-1,0" = 0) as -> by (vm_compute; reflexivity).
    unfold Int.in_range, Int.min_int, Int.max_int, tileSize. lia.
  - left. assert (keyRow "-1,0" = -1) as -> by (vm_compute; reflexivity). lia.
Defined.

Lemma maxOf_cons_nonpos (z : Z) (l : list Z) : z <= 0 -> maxOf (z :: l) = maxOf l.
Proof. intros Hz. pose proof (maxOf_bound l) as [H0 _]. unfold maxOf in *. simpl. lia. Qed.

(** X13. Only keys with a positive row or column enlarge the canvas:
    an entry added under a key whose row and column are zero or negative,
    as for a key that does not scan, leaves the canvas rectangle as it
    was. *)
Theorem nonpositive_key_same_canvas (m : gmap string string) (pos f : string)
    (order order' : list (string * string)) :
  rangeOrder m order -> rangeOrder (<[pos := f]> m) order' ->
  m !! pos = None -> keyRow pos <= 0 -> keyCol pos <= 0 ->
  canvasRect order' = canvasRect order.
Proof.
  intros Ho Ho' Hfresh Hr Hc. unfold canvasRect.
  rewrite (maxRowCol_order _ _ Ho), (maxRowCol_order _ _ Ho').
  assert (maxRowOf (<[pos := f]> m) = maxRowOf m) as ->.
  { unfold maxRowOf.
    rewrite (maxOf_perm _ ((fun e => keyRow e.1) <$> (pos, f) :: map_to_list m)).
    - rewrite fmap_cons. by apply maxOf_cons_nonpos.
    - apply fmap_Permutation. by apply map_to_list_insert. }
  assert (maxColOf (<[pos := f]> m) = maxColOf m) as ->; [| done].
  unfold maxColOf.
  rewrite (maxOf_perm _ ((fun e => keyCol e.1) <$> (pos, f) :: map_to_list m)).
  - rewrite fmap_cons. by apply maxOf_cons_nonpos.
  - apply fmap_Permutation. by apply map_to_list_insert.
Qed.

Lemma nonpositive_key_same_canvas_witness :
  canvasRect [("-2,-1", "b.png"); ("1,1", "a.png")] = canvasRect [("1,1", "a.png")].
Proof.
  apply (nonpositive_key_same_canvas {["1,1" := "a.png"]} "-2,-1" "b.png").
  - unfold rangeOrder. by rewrite map_to_list_singleton.
  - unfold rangeOrder. rewrite map_to_list_insert by reflexivity.
    by rewrite map_to_list_singleton.
  - reflexivity.
  - assert (keyRow "-2,-1" = -2) as -> by (vm_compute; reflexivity). lia.
  - assert (keyCol "-2,-1" = -1) as -> by (vm_compute; reflexivity). lia.
Defined.

(** ** Folder names *)

Lemma sampleEnv_asciiCase : asciiCase sampleEnv.
Proof.
  intros r Hr. split; [reflexivity |]. cbn [IsUpper ToLower sampleEnv].
  by intros ->.
Qed.

Lemma bytes_range (s : string) : Forall (fun b => 0 <= b < 256) (Strconv.bytes s).
Proof.
  unfold Strconv.bytes. apply Forall_fmap, Forall_forall. intros a _. simpl.
  unfold Strconv.byte_of. pose proof (N_ascii_bounded a). lia.
Qed.

Lemma snakeRunes_ascii (env : Env) (rs : list Z) :
  asciiCase env -> Forall (fun b => 0 <= b < 128) rs ->
  forall first, Forall snakeByte (snakeRunes env first rs).
Proof.
  intros Henv. induction 1 as [| r rs Hr _ IH]; intros first; [constructor |].
  cbn [snakeRunes]. apply Forall_app. split; [| apply IH].
  destruct (Henv r Hr) as [Hup Hlow].
  destruct (IsUpper env r) eqn:Hu.
  - symmetry in Hup. apply andb_true_iff in Hup as [H1%Z.leb_le H2%Z.leb_le].
    rewrite Hlow by done. apply Forall_app. split.
    + destruct first; repeat constructor; lia.
    + repeat constructor; lia.
  - symmetry in Hup. apply andb_false_iff in Hup.
    destruct ((r =? 32) || (r =? 45)) eqn:Hsep.
    + repeat constructor; lia.
    + apply orb_false_iff in Hsep as [H32%Z.eqb_neq H45%Z.eqb_neq].
      repeat constructor; lia.
Qed.

Lemma snakeRunes_fixed (env : Env) (rs : list Z) :
  asciiCase env -> Forall snakeByte rs ->
  forall first, snakeRunes env first rs = rs.
Proof.
  intros Henv. induction 1 as [| r rs (Hr & Hcap & H32 & H45) _ IH]; intros first;
    [done |].
  cbn [snakeRunes]. rewrite IH. destruct (Henv r Hr) as [-> _].
  assert ((65 <=? r) && (r <=? 90) = false) as ->.
  { apply andb_false_iff.
    destruct (Z.leb_spec 65 r); [| by left]. right. apply Z.leb_gt. lia. }
  destruct (Z.eqb_spec r 32); [done |]. by destruct (Z.eqb_spec r 45).
Qed.

Lemma to_string_bytes (rs : list Z) :
  Forall (fun b => 0 <= b < 128) rs ->
  Strconv.bytes (Utf8Enc.to_string rs) = rs.
Proof.
  intros Hrs. unfold Utf8Enc.to_string. rewrite bytes_of_list.
  induction Hrs as [| r rs Hr _ IH]; [done |].
  rewrite bind_cons.
  assert (Utf8Enc.encode r = [r]) as ->.
  { unfold Utf8Enc.encode.
    destruct (Z.leb_spec 0 r); [| lia]. by destruct (Z.leb_spec r 127); [| lia]. }
  cbn [app fmap list_fmap]. f_equal; [| exact IH].
  unfold Strconv.byte_of. rewrite N_ascii_embedding; lia.
Qed.

Lemma snakeByte_ascii (rs : list Z) :
  Forall snakeByte rs -> Forall (fun b => 0 <= b < 128) rs.
Proof. intros H. eapply Forall_impl; [exact H |]. by intros b [Hb _]. Qed.

(** X14. The folder of a puzzle with an ASCII name is an ASCII name
    without capitals, spaces and hyphens, and it is its own folder name: a
    name and the folder name made from it are stored in the same
    directory. *)
Theorem toSnakeCase_ascii (env : Env) (s : string) :
  asciiCase env -> Forall (fun b => b < 128) (Strconv.bytes s) ->
  Forall snakeByte (Strconv.bytes (toSnakeCase env s)) /\
  toSnakeCase env (toSnakeCase env s) = toSnakeCase env s.
Proof.
  intros Henv Hs.
  assert (Forall (fun b => 0 <= b < 128) (Strconv.bytes s)) as Hs'.
  { pose proof (bytes_range s) as Hr. rewrite Forall_forall in *.
    intros b Hb. specialize (Hs b Hb). specialize (Hr b Hb). simpl in *. lia. }
  pose proof (snakeRunes_ascii env _ Henv Hs' true) as Hsnake.
  assert (Strconv.bytes (toSnakeCase env s) = snakeRunes env true (Strconv.bytes s))
    as Hbytes.
  { unfold toSnakeCase, Fmt.runes. rewrite decode_ascii by done.
    apply to_string_bytes. by apply snakeByte_ascii. }
  split; [by rewrite Hbytes |].
  unfold toSnakeCase at 1. unfold Fmt.runes. rewrite Hbytes.
  rewrite decode_ascii.
  2:{ eapply Forall_impl; [exact Hsnake |]. intros b [Hb _]. simpl. lia. }
  rewrite snakeRunes_fixed by done.
  unfold toSnakeCase, Fmt.runes. by rewrite decode_ascii.
Qed.

Lemma toSnakeCase_ascii_witness :
  Forall snakeByte (Strconv.bytes (toSnakeCase sampleEnv "My Puzzle-2")) /\
  toSnakeCase sampleEnv (toSnakeCase sampleEnv "My Puzzle-2")
  = toSnakeCase sampleEnv "My Puzzle-2".
Proof.
  apply toSnakeCase_ascii; [exact sampleEnv_asciiCase |].
  assert (Strconv.bytes "My Puzzle-2" = [77; 121; 32; 80; 117; 122; 122; 108; 101; 45; 50])
    as -> by (vm_compute; reflexivity).
  repeat constructor.
Defined.

(** ** The number of columns *)

Lemma ParseInt_cases (b : Z) (t : list Z) :
  Strconv.ParseInt (b :: t) =
  if b =? 43 then Strconv.ParseInt (43 :: t)
  else if b =? 45 then Strconv.ParseInt (45 :: t)
  else match Strconv.parseDigits 0 (b :: t) with
       | None => None
       | Some u =>
           if (Int.min_int <=? u) && (u <=? Int.max_int) then Some u else None
       end.
Proof.
  destruct (Z.eqb_spec b 43) as [-> | H43]; [done |].
  destruct (Z.eqb_spec b 45) as [-> | H45]; [done |].
  unfold Strconv.ParseInt.
  destruct b as [| p | p]; try reflexivity.
  do 6 (destruct p as [p | p |]; try reflexivity); lia.
Qed.

(** What [strconv.Atoi] takes for a positive number: decimal digits and
    nothing else, but for one plus sign in front. *)
Lemma ParseInt_positive (bs : list Z) (n : Z) :
  Strconv.ParseInt bs = Some n -> 0 < n ->
  exists sign ds,
    bs = sign ++ ds /\ (sign = [] \/ sign = [43]) /\ ds <> [] /\
    Forall (fun b => 48 <= b <= 57) ds /\
    Strconv.parseDigits 0 ds = Some n /\ n <= Int.max_int.
Proof.
  assert (forall a ds u, Strconv.parseDigits a ds = Some u ->
            Forall (fun b => 48 <= b <= 57) ds) as Hdigits.
  { intros a ds. revert a. induction ds as [| b ds IH]; intros a u; [constructor |].
    simpl. destruct (Strconv.is_digit b) eqn:Hb; [| done].
    intros Hp. constructor; [by apply is_digit_range | by eapply IH]. }
  assert (forall a ds u, 0 <= a -> Strconv.parseDigits a ds = Some u -> 0 <= u) as Hnonneg.
  { intros a ds. revert a. induction ds as [| b ds IH]; intros a u Ha; simpl.
    - intros [= <-]. lia.
    - destruct (Strconv.is_digit b) eqn:Hb; [| done].
      apply is_digit_range in Hb. apply IH. lia. }
  intros Hparse Hn. destruct bs as [| b t]; [done |].
  rewrite ParseInt_cases in Hparse.
  destruct (Z.eqb_spec b 43) as [-> | H43].
  - unfold Strconv.ParseInt in Hparse. cbv iota beta zeta in Hparse.
    destruct t as [| b' t']; [done |].
    destruct (Strconv.parseDigits 0 (b' :: t')) as [u |] eqn:Hu; [| done].
    destruct ((Int.min_int <=? u) && (u <=? Int.max_int)) eqn:Hrange; [| done].
    injection Hparse as ->. apply andb_true_iff in Hrange as [_ Hmax%Z.leb_le].
    exists [43], (b' :: t'). repeat split; [by right | done | by eapply Hdigits | done | done].
  - destruct (Z.eqb_spec b 45) as [-> | H45].
    + unfold Strconv.ParseInt in Hparse. cbv iota beta zeta in Hparse.
      destruct t as [| b' t']; [done |].
      destruct (Strconv.parseDigits 0 (b' :: t')) as [u |] eqn:Hu; [| done].
      destruct ((Int.min_int <=? - u) && (- u <=? Int.max_int)); [| done].
      injection Hparse as <-. apply Hnonneg in Hu; lia.
    + destruct (Strconv.parseDigits 0 (b :: t)) as [u |] eqn:Hu; [| done].
      destruct ((Int.min_int <=? u) && (u <=? Int.max_int)) eqn:Hrange; [| done].
      injection Hparse as ->. apply andb_true_iff in Hrange as [_ Hmax%Z.leb_le].
      exists [], (b :: t). repeat split; [by left | done | by eapply Hdigits | done | done].
Qed.

(** X15. An upload gets past its checks only as a POST with a name and
    with a number of columns written in decimal digits alone, a plus sign
    allowed in front: blanks, a fraction, a minus sign or zero are
    answered with status 400. *)
Theorem upload_accepted_columns (env : Env) (d d' : Disk) (cat cat' : Catalog)
    (req : UploadRequest) (resp : UploadResponse) :
  uploadPuzzleHandler env d cat req = (resp, d', cat') ->
  (forall msg, resp <> UploadError 400 msg) ->
  (forall msg, resp <> UploadError 405 msg) ->
  uploadMethod req = "POST" /\ formName req <> "" /\
  exists n sign ds,
    Strconv.bytes (formColumns req) = sign ++ ds /\
    (sign = [] \/ sign = [43]) /\ ds <> [] /\
    Forall (fun b => 48 <= b <= 57) ds /\
    Strconv.parseDigits 0 ds = Some n /\ 0 < n <= Int.max_int.
Proof.
  unfold uploadPuzzleHandler. intros Hrun H400 H405.
  destruct (String.eqb_spec (uploadMethod req) "POST") as [Hpost | _];
    [| injection Hrun as <- _ _; by destruct (H405 "POST required")].
  cbn [negb] in Hrun.
  destruct (negb (formOK req));
    [injection Hrun as <- _ _; by destruct (H400 "Error parsing multipart form") |].
  destruct (String.eqb_spec (formName req) "") as [_ | Hname];
    [injection Hrun as <- _ _; by destruct (H400 "Puzzle name is required") |].
  destruct (Strconv.Atoi (formColumns req)) as [n |] eqn:Hatoi;
    [| injection Hrun as <- _ _; by destruct (H400 "Invalid number of columns")].
  destruct (Z.leb_spec n 0) as [_ | Hn];
    [injection Hrun as <- _ _; by destruct (H400 "Invalid number of columns") |].
  clear Hrun. split; [exact Hpost |]. split; [exact Hname |].
  destruct (ParseInt_positive _ n Hatoi Hn) as (sign & ds & ? & ? & ? & ? & ? & ?).
  exists n, sign, ds. repeat split; (done || lia).
Qed.

Lemma upload_accepted_columns_witness :
  uploadMethod sampleUpload = "POST" /\ formName sampleUpload <> "" /\
  exists n sign ds,
    Strconv.bytes (formColumns sampleUpload) = sign ++ ds /\
    (sign = [] \/ sign = [43]) /\ ds <> [] /\
    Forall (fun b => 48 <= b <= 57) ds /\
    Strconv.parseDigits 0 ds = Some n /\ 0 < n <= Int.max_int.
Proof.
  pose proof (upload_result_eta (uploadPuzzleHandler sampleEnv ∅ CatalogAbsent sampleUpload)
                UploadOK ltac:(vm_compute; reflexivity)) as Hrun.
  apply (upload_accepted_columns _ _ _ _ _ _ _ Hrun); intros msg; discriminate.
Defined.

(** ** An upload, then an export of its solution *)





(** ** An export always answers *)


